(** * The TRILL RBridge data plane of net/bridge/rbridge/rbr.c

    A shallow embedding of the forwarding engine of the Linux RBridge
    (rbr.c), followed by the properties the specification states about it.

    Conventions of the embedding.
    - The build modelled is the one without CONFIG_TRILL_VNT: every
      [#ifdef CONFIG_TRILL_VNT] block is left out and every
      [#ifndef CONFIG_TRILL_VNT] block is kept.
    - A packet buffer is a value: its linear area from [head] to [tail], the
      offset of [data], the paged bytes, the header marks and the few fields
      rbr.c touches.  A clone or a copy is a new value.
    - One bridge is in scope.  Its fdb is an abstract collaborator (a class),
      every other collaborator that receives a buffer is an entry of the
      output trace.
    - Allocations succeed or fail as an oracle tape says; an empty tape means
      success.
    - A NULL dereference or a kernel BUG is the failure of the monad.
    - Reference counts of neighbour entries, locks, RCU and the [used]
      timestamp of an fdb entry are not tracked. *)

From Stdlib Require Import ZArith Lia Bool String.
From stdpp Require Import base option list gmap.

Local Open Scope Z_scope.

(** ** Constants *)

Definition ETH_ALEN : nat := 6.
Definition ETH_HLEN : nat := 14.
Definition VLAN_HLEN : nat := 4.

(** Modelled from the spec: the outer EtherType of a TRILL frame
    ("the TRILL protocol value"); if_ether.h is not among the sources. *)
Definition ETH_P_TRILL : Z := 0x22F3.

(** Modelled from the spec: an accelerated VLAN tag is carried in the
    buffer's [vlan_tci] with a presence bit; if_vlan.h is not among the
    sources. *)
Definition VLAN_VID_MASK : Z := 0x0fff.
Definition VLAN_TAG_PRESENT : Z := 0x1000.

(** Modelled from the spec: granularity by which headroom grows when it has
    to be reallocated; skbuff.h is not among the sources. *)
Definition NET_SKB_PAD : nat := 64.

(** Width of the [unsigned long] statistics counters. *)
Definition BITS_PER_LONG : Z := 64.

(** Modelled from the spec: "Two reserved values: NICK_NONE (no nickname
    assigned) and the all-ones sentinel"; rbr_private.h is not among the
    sources. *)
Definition RBRIDGE_NICKNAME_MIN : Z := 0x0000.
Definition RBRIDGE_NICKNAME_MAX : Z := 0xFFFF.
Definition RBRIDGE_NICKNAME_NONE : Z := RBRIDGE_NICKNAME_MIN.
Definition RBRIDGE_NICKNAME_UNUSED : Z := RBRIDGE_NICKNAME_MAX.

(** Modelled from the spec: "valid(nick) holds iff nick is neither NICK_NONE
    nor reserved_max". *)
Definition VALID_NICK (n : Z) : bool :=
  negb (n =? RBRIDGE_NICKNAME_NONE) && negb (n =? RBRIDGE_NICKNAME_UNUSED).

(** Modelled from the spec: "The protocol version is a fixed constant"
    (the scenarios use v=0). *)
Definition TRILL_PROTOCOL_VERS : Z := 0.

(** ** HeaderCodec: the 16-bit flags word

    Modelled from the spec: "16-bit flags word: version (2b), reserved (2b),
    multi_destination (1b), opt_len (5b, in 4-octet units), hop_count (6b)";
    the accessors are inline functions of a header that is not among the
    sources.  All of them work on the flags word in host order, that is
    after [ntohs]. *)

Definition TRILL_FLAGS_HOPCOUNT_MASK : Z := 0x3F.

Definition u16 (x : Z) : Z := x mod 65536.

Definition trill_get_version (flags : Z) : Z := Z.land (Z.shiftr flags 14) 3.
Definition trill_set_version (v : Z) : Z := Z.shiftl (Z.land v 3) 14.
Definition trill_get_multidest (flags : Z) : Z := Z.land (Z.shiftr flags 11) 1.
Definition trill_set_multidest (m : Z) : Z := Z.shiftl (Z.land m 1) 11.
(** The options length is returned in octets: rbr_recv adds it to
    [sizeof(struct trill_hdr)]. *)
Definition trill_get_optslen (flags : Z) : Z :=
  Z.land (Z.shiftr flags 6) 0x1F * 4.
Definition trill_get_hopcount (flags : Z) : Z :=
  Z.land flags TRILL_FLAGS_HOPCOUNT_MASK.
Definition trill_set_hopcount (h : Z) : Z :=
  Z.land h TRILL_FLAGS_HOPCOUNT_MASK.

(** Modelled from the spec: "Decrement the TRILL hop count in place": the
    hop-count field is replaced by its predecessor (within its six bits), the
    other fields of the flags word are kept. *)
Definition dec_hopcount_flags (flags : Z) : Z :=
  Z.lor (Z.land flags (Z.lxor 0xFFFF TRILL_FLAGS_HOPCOUNT_MASK))
        (trill_set_hopcount (trill_get_hopcount flags - 1)).

(** ** Octets, MAC addresses and 16-bit fields in memory *)

Record mac := MAC { mac0 : Z; mac1 : Z; mac2 : Z; mac3 : Z; mac4 : Z; mac5 : Z }.

#[global] Instance mac_eq_dec : EqDecision mac.
Proof. solve_decision. Defined.

Definition mac_bytes (m : mac) : list Z :=
  [mac0 m; mac1 m; mac2 m; mac3 m; mac4 m; mac5 m].

Definition byte_at (l : list Z) (i : nat) : Z := nth i l 0.

Definition bytes_mac (l : list Z) : mac :=
  MAC (byte_at l 0) (byte_at l 1) (byte_at l 2)
      (byte_at l 3) (byte_at l 4) (byte_at l 5).

(** [memcmp(a, b, ETH_ALEN) == 0] on two addresses. *)
Definition mac_equal (a b : mac) : bool := bool_decide (a = b).

(** A 16-bit field is read as the number its two octets spell in network
    order.  For [th_flags] this is [ntohs] of the stored field.  The two
    nicknames are stored and compared in one and the same form everywhere
    (rbr.c: "ntohs not needed as the 2 are in the same bit form"), and that
    form is read here as the same number. *)
Definition be16_bytes (x : Z) : list Z := [Z.shiftr x 8 mod 256; x mod 256].
Definition be16_at (l : list Z) (i : nat) : Z :=
  byte_at l i * 256 + byte_at l (S i).

(** Overwrite [length bs] octets of [buf] from offset [off] on. *)
Definition buf_write (off : nat) (bs : list Z) (buf : list Z) : list Z :=
  take off buf ++ bs ++ drop (off + length bs)%nat buf.

(** ** Packet buffers (struct sk_buff)

    Modelled from the spec: "Packet buffers are borrowed for the duration of
    one handler invocation"; the structure and its helpers live in skbuff.h,
    which is not among the sources.  Only the fields rbr.c reads or writes
    are kept.  Header marks are offsets from [head], as is [skb_data]. *)

Record sk_buff := mk_skb {
  skb_buf : list Z;              (* the linear area, head .. tail *)
  skb_data : nat;                (* data - head, the headroom *)
  skb_frags : list Z;            (* paged octets, data_len of them *)
  mac_header : nat;
  network_header : nat;
  transport_header : nat;
  inner_mac_header : nat;
  inner_network_header : nat;
  inner_transport_header : nat;
  mac_len : Z;
  encapsulation : bool;
  cloned : bool;
  vlan_proto : Z;
  vlan_tci : Z;
  protocol : Z;
  skb_dev : Z                    (* ifindex of skb->dev *)
}.

#[global] Instance sk_buff_eq_dec : EqDecision sk_buff.
Proof. solve_decision. Defined.

Definition set_buf (v : list Z) (s : sk_buff) : sk_buff :=
  mk_skb v (skb_data s) (skb_frags s) (mac_header s) (network_header s)
    (transport_header s) (inner_mac_header s) (inner_network_header s)
    (inner_transport_header s) (mac_len s) (encapsulation s) (cloned s)
    (vlan_proto s) (vlan_tci s) (protocol s) (skb_dev s).
Definition set_data (v : nat) (s : sk_buff) : sk_buff :=
  mk_skb (skb_buf s) v (skb_frags s) (mac_header s) (network_header s)
    (transport_header s) (inner_mac_header s) (inner_network_header s)
    (inner_transport_header s) (mac_len s) (encapsulation s) (cloned s)
    (vlan_proto s) (vlan_tci s) (protocol s) (skb_dev s).
Definition set_frags (v : list Z) (s : sk_buff) : sk_buff :=
  mk_skb (skb_buf s) (skb_data s) v (mac_header s) (network_header s)
    (transport_header s) (inner_mac_header s) (inner_network_header s)
    (inner_transport_header s) (mac_len s) (encapsulation s) (cloned s)
    (vlan_proto s) (vlan_tci s) (protocol s) (skb_dev s).
Definition set_mac_header (v : nat) (s : sk_buff) : sk_buff :=
  mk_skb (skb_buf s) (skb_data s) (skb_frags s) v (network_header s)
    (transport_header s) (inner_mac_header s) (inner_network_header s)
    (inner_transport_header s) (mac_len s) (encapsulation s) (cloned s)
    (vlan_proto s) (vlan_tci s) (protocol s) (skb_dev s).
Definition set_network_header (v : nat) (s : sk_buff) : sk_buff :=
  mk_skb (skb_buf s) (skb_data s) (skb_frags s) (mac_header s) v
    (transport_header s) (inner_mac_header s) (inner_network_header s)
    (inner_transport_header s) (mac_len s) (encapsulation s) (cloned s)
    (vlan_proto s) (vlan_tci s) (protocol s) (skb_dev s).
Definition set_mac_len (v : Z) (s : sk_buff) : sk_buff :=
  mk_skb (skb_buf s) (skb_data s) (skb_frags s) (mac_header s)
    (network_header s) (transport_header s) (inner_mac_header s)
    (inner_network_header s) (inner_transport_header s) v (encapsulation s)
    (cloned s) (vlan_proto s) (vlan_tci s) (protocol s) (skb_dev s).
Definition set_encapsulation (v : bool) (s : sk_buff) : sk_buff :=
  mk_skb (skb_buf s) (skb_data s) (skb_frags s) (mac_header s)
    (network_header s) (transport_header s) (inner_mac_header s)
    (inner_network_header s) (inner_transport_header s) (mac_len s) v
    (cloned s) (vlan_proto s) (vlan_tci s) (protocol s) (skb_dev s).
Definition set_cloned (v : bool) (s : sk_buff) : sk_buff :=
  mk_skb (skb_buf s) (skb_data s) (skb_frags s) (mac_header s)
    (network_header s) (transport_header s) (inner_mac_header s)
    (inner_network_header s) (inner_transport_header s) (mac_len s)
    (encapsulation s) v (vlan_proto s) (vlan_tci s) (protocol s) (skb_dev s).
Definition set_vlan (proto tci : Z) (s : sk_buff) : sk_buff :=
  mk_skb (skb_buf s) (skb_data s) (skb_frags s) (mac_header s)
    (network_header s) (transport_header s) (inner_mac_header s)
    (inner_network_header s) (inner_transport_header s) (mac_len s)
    (encapsulation s) (cloned s) proto tci (protocol s) (skb_dev s).
Definition set_protocol (v : Z) (s : sk_buff) : sk_buff :=
  mk_skb (skb_buf s) (skb_data s) (skb_frags s) (mac_header s)
    (network_header s) (transport_header s) (inner_mac_header s)
    (inner_network_header s) (inner_transport_header s) (mac_len s)
    (encapsulation s) (cloned s) (vlan_proto s) (vlan_tci s) v (skb_dev s).
Definition set_dev (v : Z) (s : sk_buff) : sk_buff :=
  mk_skb (skb_buf s) (skb_data s) (skb_frags s) (mac_header s)
    (network_header s) (transport_header s) (inner_mac_header s)
    (inner_network_header s) (inner_transport_header s) (mac_len s)
    (encapsulation s) (cloned s) (vlan_proto s) (vlan_tci s) (protocol s) v.

Definition skb_headroom (s : sk_buff) : nat := skb_data s.
Definition skb_headlen (s : sk_buff) : nat := (length (skb_buf s) - skb_data s)%nat.
Definition skb_len (s : sk_buff) : nat := (skb_headlen s + length (skb_frags s))%nat.

(** The octets at [skb->data] that lie in the linear area. *)
Definition skb_linear (s : sk_buff) : list Z := drop (skb_data s) (skb_buf s).
(** The octets from [skb->data] to the end of the packet. *)
Definition skb_payload (s : sk_buff) : list Z := skb_linear s ++ skb_frags s.
(** The frame as it starts at the MAC header mark. *)
Definition skb_frame (s : sk_buff) : list Z :=
  drop (mac_header s) (skb_buf s) ++ skb_frags s.

(** [struct ethhdr]: h_dest, h_source, h_proto at offsets 0, 6, 12. *)
Definition eth_hdr (s : sk_buff) : list Z := drop (mac_header s) (skb_buf s).
Definition h_dest (hdr : list Z) : mac := bytes_mac hdr.
Definition h_source (hdr : list Z) : mac := bytes_mac (drop ETH_ALEN hdr).
Definition h_proto (hdr : list Z) : Z := be16_at hdr 12.

Definition set_h_dest (m : mac) (s : sk_buff) : sk_buff :=
  set_buf (buf_write (mac_header s) (mac_bytes m) (skb_buf s)) s.
Definition set_h_source (m : mac) (s : sk_buff) : sk_buff :=
  set_buf (buf_write (mac_header s + ETH_ALEN) (mac_bytes m) (skb_buf s)) s.
Definition set_h_proto (v : Z) (s : sk_buff) : sk_buff :=
  set_buf (buf_write (mac_header s + 12) (be16_bytes v) (skb_buf s)) s.

(** [struct trill_hdr] at [skb->data]: th_flags, th_egressnick,
    th_ingressnick, six octets in all.

    Modelled from the spec: "16-bit flags word ... 16-bit egress_nick.
    16-bit ingress_nick."

    rbr.c converts th_flags with ntohs and htons, and reads and writes the two
    nickname fields as they are ("the 2 are in the same bit form"): a
    nickname is, in the header as in [struct rbr], the number its two octets
    spell in network order. *)
Definition sizeof_trill_hdr : nat := 6.
Definition th_flags (trh : list Z) : Z := be16_at trh 0.
Definition th_egressnick (trh : list Z) : Z := be16_at trh 2.
Definition th_ingressnick (trh : list Z) : Z := be16_at trh 4.

Definition set_th_flags (v : Z) (s : sk_buff) : sk_buff :=
  set_buf (buf_write (skb_data s) (be16_bytes v) (skb_buf s)) s.
Definition set_th_egressnick (v : Z) (s : sk_buff) : sk_buff :=
  set_buf (buf_write (skb_data s + 2) (be16_bytes v) (skb_buf s)) s.
Definition set_th_ingressnick (v : Z) (s : sk_buff) : sk_buff :=
  set_buf (buf_write (skb_data s + 4) (be16_bytes v) (skb_buf s)) s.

(** [trillhdr_dec_hopcount(trh)] with [trh = skb->data]. *)
Definition trillhdr_dec_hopcount (s : sk_buff) : sk_buff :=
  set_th_flags (dec_hopcount_flags (th_flags (skb_linear s))) s.

(** [skb_push]: [None] is the kernel's skb_under_panic. *)
Definition skb_push (n : nat) (s : sk_buff) : option sk_buff :=
  if decide (n ≤ skb_data s)%nat then Some (set_data (skb_data s - n)%nat s)
  else None.

(** [skb_pull]: leaves the buffer alone when [n] exceeds its length; [None]
    is the BUG of pulling past the linear area. *)
Definition skb_pull (n : nat) (s : sk_buff) : option sk_buff :=
  if decide (skb_len s < n)%nat then Some s
  else if decide (n ≤ skb_headlen s)%nat then Some (set_data (skb_data s + n)%nat s)
  else None.

Definition skb_reset_mac_header (s : sk_buff) : sk_buff :=
  set_mac_header (skb_data s) s.
Definition skb_reset_network_header (s : sk_buff) : sk_buff :=
  set_network_header (skb_data s) s.
Definition skb_reset_mac_len (s : sk_buff) : sk_buff :=
  set_mac_len (u16 (Z.of_nat (network_header s) - Z.of_nat (mac_header s))) s.
Definition skb_reset_inner_headers (s : sk_buff) : sk_buff :=
  mk_skb (skb_buf s) (skb_data s) (skb_frags s) (mac_header s)
    (network_header s) (transport_header s) (mac_header s)
    (network_header s) (transport_header s) (mac_len s) (encapsulation s)
    (cloned s) (vlan_proto s) (vlan_tci s) (protocol s) (skb_dev s).

(** The effect of a successful [pskb_expand_head(skb, nhead, 0, ...)]:
    [nhead] fresh octets of headroom, every mark shifted, a private data
    area. *)
Definition expand_head (nhead : nat) (s : sk_buff) : sk_buff :=
  mk_skb (replicate nhead 0 ++ skb_buf s) (skb_data s + nhead)%nat
    (skb_frags s) (mac_header s + nhead)%nat (network_header s + nhead)%nat
    (transport_header s + nhead)%nat (inner_mac_header s + nhead)%nat
    (inner_network_header s + nhead)%nat
    (inner_transport_header s + nhead)%nat (mac_len s) (encapsulation s)
    false (vlan_proto s) (vlan_tci s) (protocol s) (skb_dev s).

(** ALIGN(x, a) *)
Definition ALIGN (x a : nat) : nat := ((x + a - 1) / a * a)%nat.

Definition vlan_tx_tag_present (s : sk_buff) : bool :=
  negb (Z.land (vlan_tci s) VLAN_TAG_PRESENT =? 0).
Definition vlan_tx_tag_get (s : sk_buff) : Z :=
  Z.land (vlan_tci s) (Z.lxor 0xFFFF VLAN_TAG_PRESENT).

(** [br_vlan_get_tag(skb, &vid)]: [Some vid] stands for the return value 0.

    Modelled from the spec: "if the buffer carries an accelerated VLAN
    tag"; the helper lives in br_private.h, not among the sources. *)
Definition br_vlan_get_tag (s : sk_buff) : option Z :=
  if vlan_tx_tag_present s then Some (Z.land (vlan_tx_tag_get s) VLAN_VID_MASK)
  else None.

(** What [vlan_insert_tag] does once headroom is there: make room, move the
    two MAC addresses down, write the tag after them.

    Modelled from the spec: "reinsert it inline". *)
Definition vlan_tag_write (proto tci : Z) (s : sk_buff) : sk_buff :=
  let macs := take (2 * ETH_ALEN) (drop VLAN_HLEN (skb_linear s)) in
  let s := set_buf (buf_write (skb_data s) macs (skb_buf s)) s in
  let s := set_mac_header (mac_header s - VLAN_HLEN)%nat s in
  let s := set_buf (buf_write (skb_data s + 2 * ETH_ALEN) (be16_bytes proto) (skb_buf s)) s in
  set_buf (buf_write (skb_data s + 2 * ETH_ALEN + 2) (be16_bytes tci) (skb_buf s)) s.

(** ** NeighborTable and RbrState

    Modelled from the spec: "NeighborInfo: adj_snpa, adjacencies (ordered
    sequence of nicknames, length adj_count), dt_roots (ordered sequence,
    length dt_root_count)"; struct rbr_nickinfo and the macros
    RBR_NI_ADJNICK and RBR_NI_DTROOTNICK live in rbr_private.h, which is not
    among the sources. *)

Record rbr_nickinfo := {
  adjsnpa : mac;
  adjnicks : list Z;
  dtrootnicks : list Z
}.

Definition adjcount (ni : rbr_nickinfo) : nat := length (adjnicks ni).
Definition dtrootcount (ni : rbr_nickinfo) : nat := length (dtrootnicks ni).
Definition RBR_NI_ADJNICK (ni : rbr_nickinfo) (i : nat) : Z := nth i (adjnicks ni) 0.
Definition RBR_NI_DTROOTNICK (ni : rbr_nickinfo) (i : nat) : Z := nth i (dtrootnicks ni) 0.

Record rbr_node := { rbr_ni : rbr_nickinfo }.

(** [struct rbr]: the nickname-indexed array [rbr_nodes] is a finite map. *)
Record rbr := mk_rbr {
  nick : Z;
  treeroot : Z;
  rbr_nodes : gmap Z rbr_node
}.

Record net_bridge_port := {
  port_dev : Z;                  (* ifindex of p->dev *)
  port_dev_addr : mac            (* p->dev->dev_addr *)
}.

Inductive stp_state := BR_NO_STP | BR_KERNEL_STP | BR_USER_STP.
Inductive trill_state := BR_NO_TRILL | BR_TRILL.

#[global] Instance stp_state_eq_dec : EqDecision stp_state.
Proof. solve_decision. Defined.
#[global] Instance trill_state_eq_dec : EqDecision trill_state.
Proof. solve_decision. Defined.

(** What leaves the RBridge: calls into the collaborators, in order. *)
Inductive event :=
| Ev_printk (msg : string)
| Ev_br_stp_stop
| Ev_br_forward (to : net_bridge_port) (skb : sk_buff)
| Ev_br_trill_flood_forward (skb : sk_buff)
| Ev_br_deliver (to : net_bridge_port) (skb : sk_buff)
| Ev_br_endstation_deliver (skb : sk_buff)
| Ev_kfree_skb (skb : sk_buff)
| Ev_kfree_rbr (r : rbr).

(** The bridge's forwarding database, an external collaborator.

    Modelled from the spec: "bridge_fdb: get(bridge, mac, vid), update(bridge,
    port, mac, vid), update_with_nick(bridge, port, mac, vid, ingress_nick)". *)
Class BridgeFdb (F : Type) := {
  br_fdb_get : F → mac → Z → option net_bridge_port;
  br_fdb_update : F → net_bridge_port → mac → Z → F;
  br_fdb_update_nick : F → net_bridge_port → mac → Z → Z → F
}.

Record net_bridge (F : Type) := mk_br {
  br_dev : Z;                    (* ifindex of br->dev *)
  br_dev_addr : mac;             (* br->dev->dev_addr *)
  tx_dropped : Z;                (* br->dev->stats.tx_dropped *)
  rx_dropped : Z;
  stp_enabled : stp_state;
  trill_enabled : trill_state;
  br_rbr : option rbr;           (* br->rbr, None is NULL *)
  br_ports : gmap Z net_bridge_port;
  br_fdb : F
}.
Arguments mk_br {F}.
Arguments br_dev {F}.
Arguments br_dev_addr {F}.
Arguments tx_dropped {F}.
Arguments rx_dropped {F}.
Arguments stp_enabled {F}.
Arguments trill_enabled {F}.
Arguments br_rbr {F}.
Arguments br_ports {F}.
Arguments br_fdb {F}.

Record world (F : Type) := mk_world {
  w_br : net_bridge F;
  w_out : list event;
  w_alloc : list bool
}.
Arguments mk_world {F}.
Arguments w_br {F}.
Arguments w_out {F}.
Arguments w_alloc {F}.

Section Bridge.
Context {F : Type}.

Definition set_tx_dropped (v : Z) (b : net_bridge F) : net_bridge F :=
  mk_br (br_dev b) (br_dev_addr b) v (rx_dropped b) (stp_enabled b)
    (trill_enabled b) (br_rbr b) (br_ports b) (br_fdb b).
Definition set_rx_dropped (v : Z) (b : net_bridge F) : net_bridge F :=
  mk_br (br_dev b) (br_dev_addr b) (tx_dropped b) v (stp_enabled b)
    (trill_enabled b) (br_rbr b) (br_ports b) (br_fdb b).
Definition set_stp_enabled (v : stp_state) (b : net_bridge F) : net_bridge F :=
  mk_br (br_dev b) (br_dev_addr b) (tx_dropped b) (rx_dropped b) v
    (trill_enabled b) (br_rbr b) (br_ports b) (br_fdb b).
Definition set_trill_enabled (v : trill_state) (b : net_bridge F) : net_bridge F :=
  mk_br (br_dev b) (br_dev_addr b) (tx_dropped b) (rx_dropped b)
    (stp_enabled b) v (br_rbr b) (br_ports b) (br_fdb b).
Definition set_br_rbr (v : option rbr) (b : net_bridge F) : net_bridge F :=
  mk_br (br_dev b) (br_dev_addr b) (tx_dropped b) (rx_dropped b)
    (stp_enabled b) (trill_enabled b) v (br_ports b) (br_fdb b).
Definition set_br_fdb (v : F) (b : net_bridge F) : net_bridge F :=
  mk_br (br_dev b) (br_dev_addr b) (tx_dropped b) (rx_dropped b)
    (stp_enabled b) (trill_enabled b) (br_rbr b) (br_ports b) v.

(** [counter++] on an unsigned long. *)
Definition incr (x : Z) : Z := (x + 1) mod 2 ^ BITS_PER_LONG.

(** [br_port_get_rcu(dev)]: the port a device is enslaved as, if any. *)
Definition br_port_get_rcu (b : net_bridge F) (dev : Z) : option net_bridge_port :=
  br_ports b !! dev.

(** ** The monad: state, output trace, allocation oracle, failure *)

Definition M (A : Type) : Type := world F → option (A * world F).

Definition ret {A} (a : A) : M A := λ w, Some (a, w).
Definition bind {A B} (m : M A) (k : A → M B) : M B :=
  λ w, match m w with Some (a, w') => k a w' | None => None end.
(** NULL dereference, skb_under_panic, BUG_ON. *)
Definition oops {A} : M A := λ _, None.
Definition lift {A} (o : option A) : M A :=
  match o with Some a => ret a | None => oops end.

Definition get_br : M (net_bridge F) := λ w, Some (w_br w, w).
Definition upd_br (f : net_bridge F → net_bridge F) : M unit :=
  λ w, Some (tt, mk_world (f (w_br w)) (w_out w) (w_alloc w)).
Definition emit (e : event) : M unit :=
  λ w, Some (tt, mk_world (w_br w) (w_out w ++ [e]) (w_alloc w)).
(** One allocation attempt (GFP_ATOMIC or GFP_KERNEL). *)
Definition alloc : M bool :=
  λ w, match w_alloc w with
       | [] => Some (true, w)
       | b :: t => Some (b, mk_world (w_br w) (w_out w) t)
       end.

End Bridge.

Declare Scope rbr_scope.
Delimit Scope rbr_scope with rbr.
Notation "'let*' x ':=' m 'in' k" := (bind m (λ x, k))
  (at level 10, x name, m at level 100, k at level 200) : rbr_scope.
Notation "'let*' ' p ':=' m 'in' k" := (bind m (λ x, match x with p => k end))
  (at level 10, p pattern, m at level 100, k at level 200) : rbr_scope.
Notation "m '>>' k" := (bind m (λ _, k))
  (at level 100, k at level 200, right associativity) : rbr_scope.
Local Open Scope rbr_scope.

(** ** Kernel helpers that allocate or free *)

Section Helpers.
Context {F : Type}.

Definition kfree_skb (skb : sk_buff) : M (F:=F) unit := emit (Ev_kfree_skb skb).
Definition printk (msg : string) : M (F:=F) unit := emit (Ev_printk msg).

(** [skb_cow_head(skb, headroom)]: [true] stands for the return value 0. *)
Definition skb_cow_head (headroom : nat) (skb : sk_buff) : M (F:=F) (bool * sk_buff) :=
  let delta := (headroom - skb_headroom skb)%nat in
  if negb (delta =? 0)%nat || cloned skb then
    let* ok := alloc in
    if ok then ret (true, expand_head (ALIGN delta NET_SKB_PAD) skb)
    else ret (false, skb)
  else ret (true, skb).

(** [pskb_may_pull(skb, len)]: on success [len] octets are linear. *)
Definition pskb_may_pull (len : nat) (skb : sk_buff) : M (F:=F) (bool * sk_buff) :=
  if decide (len ≤ skb_headlen skb)%nat then ret (true, skb)
  else if decide (skb_len skb < len)%nat then ret (false, skb)
  else
    let delta := (len - skb_headlen skb)%nat in
    let* ok := alloc in
    if ok then
      ret (true, set_cloned false
                   (set_frags (drop delta (skb_frags skb))
                      (set_buf (skb_buf skb ++ take delta (skb_frags skb)) skb)))
    else ret (false, skb).

(** [skb_clone(skb, GFP_ATOMIC)]: the original and the clone, both marked
    as sharing their data, or [None] for NULL. *)
Definition skb_clone (skb : sk_buff) : M (F:=F) (option (sk_buff * sk_buff)) :=
  let* ok := alloc in
  if ok then ret (Some (set_cloned true skb, set_cloned true skb)) else ret None.

(** [skb_copy(skb, GFP_ATOMIC)]: a private, linear copy, or [None]. *)
Definition skb_copy (skb : sk_buff) : M (F:=F) (option sk_buff) :=
  let* ok := alloc in
  if ok then
    ret (Some (set_cloned false
                 (set_frags [] (set_buf (skb_buf skb ++ skb_frags skb) skb))))
  else ret None.

(** [vlan_insert_tag(skb, vlan_proto, vlan_tci)]: on failure the buffer is
    freed and NULL returned, here [(false, the buffer freed)]. *)
Definition vlan_insert_tag (skb : sk_buff) (proto tci : Z) : M (F:=F) (bool * sk_buff) :=
  let* '(ok, skb) := skb_cow_head VLAN_HLEN skb in
  if negb ok then kfree_skb skb >> ret (false, skb)
  else
    let* skb := lift (skb_push VLAN_HLEN skb) in
    ret (true, vlan_tag_write proto tci skb).

End Helpers.

(** ** rbr.c *)

Section RBridge.
Context {F : Type} `{!BridgeFdb F}.

(** Modelled from the spec: "initial hop count on encapsulation is a
    configured default". *)
Variable TRILL_DEFAULT_HOPS : Z.

Local Abbreviation M := (M (F:=F)).

Definition add_rbr : M (option rbr) :=
  let* br := get_br in
  match br_rbr br with
  | None =>
      let* ok := alloc in
      if negb ok then ret None
      else ret (Some (mk_rbr RBRIDGE_NICKNAME_NONE RBRIDGE_NICKNAME_NONE ∅))
  | Some r => ret (Some r)
  end.

Definition rbr_del_node (r : rbr) (nickname : Z) : rbr :=
  if VALID_NICK nickname then
    match rbr_nodes r !! nickname with
    | Some _ => mk_rbr (nick r) (treeroot r) (delete nickname (rbr_nodes r))
    | None => r
    end
  else r.

Definition rbr_del_all (r : rbr) : rbr :=
  foldl (λ r i, match rbr_nodes r !! i with
                | Some _ => rbr_del_node r i
                | None => r
                end)
        r (seqZ RBRIDGE_NICKNAME_MIN (RBRIDGE_NICKNAME_MAX - RBRIDGE_NICKNAME_MIN)).

(** [br_stp_stop(br)], a collaborator.
    Modelled from the spec: "if STP is running, stop it". *)
Definition br_stp_stop : M unit :=
  emit Ev_br_stp_stop >> upd_br (set_stp_enabled BR_NO_STP).

Definition br_trill_start : M unit :=
  let* br := get_br in
  (if decide (stp_enabled br ≠ BR_NO_STP) then br_stp_stop else ret tt) >>
  let* r := add_rbr in
  upd_br (set_br_rbr r) >>
  match r with
  | Some _ => upd_br (set_trill_enabled BR_TRILL)
  | None => printk "RBridge allocation for bridge failed"
  end.

Definition br_trill_stop : M unit :=
  upd_br (set_trill_enabled BR_NO_TRILL) >>
  let* br := get_br in
  let old := br_rbr br in
  upd_br (set_br_rbr None) >>
  match old with
  | Some old => emit (Ev_kfree_rbr (rbr_del_all old))
  | None => ret tt
  end.

Definition ENOENT : Z := 2.

Definition set_treeroot (treeroot' : Z) : M Z :=
  if negb (VALID_NICK treeroot') then
    printk "rbr_set_treeroot: given tree root not valid" >> ret ENOENT
  else
    let* br := get_br in
    let* r := lift (br_rbr br) in
    (if decide (treeroot r ≠ treeroot')
     then upd_br (set_br_rbr (Some (mk_rbr (nick r) treeroot' (rbr_nodes r))))
     else ret tt) >>
    ret 0.

(** [rbr] is the pointer handed in; it is only followed for a valid
    nickname. *)
Definition rbr_find_node (r : option rbr) (nickname : Z) : M (option rbr_node) :=
  if negb (VALID_NICK nickname) then ret None
  else
    let* r := lift r in
    ret (rbr_nodes r !! nickname).

Definition br_trill_set_enabled (val : Z) : M unit :=
  let* br := get_br in
  if negb (val =? 0) then
    if decide (trill_enabled br = BR_NO_TRILL) then br_trill_start else ret tt
  else
    if decide (trill_enabled br ≠ BR_NO_TRILL) then br_trill_stop else ret tt.

Definition rbr_fwd_finish (skb : sk_buff) (vid : Z) : M unit :=
  let dest := h_dest (eth_hdr skb) in
  let* br := get_br in
  match br_fdb_get (br_fdb br) dest vid with
  | Some dst =>
      let skb := set_h_source (port_dev_addr dst) skb in
      emit (Ev_br_forward dst skb)
  | None => emit (Ev_br_trill_flood_forward skb)
  end.

Definition rbr_fwd (p : net_bridge_port) (skb : sk_buff) (adj_nick : Z) (vid : Z) : M unit :=
  let* br := get_br in
  let* adj := rbr_find_node (br_rbr br) adj_nick in
  match adj with
  | None =>
      printk "rbr_fwd: unable to find adjacent RBridge" >>
      (* dest_fwd_fail *)
      upd_br (λ b, set_tx_dropped (incr (tx_dropped b)) b) >>
      kfree_skb skb
  | Some adj =>
      let skb := trillhdr_dec_hopcount skb in
      let skb := set_h_source (br_dev_addr br) skb in
      let skb := set_h_dest (adjsnpa (rbr_ni adj)) skb in
      let skb := set_dev (br_dev br) skb in
      rbr_fwd_finish skb vid
  end.

(** The label [multidest_fwd_fail]. *)
Definition multidest_fwd_fail (p : option net_bridge_port) (skb : sk_buff) : M Z :=
  (match p with
   | Some _ => upd_br (λ b, set_tx_dropped (incr (tx_dropped b)) b)
   | None => ret tt
   end) >>
  kfree_skb skb >> ret (-1).

(** The adjacency loop of rbr_multidest_fwd over the adjacencies still to
    visit; [None] is the jump to [multidest_fwd_fail], otherwise the final
    [(adjnicksaved, nicksaved)]. *)
Fixpoint multidest_loop (p : net_bridge_port) (r : option rbr) (skb : sk_buff)
    (ingressnick : Z) (saddr : option mac) (vid : Z) (free : bool)
    (adjs : list Z) (adjnicksaved : Z) (nicksaved : bool) : M (option (Z * bool)) :=
  match adjs with
  | [] => ret (Some (adjnicksaved, nicksaved))
  | adjnick :: rest =>
      let continue := multidest_loop p r skb ingressnick saddr vid free rest in
      if negb (VALID_NICK adjnick) || (ingressnick =? adjnick) then
        continue adjnicksaved nicksaved
      else
        let* adj := rbr_find_node r adjnick in
        match adj with
        | None => continue adjnicksaved nicksaved
        | Some adj =>
            if match saddr with
               | Some sa => mac_equal (adjsnpa (rbr_ni adj)) sa
               | None => false
               end
            then continue adjnicksaved nicksaved
            else if negb nicksaved && free then continue adjnick true
            else
              let* skb2 := skb_copy skb in
              match skb2 with
              | None =>
                  upd_br (λ b, set_tx_dropped (incr (tx_dropped b)) b) >>
                  printk "rbr_multidest_fwd:skb_copy failed" >>
                  ret None
              | Some skb2 =>
                  rbr_fwd p skb2 adjnick vid >>
                  continue adjnicksaved nicksaved
              end
        end
  end.

Definition rbr_multidest_fwd (p : option net_bridge_port) (skb : sk_buff)
    (egressnick ingressnick : Z) (saddr : option mac) (vid : Z) (free : bool) : M Z :=
  match p with
  | None => printk "rbr_multidest_fwd:port error" >> multidest_fwd_fail p skb
  | Some port =>
      let* br := get_br in
      let r := br_rbr br in
      match r with
      | None => multidest_fwd_fail p skb
      | Some _ =>
          let* dest := rbr_find_node r egressnick in
          match dest with
          | None =>
              printk "rbr_multidest_fwd: unable to find egress" >>
              multidest_fwd_fail p skb
          | Some dest =>
              let* saved := multidest_loop port r skb ingressnick saddr vid free
                              (adjnicks (rbr_ni dest)) 0 false in
              match saved with
              | None => multidest_fwd_fail p skb
              | Some (adjnicksaved, nicksaved) =>
                  (if nicksaved then rbr_fwd port skb adjnicksaved vid
                   else kfree_skb skb) >>
                  ret 0
              end
          end
      end
  end.

(** Returns [(failed, skb)]: [true] is the C return value 1, and the buffer
    is given back as the callee left it, since the caller frees it. *)
Definition rbr_encaps (skb : sk_buff) (ingressnick egressnick : Z) (multidest : bool)
    : M (bool * sk_buff) :=
  let trhsize := sizeof_trill_hdr in
  let* skb := lift (skb_push ETH_HLEN skb) in
  let skb := if negb (encapsulation skb)
             then set_encapsulation true (skb_reset_inner_headers skb)
             else skb in
  let after_vlan (skb : sk_buff) : M (bool * sk_buff) :=
    let* '(ok, skb) := skb_cow_head (trhsize + ETH_HLEN) skb in
    if negb ok then printk "rbr_encaps: cow_head failed" >> ret (true, skb)
    else
      let* skb := lift (skb_push sizeof_trill_hdr skb) in
      let trill_flags :=
        Z.lor (Z.lor (Z.lor 0 (trill_set_version TRILL_PROTOCOL_VERS))
                     (trill_set_hopcount TRILL_DEFAULT_HOPS))
              (trill_set_multidest (if multidest then 1 else 0)) in
      let skb := set_th_flags trill_flags skb in
      let skb := set_th_egressnick egressnick skb in
      let skb := set_th_ingressnick ingressnick skb in
      let* skb := lift (skb_push ETH_HLEN skb) in
      let skb := skb_reset_mac_header skb in
      let skb := set_h_proto ETH_P_TRILL skb in
      let* skb := lift (skb_pull ETH_HLEN skb) in
      let skb := skb_reset_mac_len skb in
      ret (false, skb) in
  match br_vlan_get_tag skb with
  | Some vlan_tci =>
      let* '(ok, skb) := vlan_insert_tag skb (vlan_proto skb) vlan_tci in
      if negb ok then printk "rbr_encaps: vlan_put_tag failed" >> ret (true, skb)
      else after_vlan (set_vlan 0 0 skb)
  | None => after_vlan skb
  end.

(** The label [encaps_drop]. *)
Definition encaps_drop (p : option net_bridge_port) (skb : sk_buff) : M unit :=
  (match p with
   | Some _ => upd_br (λ b, set_tx_dropped (incr (tx_dropped b)) b)
   | None => ret tt
   end) >>
  kfree_skb skb.

Definition rbr_encaps_prepare (skb : sk_buff) (egressnick : Z) (vid : Z) : M unit :=
  let* br := get_br in
  match br_port_get_rcu br (skb_dev skb) with
  | None => printk "rbr_encaps_prepare: port error" >> encaps_drop None skb
  | Some p =>
      let rbrp := br_rbr br in
      if negb (egressnick =? RBRIDGE_NICKNAME_NONE) && negb (VALID_NICK egressnick) then
        printk "rbr_encaps_prepare: invalid destinaton nickname" >>
        encaps_drop (Some p) skb
      else
        let* r := lift rbrp in
        let local_nick := nick r in
        if negb (VALID_NICK local_nick) then
          printk "rbr_encaps_prepare: invalid local nickname" >>
          encaps_drop (Some p) skb
        else if egressnick =? RBRIDGE_NICKNAME_NONE then
          let* self := rbr_find_node rbrp local_nick in
          match self with
          | None =>
              printk "rbr_encaps_prepare: waiting for nickname" >>
              encaps_drop (Some p) skb
          | Some self =>
              let dtrNick :=
                if decide (0 < dtrootcount (rbr_ni self))%nat
                then RBR_NI_DTROOTNICK (rbr_ni self) 0
                else treeroot r in
              if negb (VALID_NICK dtrNick) then
                printk "rbr_encaps_prepare: dtrNick is unvalid" >>
                encaps_drop (Some p) skb
              else
                let* c := skb_clone skb in
                match c with
                | None =>
                    upd_br (λ b, set_tx_dropped (incr (tx_dropped b)) b) >>
                    printk "rbr_encaps_prepare: skb_clone failed" >>
                    encaps_drop (Some p) skb
                | Some (skb, skb2) =>
                    emit (Ev_br_endstation_deliver skb2) >>
                    let* '(failed, skb) := rbr_encaps skb local_nick dtrNick true in
                    if failed then encaps_drop (Some p) skb
                    else
                      rbr_multidest_fwd (Some p) skb dtrNick local_nick None vid true >>
                      ret tt
                end
          end
        else
          let* '(failed, skb) := rbr_encaps skb local_nick egressnick false in
          if failed then encaps_drop (Some p) skb
          else rbr_fwd p skb egressnick vid
  end.

Definition rbr_decap_finish (skb : sk_buff) (vid : Z) : M unit :=
  let dest := h_dest (eth_hdr skb) in
  let* br := get_br in
  match br_fdb_get (br_fdb br) dest vid with
  | Some dst => emit (Ev_br_deliver dst skb)
  | None => emit (Ev_br_endstation_deliver skb)
  end.

(** The label [rbr_decaps_drop]. *)
Definition rbr_decaps_drop (p : option net_bridge_port) (skb : sk_buff) : M unit :=
  (match p with
   | Some _ => upd_br (λ b, set_rx_dropped (incr (rx_dropped b)) b)
   | None => ret tt
   end) >>
  kfree_skb skb.

Definition rbr_decaps (p : option net_bridge_port) (skb : sk_buff) (trhsize : nat)
    (vid : Z) : M unit :=
  match p with
  | None => rbr_decaps_drop p skb
  | Some port =>
      let trh := skb_linear skb in
      if decide (sizeof_trill_hdr ≤ trhsize)%nat then
        let* skb := lift (skb_pull sizeof_trill_hdr skb) in
        let skb := skb_reset_mac_header skb in
        let skb := set_protocol (h_proto (eth_hdr skb)) skb in
        let hdr := skb_linear skb in
        let* skb := lift (skb_pull ETH_HLEN skb) in
        let skb := skb_reset_network_header skb in
        let skb := if encapsulation skb then set_encapsulation false skb else skb in
        let* br := get_br in
        let skb := set_dev (br_dev br) skb in
        upd_br (λ b, set_br_fdb
                       (br_fdb_update_nick (br_fdb b) port (h_source hdr) vid
                          (th_ingressnick trh)) b) >>
        rbr_decap_finish skb vid
      else rbr_decaps_drop p skb
  end.

(** The label [recv_drop]. *)
Definition recv_drop (p : option net_bridge_port) (skb : sk_buff) : M unit :=
  (match p with
   | Some _ => upd_br (λ b, set_rx_dropped (incr (rx_dropped b)) b)
   | None => ret tt
   end) >>
  kfree_skb skb.

(** The first loop of the multi-destination branch of rbr_recv: the index
    at which it stops. *)
Fixpoint recv_adj_loop (r : option rbr) (srcaddr : mac) (adjs : list Z) (idx : nat)
    : M nat :=
  match adjs with
  | [] => ret idx
  | adjnick :: rest =>
      let* adj := rbr_find_node r adjnick in
      match adj with
      | None => recv_adj_loop r srcaddr rest (S idx)
      | Some adj =>
          if mac_equal (adjsnpa (rbr_ni adj)) srcaddr then ret idx
          else recv_adj_loop r srcaddr rest (S idx)
      end
  end.

(** The second loop: the index of the first advertised root equal to the
    egress nickname, or the number of roots. *)
Fixpoint recv_dtroot_loop (egressnick : Z) (roots : list Z) (idx : nat) : nat :=
  match roots with
  | [] => idx
  | root :: rest =>
      if root =? egressnick then idx
      else recv_dtroot_loop egressnick rest (S idx)
  end.

Definition rbr_recv (skb : sk_buff) (vid : Z) : M unit :=
  let* br := get_br in
  match br_port_get_rcu br (skb_dev skb) with
  | None => printk "rbr_recv: port error" >> recv_drop None skb
  | Some port =>
  let p := Some port in
  let rbrp := br_rbr br in
  if negb (mac_equal (port_dev_addr port) (h_dest (eth_hdr skb))) then recv_drop p skb
  else
  let srcaddr := h_source (eth_hdr skb) in
  let trill_flags := th_flags (skb_linear skb) in
  let trhsize := (sizeof_trill_hdr + Z.to_nat (trill_get_optslen trill_flags))%nat in
  if decide (skb_len skb < trhsize + ETH_HLEN)%nat then
    printk "rbr_recv:sk_buff len is less then minimal len" >> recv_drop p skb
  else
  let* '(pulled, skb) := pskb_may_pull (trhsize + ETH_HLEN) skb in
  if negb pulled then recv_drop p skb
  else
  let trh := skb_linear skb in
  let* skb :=
    if negb (encapsulation skb) then
      let* skb := lift (skb_pull (trhsize + ETH_HLEN) skb) in
      let skb := set_encapsulation true (skb_reset_inner_headers skb) in
      lift (skb_push (trhsize + ETH_HLEN) skb)
    else ret skb in
  if negb (VALID_NICK (th_ingressnick trh)) || negb (VALID_NICK (th_egressnick trh)) then
    printk "rbr_recv: invalid nickname" >> recv_drop p skb
  else if negb (trill_get_version trill_flags =? TRILL_PROTOCOL_VERS) then
    printk "rbr_recv: not the same trill version" >> recv_drop p skb
  else
  let* r := lift rbrp in
  let local_nick := nick r in
  let dtrNick := treeroot r in
  if th_ingressnick trh =? local_nick then
    printk "rbr_recv:looping back frame check your config" >> recv_drop p skb
  else if negb (trill_get_optslen trill_flags =? 0) then
    printk "Found unknown TRILL header extension" >> recv_drop p skb
  else if trill_get_multidest trill_flags =? 0 then
    if th_egressnick trh =? th_ingressnick trh then
      printk "rbr_recv: egressnick == ingressnick" >> recv_drop p skb
    else if th_egressnick trh =? local_nick then rbr_decaps p skb trhsize vid
    else if negb (trill_get_hopcount trill_flags =? 0) then
      upd_br (λ b, set_br_fdb (br_fdb_update (br_fdb b) port srcaddr vid) b) >>
      rbr_fwd port skb (th_egressnick trh) vid
    else
      printk "rbr_recv: hop count limit reached" >> recv_drop p skb
  else
  let* dest := rbr_find_node rbrp (th_egressnick trh) in
  match dest with
  | None => printk "rbr_recv: mulicast  with unknown destination" >> recv_drop p skb
  | Some dest =>
  let* idx := recv_adj_loop rbrp srcaddr (adjnicks (rbr_ni dest)) 0 in
  if decide (adjcount (rbr_ni dest) ≤ idx)%nat then
    printk "rbr_recv: multicast unknow mac source" >> recv_drop p skb
  else
  let* source_node := rbr_find_node rbrp (th_ingressnick trh) in
  match source_node with
  | None => printk "rbr_recv: reverse path forwarding check failed" >> recv_drop p skb
  | Some source_node =>
  let idx := recv_dtroot_loop (th_egressnick trh) (dtrootnicks (rbr_ni source_node)) 0 in
  if bool_decide (dtrootcount (rbr_ni source_node) ≤ idx)%nat
     && (negb (dtrootcount (rbr_ni source_node) =? 0)%nat
         || negb (th_egressnick trh =? dtrNick))
  then recv_drop p skb
  else if trill_get_hopcount trill_flags =? 0 then
    printk "rbr_recv: multicast hop count limit reached" >> recv_drop p skb
  else
  let* c := skb_clone skb in
  match c with
  | None =>
      upd_br (λ b, set_tx_dropped (incr (tx_dropped b)) b) >>
      printk "rbr_recv: multicast skb_clone failed" >>
      recv_drop p skb
  | Some (skb, skb2) =>
      let* rc := rbr_multidest_fwd p skb2 (th_egressnick trh) (th_ingressnick trh)
                   (Some srcaddr) vid false in
      if negb (rc =? 0) then recv_drop p skb
      else rbr_decaps p skb trhsize vid
  end
  end
  end
  end.

End RBridge.

(** ** A concrete fdb and a small campus for the worked examples *)

Record fdb_entry := {
  fe_mac : mac;
  fe_vid : Z;
  fe_port : net_bridge_port;
  fe_nick : Z
}.

(** The newest entry for a (MAC, VLAN) pair wins. *)
Definition list_fdb_get (f : list fdb_entry) (m : mac) (vid : Z) : option net_bridge_port :=
  fe_port <$> list_find (λ e, fe_mac e = m ∧ fe_vid e = vid) f ≫= (λ x, Some x.2).

#[global] Instance list_fdb : BridgeFdb (list fdb_entry) := {
  br_fdb_get := list_fdb_get;
  br_fdb_update f p m vid := Build_fdb_entry m vid p RBRIDGE_NICKNAME_NONE :: f;
  br_fdb_update_nick f p m vid n := Build_fdb_entry m vid p n :: f
}.

(** ** Vocabulary of the properties *)

Definition is_printk (e : event) : Prop :=
  match e with Ev_printk _ => True | _ => False end.

(** A frame handed to the fabric. *)
Definition tx_frame (e : event) : option sk_buff :=
  match e with
  | Ev_br_forward _ skb | Ev_br_trill_flood_forward skb => Some skb
  | _ => None
  end.

(** A frame handed to local end stations. *)
Definition delivered_frame (e : event) : option sk_buff :=
  match e with
  | Ev_br_deliver _ skb | Ev_br_endstation_deliver skb => Some skb
  | _ => None
  end.

(** The flags word and the nicknames of a received frame, as rbr_recv reads
    them: the flags from the linear data on entry, the nicknames once the
    header has been made linear. *)
Definition frame_flags (skb : sk_buff) : Z := th_flags (skb_linear skb).
Definition frame_egress (skb : sk_buff) : Z := th_egressnick (skb_payload skb).
Definition frame_ingress (skb : sk_buff) : Z := th_ingressnick (skb_payload skb).

Section Outcomes.
Context {F : Type}.

(** The receive path dropped the frame: the bridge differs by one more
    rx_dropped only (nothing was learnt), and all that left the RBridge are
    log lines and the release of one buffer carrying the packet. *)
Definition recv_dropped (skb : sk_buff) (w w' : world F) : Prop :=
  w_br w' = set_rx_dropped (incr (rx_dropped (w_br w))) (w_br w) ∧
  ∃ logs skb',
    w_out w' = w_out w ++ logs ++ [Ev_kfree_skb skb'] ∧
    Forall is_printk logs ∧
    skb_payload skb' = skb_payload skb.

(** Between [w] and [w'] only log lines were written. *)
Definition only_logged (w w' : world F) : Prop :=
  w_br w' = w_br w ∧ ∃ logs, w_out w' = w_out w ++ logs ∧ Forall is_printk logs.

(** [data] lies within the linear area. *)
Definition skb_wf (skb : sk_buff) : Prop :=
  (skb_data skb ≤ length (skb_buf skb))%nat.

(** The outer Ethernet header lies in front of [data], the TRILL header
    behind it, all within the linear area. *)
Definition tx_wf (skb : sk_buff) : Prop :=
  (mac_header skb + ETH_HLEN ≤ skb_data skb)%nat ∧
  (skb_data skb + sizeof_trill_hdr ≤ length (skb_buf skb))%nat.

(** The size of the TRILL header as rbr_recv computes it. *)
Definition frame_trhsize (skb : sk_buff) : nat :=
  (sizeof_trill_hdr + Z.to_nat (trill_get_optslen (frame_flags skb)))%nat.

(** What the block guarded by [!skb->encapsulation] leaves behind. *)
Definition mark_encapsulated (skb : sk_buff) : sk_buff :=
  if encapsulation skb then skb
  else set_encapsulation true (skb_reset_inner_headers skb).

(** [rbr_find_node] through a pointer that is not NULL. *)
Definition find_node (r : rbr) (n : Z) : option rbr_node :=
  if VALID_NICK n then rbr_nodes r !! n else None.

(** The header checks of rbr_recv pass, on a header that is linear. *)
Definition recv_header_ok (r : rbr) (port : net_bridge_port) (skb : sk_buff) : Prop :=
  h_dest (eth_hdr skb) = port_dev_addr port ∧
  (sizeof_trill_hdr + ETH_HLEN ≤ skb_headlen skb)%nat ∧
  VALID_NICK (frame_ingress skb) = true ∧
  VALID_NICK (frame_egress skb) = true ∧
  trill_get_version (frame_flags skb) = TRILL_PROTOCOL_VERS ∧
  trill_get_optslen (frame_flags skb) = 0 ∧
  frame_ingress skb ≠ nick r.

(** ** The Encapsulator's output, octet by octet *)

(** The end-station frame a buffer carries on the receive path: its
    Ethernet header ends at [data]. *)
Definition inner_linear (skb : sk_buff) : list Z :=
  drop (skb_data skb - ETH_HLEN) (skb_buf skb).
Definition inner_frame (skb : sk_buff) : list Z :=
  inner_linear skb ++ skb_frags skb.

(** A frame with a VLAN tag inserted behind its two MAC addresses. *)
Definition vlan_tagged (proto tci : Z) (frame : list Z) : list Z :=
  take (2 * ETH_ALEN) frame ++ be16_bytes proto ++ be16_bytes tci
    ++ drop (2 * ETH_ALEN) frame.

(** The inner frame as rbr_encaps leaves it. *)
Definition encaps_inner (skb : sk_buff) : list Z :=
  match br_vlan_get_tag skb with
  | Some tci => vlan_tagged (vlan_proto skb) tci (inner_frame skb)
  | None => inner_frame skb
  end.

(** The flags word rbr_encaps writes. *)
Definition encaps_flags (hops : Z) (multidest : bool) : Z :=
  Z.lor (Z.lor (Z.lor 0 (trill_set_version TRILL_PROTOCOL_VERS))
               (trill_set_hopcount hops))
        (trill_set_multidest (if multidest then 1 else 0)).

(** The six octets of a TRILL header. *)
Definition trill_hdr_bytes (flags egressnick ingressnick : Z) : list Z :=
  be16_bytes flags ++ be16_bytes egressnick ++ be16_bytes ingressnick.

(** The distribution-tree root for a flooded frame, as the specification
    words it: "if it advertises any dt_roots, use dt_roots[0]; otherwise use
    state.tree_root". *)
Definition flood_root (r : rbr) (self : rbr_node) : Z :=
  match dtrootnicks (rbr_ni self) with
  | root :: _ => root
  | [] => treeroot r
  end.

(** A value of type uint16_t. *)
Definition is_u16 (x : Z) : Prop := 0 ≤ x < 65536.

(** A frame handed to the fabric carries the given nicknames. *)
Definition tx_nicks (egressnick ingressnick : Z) (e : event) : Prop :=
  ∀ skb', tx_frame e = Some skb' →
    th_egressnick (skb_linear skb') = egressnick ∧
    th_ingressnick (skb_linear skb') = ingressnick.

(** An event that neither forwards nor delivers a frame. *)
Definition silent (e : event) : Prop :=
  tx_frame e = None ∧ delivered_frame e = None.

(** ** Control plane and data plane

    The fields of the bridge that enabling and disabling TRILL leave alone,
    and the ones the data path leaves alone. *)
Definition same_plane (b b' : net_bridge F) : Prop :=
  br_dev b' = br_dev b ∧ br_dev_addr b' = br_dev_addr b ∧
  tx_dropped b' = tx_dropped b ∧ rx_dropped b' = rx_dropped b ∧
  br_ports b' = br_ports b ∧ br_fdb b' = br_fdb b.

Definition same_control (b b' : net_bridge F) : Prop :=
  br_dev b' = br_dev b ∧ br_dev_addr b' = br_dev_addr b ∧
  stp_enabled b' = stp_enabled b ∧ trill_enabled b' = trill_enabled b ∧
  br_rbr b' = br_rbr b ∧ br_ports b' = br_ports b.

(** What br_trill_start tells the spanning tree. *)
Definition stp_stop_events (b : net_bridge F) : list event :=
  if decide (stp_enabled b ≠ BR_NO_STP) then [Ev_br_stp_stop] else [].

(** A bridge on which TRILL is enabled has its RBridge state. *)
Definition trill_consistent (b : net_bridge F) : Prop :=
  trill_enabled b ≠ BR_NO_TRILL → br_rbr b ≠ None.

(** The outcome of a drop on the transmit side: one more tx_dropped, a log
    line, the buffer freed. *)
Definition tx_refused (msg : string) (skb : sk_buff) (w : world F)
    : option (unit * world F) :=
  Some (tt, mk_world (set_tx_dropped (incr (tx_dropped (w_br w))) (w_br w))
              (w_out w ++ [Ev_printk msg; Ev_kfree_skb skb]) (w_alloc w)).

(** The state add_rbr allocates. *)
Definition fresh_rbr : rbr := mk_rbr RBRIDGE_NICKNAME_NONE RBRIDGE_NICKNAME_NONE ∅.

End Outcomes.

Section Phases.
Context {F : Type} `{!BridgeFdb F}.

(** rbr_recv from the nickname checks on, for a header already linear; the
    text is that of rbr_recv, and [rbr_recv_front] below proves the two
    equal. *)
Definition recv_checked (port : net_bridge_port) (rbrp : option rbr) (skb : sk_buff)
    (trill_flags : Z) (trhsize : nat) (srcaddr : mac) (trh : list Z) (vid : Z)
    : M (F:=F) unit :=
  let p := Some port in
  if negb (VALID_NICK (th_ingressnick trh)) || negb (VALID_NICK (th_egressnick trh)) then
    printk "rbr_recv: invalid nickname" >> recv_drop p skb
  else if negb (trill_get_version trill_flags =? TRILL_PROTOCOL_VERS) then
    printk "rbr_recv: not the same trill version" >> recv_drop p skb
  else
  let* r := lift rbrp in
  let local_nick := nick r in
  let dtrNick := treeroot r in
  if th_ingressnick trh =? local_nick then
    printk "rbr_recv:looping back frame check your config" >> recv_drop p skb
  else if negb (trill_get_optslen trill_flags =? 0) then
    printk "Found unknown TRILL header extension" >> recv_drop p skb
  else if trill_get_multidest trill_flags =? 0 then
    if th_egressnick trh =? th_ingressnick trh then
      printk "rbr_recv: egressnick == ingressnick" >> recv_drop p skb
    else if th_egressnick trh =? local_nick then rbr_decaps p skb trhsize vid
    else if negb (trill_get_hopcount trill_flags =? 0) then
      upd_br (λ b, set_br_fdb (br_fdb_update (br_fdb b) port srcaddr vid) b) >>
      rbr_fwd port skb (th_egressnick trh) vid
    else
      printk "rbr_recv: hop count limit reached" >> recv_drop p skb
  else
  let* dest := rbr_find_node rbrp (th_egressnick trh) in
  match dest with
  | None => printk "rbr_recv: mulicast  with unknown destination" >> recv_drop p skb
  | Some dest =>
  let* idx := recv_adj_loop rbrp srcaddr (adjnicks (rbr_ni dest)) 0 in
  if decide (adjcount (rbr_ni dest) ≤ idx)%nat then
    printk "rbr_recv: multicast unknow mac source" >> recv_drop p skb
  else
  let* source_node := rbr_find_node rbrp (th_ingressnick trh) in
  match source_node with
  | None => printk "rbr_recv: reverse path forwarding check failed" >> recv_drop p skb
  | Some source_node =>
  let idx := recv_dtroot_loop (th_egressnick trh) (dtrootnicks (rbr_ni source_node)) 0 in
  if bool_decide (dtrootcount (rbr_ni source_node) ≤ idx)%nat
     && (negb (dtrootcount (rbr_ni source_node) =? 0)%nat
         || negb (th_egressnick trh =? dtrNick))
  then recv_drop p skb
  else if trill_get_hopcount trill_flags =? 0 then
    printk "rbr_recv: multicast hop count limit reached" >> recv_drop p skb
  else
  let* c := skb_clone skb in
  match c with
  | None =>
      upd_br (λ b, set_tx_dropped (incr (tx_dropped b)) b) >>
      printk "rbr_recv: multicast skb_clone failed" >>
      recv_drop p skb
  | Some (skb, skb2) =>
      let* rc := rbr_multidest_fwd p skb2 (th_egressnick trh) (th_ingressnick trh)
                   (Some srcaddr) vid false in
      if negb (rc =? 0) then recv_drop p skb
      else rbr_decaps p skb trhsize vid
  end
  end
  end.


(** rbr_encaps from [skb_cow_head] on; the text is that of rbr_encaps, and
    [rbr_encaps_unfold] below proves that rbr_encaps runs it. *)
Definition encaps_after_vlan (hops : Z) (ingressnick egressnick : Z) (multidest : bool)
    (skb : sk_buff) : M (F:=F) (bool * sk_buff) :=
  let* '(ok, skb) := skb_cow_head (sizeof_trill_hdr + ETH_HLEN) skb in
  if negb ok then printk "rbr_encaps: cow_head failed" >> ret (true, skb)
  else
    let* skb := lift (skb_push sizeof_trill_hdr skb) in
    let trill_flags :=
      Z.lor (Z.lor (Z.lor 0 (trill_set_version TRILL_PROTOCOL_VERS))
                   (trill_set_hopcount hops))
            (trill_set_multidest (if multidest then 1 else 0)) in
    let skb := set_th_flags trill_flags skb in
    let skb := set_th_egressnick egressnick skb in
    let skb := set_th_ingressnick ingressnick skb in
    let* skb := lift (skb_push ETH_HLEN skb) in
    let skb := skb_reset_mac_header skb in
    let skb := set_h_proto ETH_P_TRILL skb in
    let* skb := lift (skb_pull ETH_HLEN skb) in
    let skb := skb_reset_mac_len skb in
    ret (false, skb).

(** The buffer as rbr_fwd hands it to rbr_fwd_finish. *)
Definition fwd_rewrite (b : net_bridge F) (adj : rbr_node) (skb : sk_buff) : sk_buff :=
  set_dev (br_dev b)
    (set_h_dest (adjsnpa (rbr_ni adj))
       (set_h_source (br_dev_addr b) (trillhdr_dec_hopcount skb))).

(** The hand-off of rbr_fwd_finish. *)
Definition fwd_finish_event (b : net_bridge F) (skb : sk_buff) (vid : Z) : event :=
  match br_fdb_get (br_fdb b) (h_dest (eth_hdr skb)) vid with
  | Some dst => Ev_br_forward dst (set_h_source (port_dev_addr dst) skb)
  | None => Ev_br_trill_flood_forward skb
  end.

(** The buffer as rbr_decaps hands it to rbr_decap_finish. *)
Definition decap_rewrite (dev : Z) (skb : sk_buff) : sk_buff :=
  let skb := skb_reset_mac_header (set_data (skb_data skb + sizeof_trill_hdr)%nat skb) in
  let skb := set_protocol (h_proto (eth_hdr skb)) skb in
  let skb := skb_reset_network_header (set_data (skb_data skb + ETH_HLEN)%nat skb) in
  let skb := if encapsulation skb then set_encapsulation false skb else skb in
  set_dev dev skb.

(** The hand-off of rbr_decap_finish. *)
Definition decap_finish_event (b : net_bridge F) (skb : sk_buff) (vid : Z) : event :=
  match br_fdb_get (br_fdb b) (h_dest (eth_hdr skb)) vid with
  | Some dst => Ev_br_deliver dst skb
  | None => Ev_br_endstation_deliver skb
  end.

(** What rbr_decaps tells the fdb. *)
Definition decap_learn (b : net_bridge F) (port : net_bridge_port) (skb : sk_buff)
    (vid : Z) : net_bridge F :=
  set_br_fdb
    (br_fdb_update_nick (br_fdb b) port
       (h_source (drop sizeof_trill_hdr (skb_linear skb))) vid
       (th_ingressnick (skb_linear skb))) b.

(** The frame was decapsulated: the fdb learnt the inner source under the
    ingress nickname, and the inner frame, and nothing else, was handed to
    local delivery. *)
Definition recv_decapsulated (port : net_bridge_port) (skb : sk_buff) (vid : Z)
    (w w' : world F) : Prop :=
  w_br w' = set_br_fdb
              (br_fdb_update_nick (br_fdb (w_br w)) port
                 (h_source (drop sizeof_trill_hdr (skb_payload skb))) vid
                 (frame_ingress skb)) (w_br w) ∧
  ∃ e skb',
    w_out w' = w_out w ++ [e] ∧
    delivered_frame e = Some skb' ∧
    skb_frame skb' = drop sizeof_trill_hdr (skb_payload skb) ∧
    encapsulation skb' = false.

(** ** The Replicator, phase by phase

    The adjacencies that survive the skips of the loop, the copies
    forwarded to them, the adjacency saved for the original buffer.  The
    argument [free] decides whether the first survivor is saved. *)
Definition survives (r : rbr) (ingressnick : Z) (saddr : option mac) (a : Z) : bool :=
  VALID_NICK a && negb (a =? ingressnick) &&
  match rbr_nodes r !! a with
  | None => false
  | Some adj =>
      match saddr with
      | Some sa => negb (mac_equal (adjsnpa (rbr_ni adj)) sa)
      | None => true
      end
  end.

Definition survivors (r : rbr) (ingressnick : Z) (saddr : option mac) (adjs : list Z)
    : list Z :=
  List.filter (survives r ingressnick saddr) adjs.

(** "clone the buffer and Forward the clone; if cloning fails, drop and bump
    tx-dropped": [false] reports a failed copy. *)
Fixpoint forward_copies (p : net_bridge_port) (skb : sk_buff) (vid : Z)
    (targets : list Z) : M (F:=F) bool :=
  match targets with
  | [] => ret true
  | a :: rest =>
      let* c := skb_copy skb in
      match c with
      | None =>
          upd_br (λ b, set_tx_dropped (incr (tx_dropped b)) b) >>
          printk "rbr_multidest_fwd:skb_copy failed" >>
          ret false
      | Some skb2 => rbr_fwd p skb2 a vid >> forward_copies p skb vid rest
      end
  end.

(** The adjacencies that get a copy, and the one that gets the original, for
    either value of [free_on_exhaustion]. *)
Definition copy_targets (free : bool) (s : list Z) : list Z :=
  if free then tail s else s.
Definition saved_target (free : bool) (s : list Z) : option Z :=
  if free then head s else None.

(** ** Admission of a multi-destination frame

    The two tests rbr_recv makes before it replicates: the outer source is
    the MAC address of an adjacency of the tree that has a node, and the
    ingress RBridge uses the tree, having advertised its root, or having
    advertised none while the root is the RBridge's own tree root. *)
Definition on_tree (r : rbr) (srcaddr : mac) (adjs : list Z) : bool :=
  existsb (λ a, match find_node r a with
                | Some adj => mac_equal (adjsnpa (rbr_ni adj)) srcaddr
                | None => false
                end) adjs.

Definition rpf_ok (r : rbr) (ingressnick egressnick : Z) : bool :=
  match find_node r ingressnick with
  | None => false
  | Some source_node =>
      match dtrootnicks (rbr_ni source_node) with
      | [] => egressnick =? treeroot r
      | roots => existsb (λ root, root =? egressnick) roots
      end
  end.

(** ** What the Replicator sends

    The private copy skb_copy makes, the hand-off of one buffer towards one
    adjacency, and the whole output of rbr_multidest_fwd when no allocation
    fails: a copy for each adjacency that gets one, in order, then the
    original buffer, forwarded to the saved adjacency or freed. *)
Definition skb_copied (skb : sk_buff) : sk_buff :=
  set_cloned false (set_frags [] (set_buf (skb_buf skb ++ skb_frags skb) skb)).

Definition hop_event (b : net_bridge F) (r : rbr) (skb : sk_buff) (vid : Z) (a : Z)
    : option event :=
  (λ adj, fwd_finish_event b (fwd_rewrite b adj skb) vid) <$> find_node r a.

Definition replica_events (b : net_bridge F) (r : rbr) (skb : sk_buff) (vid : Z)
    (free : bool) (s : list Z) : list event :=
  omap (hop_event b r (skb_copied skb) vid) (copy_targets free s) ++
  match saved_target free s with
  | Some a => option_list (hop_event b r skb vid a)
  | None => [Ev_kfree_skb skb]
  end.

(** A frame handed to the fabric by the Replicator respects the pruning: it
    is addressed to an adjacency of the tree other than the ingress RBridge,
    and not to the MAC address the frame came from. *)
Definition pruned_tx (r : rbr) (tree : list Z) (ingressnick : Z) (saddr : mac)
    (e : event) : Prop :=
  ∀ skb', tx_frame e = Some skb' →
    h_dest (eth_hdr skb') ≠ saddr ∧
    ∃ a adj, a ∈ tree ∧ a ≠ ingressnick ∧ rbr_nodes r !! a = Some adj ∧
             h_dest (eth_hdr skb') = adjsnpa (rbr_ni adj).

(** The adjacencies of the distribution tree rooted at [root]. *)
Definition tree_adjacencies (r : rbr) (root : Z) : list Z :=
  match find_node r root with
  | Some dest => adjnicks (rbr_ni dest)
  | None => []
  end.

(** Between [w] and [w'] the trace grew by events that all satisfy [P]. *)
Definition emitted (P : event → Prop) (w w' : world F) : Prop :=
  ∃ evs, w_out w' = w_out w ++ evs ∧ Forall P evs.

(** No allocation failure is scheduled. *)
Definition no_alloc_failure (w : world F) : Prop :=
  Forall (λ ok, ok = true) (w_alloc w).

(** The next [n] allocations succeed. *)
Definition allocations_succeed (n : nat) (w : world F) : Prop :=
  Forall (λ ok, ok = true) (take n (w_alloc w)).

(** The outer destination of a frame handed to the fabric, and the MAC
    address the table has for a nickname. *)
Definition tx_dest (e : event) : option mac :=
  (λ skb, h_dest (eth_hdr skb)) <$> tx_frame e.
Definition node_snpa (r : rbr) (a : Z) : option mac :=
  (λ adj, adjsnpa (rbr_ni adj)) <$> find_node r a.

End Phases.


(** ** A small campus for the worked examples

    RBridge R (nickname 5) has one fabric port; the tree rooted at A
    (nickname 1) has the adjacencies B (2) and D (4); C (9) is one more
    RBridge. *)

Module Campus.

Definition MA : mac := MAC 2 0 0 0 0 0xA.
Definition MB : mac := MAC 2 0 0 0 0 0xB.
Definition MC : mac := MAC 2 0 0 0 0 0xC.
Definition MD : mac := MAC 2 0 0 0 0 0xD.
Definition MR : mac := MAC 2 0 0 0 0 1.     (* the bridge device of R *)
Definition MP : mac := MAC 2 0 0 0 0 2.     (* the fabric port of R *)
Definition ES1 : mac := MAC 2 0 0 0 1 1.
Definition ES2 : mac := MAC 2 0 0 0 1 2.

Definition node (snpa : mac) (adjs roots : list Z) : rbr_node :=
  Build_rbr_node (Build_rbr_nickinfo snpa adjs roots).

Definition port1 : net_bridge_port := Build_net_bridge_port 1 MP.

Definition nodesR : gmap Z rbr_node :=
  <[1 := node MA [2; 4] []]>
    (<[2 := node MB [] []]>
       (<[4 := node MD [] []]>
          (<[9 := node MC [] []]> (<[5 := node MR [] []]> ∅)))).

Definition rbrR : rbr := mk_rbr 5 1 nodesR.

Definition brR : net_bridge (list fdb_entry) :=
  mk_br 100 MR 0 0 BR_NO_STP BR_TRILL (Some rbrR) (<[1 := port1]> ∅) [].

Definition w0 : world (list fdb_entry) := mk_world brR [] [].

(** The same bridge with no tree root nominated. *)
Definition w_noroot : world (list fdb_entry) :=
  mk_world (set_br_rbr (Some (mk_rbr 5 RBRIDGE_NICKNAME_NONE nodesR)) brR) [] [].

(** The same bridge where the first allocation succeeds and the second
    fails. *)
Definition w_alloc_fails : world (list fdb_entry) := mk_world brR [] [true; false].

(** The inner frame ES1 -> ES2. *)
Definition inner : list Z := mac_bytes ES2 ++ mac_bytes ES1 ++ [8; 0] ++ [1; 2; 3; 4].

(** A TRILL frame as the receive path sees it: [data] behind the outer
    Ethernet header. *)
Definition trill_frame (dst src : mac) (flags egress ingress : Z) : sk_buff :=
  mk_skb (mac_bytes dst ++ mac_bytes src ++ be16_bytes ETH_P_TRILL
            ++ trill_hdr_bytes flags egress ingress ++ inner)
    14 [] 0 14 14 0 0 0 14 false false 0 0 ETH_P_TRILL 1.

(** An end-station frame as the receive path sees it, with two octets of
    headroom in front of its Ethernet header, and with or without an
    accelerated VLAN tag. *)
Definition station_frame (tci : Z) : sk_buff :=
  mk_skb ([0; 0] ++ inner) 16 [] 2 16 16 0 0 0 14 false false 0x8100 tci 0x0800 1.

(** The frames of the worked examples, all but the first addressed to the
    fabric port of R. *)
Definition frame_wrong_dst : sk_buff := trill_frame MB MA 5 4 9.
Definition frame_selfloop : sk_buff := trill_frame MP MB 5 4 5.
Definition frame_hop1_transit : sk_buff := trill_frame MP MB 1 4 9.
Definition frame_hop1_local : sk_buff := trill_frame MP MB 1 5 9.
Definition frame_multidest : sk_buff := trill_frame MP MB 0x805 1 9.
Definition frame_multidest_from_C : sk_buff := trill_frame MP MC 0x805 1 9.

Definition TRILL_DEFAULT_HOPS : Z := 21.


(** The buffer skb_clone makes of the end-station frame (twice), and the one
    rbr_encaps gives up on when it cannot grow the headroom. *)
Definition flood_clone : sk_buff := set_cloned true (station_frame 0).
Definition flood_pushed : sk_buff :=
  match rbr_encaps TRILL_DEFAULT_HOPS flood_clone 5 1 true (mk_world brR [] [false]) with
  | Some ((_, skb), _) => skb
  | None => flood_clone
  end.


(** More of the campus: the bridge before TRILL is enabled, with the
    spanning tree running; R just after TRILL has been enabled; R when the
    next allocation fails; and RBridge D (nickname 4), whose fabric port has
    the MAC address R knows D by. *)
Definition w_disabled : world (list fdb_entry) :=
  mk_world (mk_br 100 MR 0 0 BR_KERNEL_STP BR_NO_TRILL None (<[1 := port1]> ∅) []) [] [].

Definition w_fresh : world (list fdb_entry) :=
  mk_world (set_br_rbr (Some fresh_rbr) brR) [] [].

Definition w_noalloc : world (list fdb_entry) := mk_world brR [] [false].

Definition portD : net_bridge_port := Build_net_bridge_port 1 MD.
Definition rbrD : rbr := mk_rbr 4 1 (<[4 := node MD [] []]> (<[5 := node MR [] []]> ∅)).
Definition wD : world (list fdb_entry) :=
  mk_world (mk_br 200 MD 0 0 BR_NO_STP BR_TRILL (Some rbrD) (<[1 := portD]> ∅) []) [] [].

(** R when its own entry advertises B as distribution-tree root, while the
    tree root configured is A; B has A, D and R as adjacencies. *)
Definition rbrT : rbr :=
  mk_rbr 5 1 (<[5 := node MR [] [2]]> (<[2 := node MB [1; 4; 5] []]> nodesR)).
Definition w_dtroot : world (list fdb_entry) :=
  mk_world (set_br_rbr (Some rbrT) brR) [] [].

Definition frame_transit : sk_buff := trill_frame MP MB 5 4 9.
Definition frame_unknown_egress : sk_buff := trill_frame MP MB 5 7 9.

(** The first frame a run hands to the fabric, and the frame R sends for the
    end-station frame bound for nickname 4, as it arrives on a port. *)
Definition first_sent {A} (run : option (A * world (list fdb_entry))) : sk_buff :=
  match run with
  | Some (_, w) =>
      match omap tx_frame (w_out w) with
      | skb :: _ => skb
      | [] => station_frame 0
      end
  | None => station_frame 0
  end.

Definition frame_from_R : sk_buff :=
  set_dev 1 (first_sent (rbr_encaps_prepare TRILL_DEFAULT_HOPS (station_frame 0) 4 10 w0)).

End Campus.
(** * Properties *)

(** ** Octets and buffers *)

Lemma length_skb_linear skb : length (skb_linear skb) = skb_headlen skb.
Proof. unfold skb_linear, skb_headlen. by rewrite length_drop. Qed.

Lemma byte_at_app l l' i : (i < length l)%nat → byte_at (l ++ l') i = byte_at l i.
Proof. intros Hi. unfold byte_at. by rewrite app_nth1. Qed.

Lemma be16_at_app l l' i : (S i < length l)%nat → be16_at (l ++ l') i = be16_at l i.
Proof. intros Hi. unfold be16_at. rewrite !byte_at_app by lia. done. Qed.

Lemma byte_at_drop l k i : byte_at (drop k l) i = byte_at l (k + i).
Proof.
  unfold byte_at. rewrite !nth_lookup, lookup_drop. done.
Qed.

Lemma length_buf_write off bs buf :
  (off + length bs ≤ length buf)%nat → length (buf_write off bs buf) = length buf.
Proof.
  intros Hle. unfold buf_write. rewrite !length_app, length_take, length_drop. lia.
Qed.

Lemma byte_at_buf_write off bs buf i :
  (off + length bs ≤ length buf)%nat →
  byte_at (buf_write off bs buf) i =
    if decide (off ≤ i < off + length bs)%nat then byte_at bs (i - off) else byte_at buf i.
Proof.
  intros Hle. unfold byte_at, buf_write. rewrite !nth_lookup.
  destruct (decide _) as [Hin|Hout].
  - rewrite lookup_app_r by (rewrite length_take; lia).
    rewrite length_take, Nat.min_l by lia.
    rewrite lookup_app_l by lia. done.
  - destruct (decide (i < off)%nat) as [Hlt|Hge].
    + rewrite lookup_app_l by (rewrite length_take; lia).
      rewrite lookup_take_lt by lia. done.
    + rewrite lookup_app_r by (rewrite length_take; lia).
      rewrite length_take, Nat.min_l by lia.
      rewrite lookup_app_r by lia. rewrite lookup_drop.
      do 2 f_equal. lia.
Qed.

Lemma drop_buf_write_before d off bs buf :
  (off + length bs ≤ d)%nat → (off + length bs ≤ length buf)%nat →
  drop d (buf_write off bs buf) = drop d buf.
Proof.
  intros H1 H2. unfold buf_write.
  rewrite drop_app_ge by (rewrite length_take; lia).
  rewrite length_take, Nat.min_l by lia.
  rewrite drop_app_ge by lia. rewrite drop_drop. f_equal. lia.
Qed.

Lemma drop_buf_write_at d bs buf :
  (d ≤ length buf)%nat →
  drop d (buf_write d bs buf) = bs ++ drop (d + length bs) buf.
Proof.
  intros H1. unfold buf_write.
  rewrite drop_app_ge by (rewrite length_take; lia).
  rewrite length_take, Nat.min_l by lia.
  rewrite Nat.sub_diag. done.
Qed.

Lemma take_buf_write_after d off bs buf :
  (d ≤ off)%nat → (off ≤ length buf)%nat →
  take d (buf_write off bs buf) = take d buf.
Proof.
  intros H1 H2. unfold buf_write.
  rewrite take_app_le by (rewrite length_take; lia).
  rewrite take_take. f_equal. lia.
Qed.

Lemma bytes_mac_bytes m : bytes_mac (mac_bytes m) = m.
Proof. by destruct m. Qed.

Lemma be16_at_bytes x : 0 ≤ x < 65536 → be16_at (be16_bytes x) 0 = x.
Proof.
  intros Hx. unfold be16_at, be16_bytes, byte_at. simpl.
  rewrite Z.shiftr_div_pow2 by lia. change (2 ^ 8) with 256.
  rewrite (Z.mod_small (x / 256)) by (split; [apply Z.div_pos; lia | apply Z.div_lt_upper_bound; lia]).
  pose proof (Z.div_mod x 256). lia.
Qed.


(** ** Buffers under push, pull and copy-on-write *)

Arguments ALIGN : simpl never.

Lemma ALIGN_ge x : (x ≤ ALIGN x NET_SKB_PAD)%nat.
Proof.
  unfold ALIGN, NET_SKB_PAD.
  pose proof (Nat.div_mod_eq (x + 64 - 1) 64).
  pose proof (Nat.mod_upper_bound (x + 64 - 1) 64). lia.
Qed.

Lemma drop_split_before (buf : list Z) d n :
  (n ≤ d)%nat → (d ≤ length buf)%nat →
  ∃ x, length x = n ∧ drop (d - n) buf = x ++ drop d buf.
Proof.
  intros Hn Hd. exists (take n (drop (d - n) buf)). split.
  - rewrite length_take, length_drop. lia.
  - rewrite <- (take_drop n (drop (d - n) buf)) at 1. rewrite drop_drop.
    do 2 f_equal. lia.
Qed.

Lemma drop_buf_write_in d k bs (buf : list Z) :
  (d + k + length bs ≤ length buf)%nat →
  drop d (buf_write (d + k) bs buf) = buf_write k bs (drop d buf).
Proof.
  intros Hle. unfold buf_write.
  rewrite drop_app_le by (rewrite length_take; lia).
  rewrite skipn_firstn_comm. replace (d + k - d)%nat with k by lia.
  rewrite drop_drop. do 3 f_equal. lia.
Qed.

Lemma trill_hdr_write (x L f e i : list Z) :
  length x = 6%nat → length f = 2%nat → length e = 2%nat → length i = 2%nat →
  buf_write 4 i (buf_write 2 e (buf_write 0 f (x ++ L))) = f ++ e ++ i ++ L.
Proof.
  intros Hx Hf He Hi.
  destruct x as [|x0 [|x1 [|x2 [|x3 [|x4 [|x5 [|]]]]]]]; try done.
  destruct f as [|f0 [|f1 [|]]]; try done.
  destruct e as [|e0 [|e1 [|]]]; try done.
  destruct i as [|i0 [|i1 [|]]]; try done.
Qed.

Lemma vlan_tag_write_bytes (x L p t : list Z) :
  length x = 4%nat → (12 ≤ length L)%nat → length p = 2%nat → length t = 2%nat →
  buf_write 14 t (buf_write 12 p (buf_write 0 (take 12 L) (x ++ L))) =
    take 12 L ++ p ++ t ++ drop 12 L.
Proof.
  intros Hx HL Hp Ht.
  destruct x as [|x0 [|x1 [|x2 [|x3 [|]]]]]; try done.
  destruct p as [|p0 [|p1 [|]]]; try done.
  destruct t as [|t0 [|t1 [|]]]; try done.
  do 12 (destruct L as [|? L]; [simpl in HL; lia|]).
  reflexivity.
Qed.

Ltac len_solve :=
  repeat (rewrite length_buf_write by len_solve);
  cbn [length mac_bytes be16_bytes] in *; lia.
Ltac bytes_solve :=
  repeat (rewrite byte_at_buf_write by len_solve);
  cbn [length mac_bytes be16_bytes];
  repeat (destruct (decide _) as [?|?]; try lia).

Lemma be16_at_hdr_egress f e i (L : list Z) :
  is_u16 e → be16_at (trill_hdr_bytes f e i ++ L) 2 = e.
Proof.
  intros He. unfold trill_hdr_bytes, be16_bytes. cbn [app].
  change (be16_at _ 2) with (be16_at (be16_bytes e) 0). by apply be16_at_bytes.
Qed.

Lemma be16_at_hdr_ingress f e i (L : list Z) :
  is_u16 i → be16_at (trill_hdr_bytes f e i ++ L) 4 = i.
Proof.
  intros Hi. unfold trill_hdr_bytes, be16_bytes. cbn [app].
  change (be16_at _ 4) with (be16_at (be16_bytes i) 0). by apply be16_at_bytes.
Qed.

Section Properties.
Context {F : Type} `{!BridgeFdb F}.
Variable TRILL_DEFAULT_HOPS : Z.
Implicit Types (w : world F) (b : net_bridge F) (skb : sk_buff) (p port : net_bridge_port).

Lemma only_logged_refl w : only_logged w w.
Proof. split; [done|]. exists []. by rewrite app_nil_r. Qed.

Lemma only_logged_printk w w1 msg :
  only_logged w w1 →
  only_logged w (mk_world (w_br w1) (w_out w1 ++ [Ev_printk msg]) (w_alloc w1)).
Proof.
  intros [Hb (logs & Ho & Hl)]. split; [done|].
  exists (logs ++ [Ev_printk msg]). simpl. rewrite Ho, <- app_assoc. split; [done|].
  apply Forall_app. split; [done|]. by constructor.
Qed.

Lemma recv_drop_dropped w w1 skb skb1 port :
  only_logged w w1 →
  skb_payload skb1 = skb_payload skb →
  ∃ w', recv_drop (Some port) skb1 w1 = Some (tt, w') ∧ recv_dropped skb w w'.
Proof.
  intros [Hb (logs & Ho & Hl)] Hp. eexists. split; [reflexivity|].
  split; simpl; [by rewrite Hb|].
  exists logs, skb1. by rewrite Ho, <- app_assoc.
Qed.

Lemma printk_recv_drop_dropped w w1 skb skb1 port msg :
  only_logged w w1 →
  skb_payload skb1 = skb_payload skb →
  ∃ w', (printk msg >> recv_drop (Some port) skb1) w1 = Some (tt, w') ∧
        recv_dropped skb w w'.
Proof.
  intros Hq Hp.
  apply (recv_drop_dropped w _ skb skb1 port (only_logged_printk w w1 msg Hq) Hp).
Qed.

(** pskb_may_pull *)
Lemma pskb_may_pull_spec n skb w :
  skb_wf skb →
  ∃ ok skb' w',
    pskb_may_pull n skb w = Some ((ok, skb'), w') ∧
    w_br w' = w_br w ∧ w_out w' = w_out w ∧
    skb_payload skb' = skb_payload skb ∧
    skb_data skb' = skb_data skb ∧
    encapsulation skb' = encapsulation skb ∧
    mac_header skb' = mac_header skb ∧
    (ok = true → (n ≤ skb_headlen skb')%nat).
Proof.
  unfold pskb_may_pull, skb_wf. intros Hwf.
  destruct (decide (n ≤ skb_headlen skb)%nat) as [Hle|Hgt].
  { exists true, skb, w. done. }
  destruct (decide (skb_len skb < n)%nat) as [Hlt|Hge].
  { exists false, skb, w. done. }
  unfold bind, alloc. destruct (w_alloc w) as [|[] t]; simpl.
  3: { eexists false, skb, _. done. }
  all: eexists true, _, _; split; [reflexivity|]; simpl;
    repeat split; try done.
  all: unfold skb_payload, skb_linear, skb_headlen, skb_len, skb_headlen in *; simpl.
  all: try (intros _; rewrite length_app, length_take; lia).
  all: rewrite drop_app_le by lia; rewrite <- app_assoc, take_drop; done.
Qed.


Lemma mark_encapsulated_step n skb w :
  (n ≤ skb_headlen skb)%nat →
  (if negb (encapsulation skb) then
      let* skb := lift (skb_pull n skb) in
      lift (skb_push n (set_encapsulation true (skb_reset_inner_headers skb)))
    else ret skb) w = Some (mark_encapsulated skb, w).
Proof.
  intros Hn. unfold mark_encapsulated.
  destruct (encapsulation skb) eqn:He; simpl; [done|].
  unfold bind, skb_pull, skb_len.
  destruct (decide _) as [?|_]; [lia|].
  destruct (decide _) as [_|?]; [|lia]. simpl.
  unfold skb_push. simpl. destruct (decide _) as [_|?]; [|lia]. simpl.
  unfold set_data, set_encapsulation, skb_reset_inner_headers. simpl.
  replace (skb_data skb + n - n)%nat with (skb_data skb) by lia. done.
Qed.

Lemma mark_encapsulated_payload skb :
  skb_payload (mark_encapsulated skb) = skb_payload skb.
Proof. unfold mark_encapsulated. by destruct (encapsulation skb). Qed.

Lemma mark_encapsulated_linear skb :
  skb_linear (mark_encapsulated skb) = skb_linear skb.
Proof. unfold mark_encapsulated. by destruct (encapsulation skb). Qed.

(** The front of rbr_recv: either the frame is dropped there, or the header
    has been made linear and the checks go on. *)
Lemma rbr_recv_front w skb vid port :
  br_port_get_rcu (w_br w) (skb_dev skb) = Some port →
  skb_wf skb →
  (∃ w', rbr_recv skb vid w = Some (tt, w') ∧ recv_dropped skb w w') ∨
  (∃ skb1 w1,
      mac_equal (port_dev_addr port) (h_dest (eth_hdr skb)) = true ∧
      w_br w1 = w_br w ∧ w_out w1 = w_out w ∧
      skb_payload skb1 = skb_payload skb ∧
      skb_data skb1 = skb_data skb ∧
      mac_header skb1 = mac_header skb ∧
      (frame_trhsize skb + ETH_HLEN ≤ skb_headlen skb1)%nat ∧
      rbr_recv skb vid w =
        recv_checked port (br_rbr (w_br w)) (mark_encapsulated skb1)
          (frame_flags skb) (frame_trhsize skb) (h_source (eth_hdr skb))
          (skb_linear skb1) vid w1).
Proof.
  intros Hport Hwf.
  assert (Henter : rbr_recv skb vid w =
     (if negb (mac_equal (port_dev_addr port) (h_dest (eth_hdr skb)))
      then recv_drop (Some port) skb
      else if decide (skb_len skb < frame_trhsize skb + ETH_HLEN)%nat
      then printk "rbr_recv:sk_buff len is less then minimal len" >>
           recv_drop (Some port) skb
      else
        let* '(pulled, skb0) := pskb_may_pull (frame_trhsize skb + ETH_HLEN) skb in
        if negb pulled then recv_drop (Some port) skb0
        else
          let* skb1 :=
            (if negb (encapsulation skb0) then
               let* skb' := lift (skb_pull (frame_trhsize skb + ETH_HLEN) skb0) in
               lift (skb_push (frame_trhsize skb + ETH_HLEN)
                       (set_encapsulation true (skb_reset_inner_headers skb')))
             else ret skb0) in
          recv_checked port (br_rbr (w_br w)) skb1 (frame_flags skb)
            (frame_trhsize skb) (h_source (eth_hdr skb)) (skb_linear skb0) vid) w).
  { unfold rbr_recv. unfold bind at 1, get_br.
    cbv beta iota zeta. rewrite Hport. reflexivity. }
  destruct (mac_equal _ _) eqn:Hmac; cbn [negb] in Henter.
  2: { left. rewrite Henter.
       apply (recv_drop_dropped w w skb skb port); [apply only_logged_refl|done]. }
  destruct (decide (skb_len skb < frame_trhsize skb + ETH_HLEN)%nat) as [Hlen|Hlen].
  { left. rewrite Henter.
    apply printk_recv_drop_dropped; [apply only_logged_refl|done]. }
  destruct (pskb_may_pull_spec (frame_trhsize skb + ETH_HLEN) skb w Hwf)
    as (ok & skb1 & w1 & Hpull & Hb & Ho & Hpay & Hdata & Henc & Hmh & Hok).
  unfold bind at 1 in Henter. rewrite Hpull in Henter.
  destruct ok; cbn [negb] in Henter.
  2: { left. rewrite Henter. apply recv_drop_dropped; [|done].
       split; [done|]. exists []. by rewrite app_nil_r. }
  right. exists skb1, w1. repeat split; try done; [by apply Hok|].
  rewrite Henter.
  unfold bind at 1. rewrite mark_encapsulated_step by (by apply Hok). done.
Qed.


(** Once the TRILL header is linear the nicknames read at [skb->data] are
    those of the packet. *)
Lemma linear_nicks skb1 skb :
  skb_payload skb1 = skb_payload skb →
  (sizeof_trill_hdr ≤ skb_headlen skb1)%nat →
  th_ingressnick (skb_linear skb1) = frame_ingress skb ∧
  th_egressnick (skb_linear skb1) = frame_egress skb.
Proof.
  intros Hpay Hlen. unfold frame_ingress, frame_egress. rewrite <- Hpay.
  unfold skb_payload, th_ingressnick, th_egressnick.
  rewrite <- length_skb_linear in Hlen. unfold sizeof_trill_hdr in Hlen.
  rewrite !be16_at_app by lia. done.
Qed.

Lemma recv_checked_selfloop w w1 skb skbm port r flags trhsize src trh vid :
  only_logged w w1 →
  skb_payload skbm = skb_payload skb →
  th_ingressnick trh = nick r →
  ∃ w', recv_checked port (Some r) skbm flags trhsize src trh vid w1 = Some (tt, w') ∧
        recv_dropped skb w w'.
Proof.
  intros Hq Hpay Hin. unfold recv_checked.
  destruct (_ || _); [by apply printk_recv_drop_dropped|].
  destruct (negb _); [by apply printk_recv_drop_dropped|].
  unfold bind at 1. cbn [lift ret]. rewrite Hin, Z.eqb_refl.
  by apply printk_recv_drop_dropped.
Qed.

(** Claim C1. A TRILL frame received on a port of the bridge whose outer
    destination MAC address is not the address of that port is dropped:
    rbr_recv counts it in rx_dropped and frees it, and does nothing else, so
    nothing is forwarded, replicated, decapsulated or learnt. *)
Theorem rbr_recv_outer_dst_mismatch w skb vid port :
  br_port_get_rcu (w_br w) (skb_dev skb) = Some port →
  h_dest (eth_hdr skb) ≠ port_dev_addr port →
  rbr_recv skb vid w =
    Some (tt, mk_world (set_rx_dropped (incr (rx_dropped (w_br w))) (w_br w))
                (w_out w ++ [Ev_kfree_skb skb]) (w_alloc w)).
Proof.
  intros Hport Hne. unfold rbr_recv. unfold bind at 1, get_br.
  cbv beta iota zeta. rewrite Hport.
  unfold mac_equal. rewrite bool_decide_eq_false_2 by congruence.
  reflexivity.
Qed.

(** Claim C2. A received TRILL frame, unicast or multi-destination, whose
    ingress nickname is the nickname of this RBridge is dropped: rbr_recv
    returns with rx_dropped counted once more and the bridge otherwise as it
    was, and all it emits are log lines and the release of the buffer. *)
Theorem rbr_recv_selfloop_dropped w skb vid port r :
  br_port_get_rcu (w_br w) (skb_dev skb) = Some port →
  skb_wf skb →
  br_rbr (w_br w) = Some r →
  frame_ingress skb = nick r →
  ∃ w', rbr_recv skb vid w = Some (tt, w') ∧ recv_dropped skb w w'.
Proof.
  intros Hport Hwf Hr Hin.
  destruct (rbr_recv_front w skb vid port Hport Hwf)
    as [Hdrop | (skb1 & w1 & Hmac & Hb & Ho & Hpay & Hdata & Hmh & Hlen & Heq)]; [done|].
  rewrite Heq, Hr.
  apply recv_checked_selfloop.
  - split; [done|]. exists []. by rewrite app_nil_r.
  - by rewrite mark_encapsulated_payload.
  - rewrite <- Hin. apply linear_nicks; [done|]. unfold frame_trhsize in Hlen. lia.
Qed.


(** ** The Forwarder *)

Lemma rbr_find_node_Some r n w :
  rbr_find_node (Some r) n w = Some (find_node r n, w).
Proof.
  unfold rbr_find_node, find_node. by destruct (VALID_NICK n).
Qed.

Lemma rbr_fwd_finish_eq skb vid w :
  rbr_fwd_finish skb vid w =
    Some (tt, mk_world (w_br w) (w_out w ++ [fwd_finish_event (w_br w) skb vid]) (w_alloc w)).
Proof.
  unfold rbr_fwd_finish, fwd_finish_event, bind, get_br.
  by destruct (br_fdb_get _ _ _).
Qed.

Lemma rbr_fwd_found p skb a vid w r adj :
  br_rbr (w_br w) = Some r →
  find_node r a = Some adj →
  rbr_fwd p skb a vid w =
    Some (tt, mk_world (w_br w)
                (w_out w ++ [fwd_finish_event (w_br w) (fwd_rewrite (w_br w) adj skb) vid])
                (w_alloc w)).
Proof.
  intros Hr Ha. unfold rbr_fwd. unfold bind at 1, get_br. cbv beta iota.
  unfold bind at 1. rewrite Hr, rbr_find_node_Some, Ha.
  apply rbr_fwd_finish_eq.
Qed.

Lemma rbr_fwd_missing p skb a vid w r :
  br_rbr (w_br w) = Some r →
  find_node r a = None →
  rbr_fwd p skb a vid w =
    Some (tt, mk_world (set_tx_dropped (incr (tx_dropped (w_br w))) (w_br w))
                (w_out w ++ [Ev_printk "rbr_fwd: unable to find adjacent RBridge";
                             Ev_kfree_skb skb])
                (w_alloc w)).
Proof.
  intros Hr Ha. unfold rbr_fwd. unfold bind at 1, get_br. cbv beta iota.
  unfold bind at 1. rewrite Hr, rbr_find_node_Some, Ha.
  unfold bind, printk, kfree_skb, upd_br, emit. simpl. by rewrite <- app_assoc.
Qed.

Lemma tx_frame_fwd_finish_event b skb vid :
  ∃ skb', tx_frame (fwd_finish_event b skb vid) = Some skb' ∧
          (skb' = skb ∨ ∃ dst, skb' = set_h_source (port_dev_addr dst) skb).
Proof.
  unfold fwd_finish_event. destruct (br_fdb_get _ _ _) as [dst|]; simpl; eauto.
Qed.

Lemma h_dest_set_h_source m skb :
  (mac_header skb + ETH_HLEN ≤ length (skb_buf skb))%nat →
  h_dest (eth_hdr (set_h_source m skb)) = h_dest (eth_hdr skb).
Proof.
  intros Hwf. unfold h_dest, eth_hdr, set_h_source, bytes_mac, ETH_HLEN, ETH_ALEN in *.
  simpl. rewrite !byte_at_drop.
  f_equal; bytes_solve; done.
Qed.

Lemma h_dest_fwd_rewrite b adj skb :
  tx_wf skb →
  h_dest (eth_hdr (fwd_rewrite b adj skb)) = adjsnpa (rbr_ni adj).
Proof.
  intros [H1 H2].
  transitivity (bytes_mac (mac_bytes (adjsnpa (rbr_ni adj)))); [|apply bytes_mac_bytes].
  unfold h_dest, eth_hdr, fwd_rewrite, set_h_dest, set_h_source,
    trillhdr_dec_hopcount, set_th_flags, bytes_mac, ETH_HLEN, ETH_ALEN, sizeof_trill_hdr in *.
  simpl. rewrite !byte_at_drop.
  f_equal; bytes_solve; unfold byte_at; f_equal; lia.
Qed.


Lemma land_u16_range x : Z.land x 0xFFFF = x → 0 ≤ x < 65536.
Proof.
  intros Hx. rewrite <- Hx. change 0xFFFF with (Z.ones 16).
  rewrite Z.land_ones by lia. apply Z.mod_pos_bound. lia.
Qed.

Lemma dec_hopcount_flags_range f : 0 ≤ dec_hopcount_flags f < 65536.
Proof.
  apply land_u16_range. unfold dec_hopcount_flags, trill_set_hopcount.
  rewrite Z.land_lor_distr_l, <- !Z.land_assoc. reflexivity.
Qed.

Lemma hopcount_dec_hopcount_flags f :
  trill_get_hopcount (dec_hopcount_flags f) =
    Z.land (trill_get_hopcount f - 1) TRILL_FLAGS_HOPCOUNT_MASK.
Proof.
  unfold dec_hopcount_flags, trill_set_hopcount, trill_get_hopcount.
  rewrite Z.land_lor_distr_l, <- !Z.land_assoc.
  change (Z.land (Z.lxor 65535 TRILL_FLAGS_HOPCOUNT_MASK) TRILL_FLAGS_HOPCOUNT_MASK) with 0.
  change (Z.land TRILL_FLAGS_HOPCOUNT_MASK TRILL_FLAGS_HOPCOUNT_MASK)
    with TRILL_FLAGS_HOPCOUNT_MASK.
  rewrite Z.land_0_r. reflexivity.
Qed.

Lemma th_flags_fwd_rewrite b adj skb :
  tx_wf skb →
  th_flags (skb_linear (fwd_rewrite b adj skb)) =
    dec_hopcount_flags (th_flags (skb_linear skb)).
Proof.
  intros [H1 H2].
  rewrite <- (be16_at_bytes (dec_hopcount_flags _)) by apply dec_hopcount_flags_range.
  unfold th_flags at 1. unfold be16_at, skb_linear at 1 2.
  unfold fwd_rewrite, set_h_dest, set_h_source,
    trillhdr_dec_hopcount, set_th_flags, ETH_HLEN, ETH_ALEN, sizeof_trill_hdr in *.
  simpl. rewrite !byte_at_drop.
  f_equal; [f_equal|]; bytes_solve; unfold byte_at; f_equal; lia.
Qed.

Lemma nicks_fwd_rewrite b adj skb :
  tx_wf skb →
  th_egressnick (skb_linear (fwd_rewrite b adj skb)) = th_egressnick (skb_linear skb) ∧
  th_ingressnick (skb_linear (fwd_rewrite b adj skb)) = th_ingressnick (skb_linear skb).
Proof.
  intros [H1 H2].
  unfold th_egressnick, th_ingressnick, be16_at, skb_linear.
  unfold fwd_rewrite, set_h_dest, set_h_source,
    trillhdr_dec_hopcount, set_th_flags, ETH_HLEN, ETH_ALEN, sizeof_trill_hdr in *.
  simpl. rewrite !byte_at_drop.
  split; (f_equal; [f_equal|]); bytes_solve; done.
Qed.

Lemma linear_set_h_source m skb :
  tx_wf skb →
  skb_linear (set_h_source m skb) = skb_linear skb.
Proof.
  intros [H1 H2]. unfold skb_linear, set_h_source, ETH_HLEN, ETH_ALEN,
    sizeof_trill_hdr in *. cbn [skb_buf skb_data set_buf].
  apply drop_buf_write_before; cbn [length mac_bytes]; lia.
Qed.

(** ** The Decapsulator *)

Lemma rbr_decaps_ok port skb trhsize vid w :
  (sizeof_trill_hdr ≤ trhsize)%nat →
  (sizeof_trill_hdr + ETH_HLEN ≤ skb_headlen skb)%nat →
  rbr_decaps (Some port) skb trhsize vid w =
    Some (tt, mk_world (decap_learn (w_br w) port skb vid)
                (w_out w ++ [decap_finish_event (decap_learn (w_br w) port skb vid)
                               (decap_rewrite (br_dev (w_br w)) skb) vid])
                (w_alloc w)).
Proof.
  intros Hsz Hlen. unfold rbr_decaps.
  destruct (decide _) as [_|?]; [|lia].
  unfold skb_pull at 1. unfold skb_len.
  destruct (decide _) as [?|_]; [unfold sizeof_trill_hdr, ETH_HLEN in *; lia|].
  destruct (decide _) as [_|?]; [|unfold sizeof_trill_hdr, ETH_HLEN in *; lia].
  unfold bind at 1. cbn [lift ret].
  unfold skb_pull at 1. unfold skb_len.
  assert (Hl2 : skb_headlen (set_protocol
      (h_proto (eth_hdr (skb_reset_mac_header (set_data (skb_data skb + sizeof_trill_hdr)%nat skb))))
      (skb_reset_mac_header (set_data (skb_data skb + sizeof_trill_hdr)%nat skb)))
      = (skb_headlen skb - sizeof_trill_hdr)%nat).
  { unfold skb_headlen. simpl. lia. }
  rewrite Hl2.
  destruct (decide _) as [?|_]; [unfold sizeof_trill_hdr, ETH_HLEN in *; lia|].
  destruct (decide _) as [_|?]; [|unfold sizeof_trill_hdr, ETH_HLEN in *; lia].
  unfold bind at 1. cbn [lift ret].
  unfold bind at 1, get_br. cbv beta iota.
  unfold bind, upd_br. cbv beta iota.
  unfold rbr_decap_finish, bind, get_br, decap_finish_event, decap_rewrite, decap_learn.
  cbv beta iota zeta.
  assert (Hlin : skb_linear (set_protocol
      (h_proto (eth_hdr (skb_reset_mac_header (set_data (skb_data skb + sizeof_trill_hdr)%nat skb))))
      (skb_reset_mac_header (set_data (skb_data skb + sizeof_trill_hdr)%nat skb)))
      = drop sizeof_trill_hdr (skb_linear skb)).
  { unfold skb_linear. simpl. rewrite drop_drop. done. }
  rewrite Hlin. cbn [w_br w_out w_alloc].
  by destruct (br_fdb_get _ _ _).
Qed.

Lemma skb_frame_decap_rewrite dev skb :
  skb_wf skb →
  (sizeof_trill_hdr ≤ skb_headlen skb)%nat →
  skb_frame (decap_rewrite dev skb) = drop sizeof_trill_hdr (skb_payload skb).
Proof.
  intros Hwf Hlen. unfold skb_frame, decap_rewrite, skb_payload, skb_linear.
  cbv zeta.
  match goal with |- context [if ?c then _ else _] => destruct c end; simpl.
  all: rewrite drop_app_le by (rewrite length_drop; unfold skb_headlen in Hlen; lia).
  all: rewrite drop_drop; done.
Qed.


(** ** Outcomes of the receive path *)

Lemma recv_adj_loop_total r src adjs i w :
  ∃ idx, recv_adj_loop (Some r) src adjs i w = Some (idx, w).
Proof.
  revert i. induction adjs as [|a adjs IH]; intros i; simpl; [by eexists|].
  unfold bind. rewrite rbr_find_node_Some.
  destruct (find_node r a) as [adj|]; [|apply IH].
  destruct (mac_equal _ _); [by eexists|apply IH].
Qed.

Lemma header_ok_wf r port skb : recv_header_ok r port skb → skb_wf skb.
Proof.
  intros (_ & Hlen & _). unfold skb_wf, skb_headlen, sizeof_trill_hdr, ETH_HLEN in *. lia.
Qed.

Lemma header_ok_nicks r port skb :
  recv_header_ok r port skb →
  th_ingressnick (skb_linear skb) = frame_ingress skb ∧
  th_egressnick (skb_linear skb) = frame_egress skb.
Proof.
  intros (_ & Hlen & _). apply linear_nicks; [done|]. lia.
Qed.

(** With the header linear and the checks passed, rbr_recv is at the
    branch on the multi-destination bit. *)
Lemma rbr_recv_header_ok w skb vid port r :
  br_port_get_rcu (w_br w) (skb_dev skb) = Some port →
  br_rbr (w_br w) = Some r →
  recv_header_ok r port skb →
  rbr_recv skb vid w =
    recv_checked port (Some r) (mark_encapsulated skb) (frame_flags skb)
      sizeof_trill_hdr (h_source (eth_hdr skb)) (skb_linear skb) vid w.
Proof.
  intros Hport Hr Hok.
  pose proof Hok as (Hmac & Hlen & Hin & Heg & Hver & Hopt & Hloop).
  unfold rbr_recv. unfold bind at 1, get_br. cbv beta iota zeta. rewrite Hport, Hr.
  unfold mac_equal. rewrite bool_decide_eq_true_2 by done. cbn [negb].
  fold (frame_flags skb). fold (frame_trhsize skb).
  assert (Hsz : frame_trhsize skb = sizeof_trill_hdr).
  { unfold frame_trhsize. rewrite Hopt. change (Z.to_nat 0) with 0%nat. lia. }
  rewrite Hsz.
  destruct (decide _) as [Hlt|_].
  { unfold skb_len in Hlt. lia. }
  unfold pskb_may_pull. destruct (decide _) as [_|?]; [|lia].
  unfold bind at 1. cbn [ret negb].
  unfold bind at 1. rewrite mark_encapsulated_step by done.
  reflexivity.
Qed.

(** A unicast frame for the local nickname is decapsulated, whatever its
    hop count. *)
Lemma rbr_recv_unicast_local w skb vid port r :
  br_port_get_rcu (w_br w) (skb_dev skb) = Some port →
  br_rbr (w_br w) = Some r →
  recv_header_ok r port skb →
  trill_get_multidest (frame_flags skb) = 0 →
  frame_egress skb = nick r →
  ∃ w', rbr_recv skb vid w = Some (tt, w') ∧ recv_decapsulated port skb vid w w'.
Proof.
  intros Hport Hr Hok Hmd Heg.
  pose proof (header_ok_nicks _ _ _ Hok) as [Hni Hne].
  pose proof (header_ok_wf _ _ _ Hok) as Hwf.
  pose proof Hok as (Hmac & Hlen & Hvi & Hve & Hver & Hopt & Hloop).
  rewrite (rbr_recv_header_ok w skb vid port r Hport Hr Hok).
  unfold recv_checked. rewrite Hni, Hne, Hvi, Hve, Hver, Hopt, Hmd. cbn [negb orb].
  rewrite Z.eqb_refl. cbn [negb]. unfold bind at 1. cbn [lift ret].
  rewrite (proj2 (Z.eqb_neq _ _) Hloop).
  change (0 =? 0) with true. cbn [negb].
  rewrite Heg in *.
  rewrite (proj2 (Z.eqb_neq (nick r) (frame_ingress skb))) by congruence.
  rewrite Z.eqb_refl.
  assert (Hlen' : (sizeof_trill_hdr + ETH_HLEN ≤ skb_headlen (mark_encapsulated skb))%nat).
  { rewrite <- length_skb_linear, mark_encapsulated_linear, length_skb_linear. done. }
  rewrite rbr_decaps_ok by done.
  eexists. split; [reflexivity|].
  split.
  - cbn [w_br]. unfold decap_learn. rewrite mark_encapsulated_linear, Hni.
    do 2 f_equal. unfold skb_payload, h_source, bytes_mac.
    rewrite <- length_skb_linear in Hlen. unfold sizeof_trill_hdr, ETH_HLEN, ETH_ALEN in *.
    rewrite !byte_at_drop, !byte_at_app by lia. done.
  - cbn [w_out]. eexists _, (decap_rewrite (br_dev (w_br w)) (mark_encapsulated skb)).
    split; [done|]. split.
    { unfold decap_finish_event. by destruct (br_fdb_get _ _ _). }
    split.
    + rewrite skb_frame_decap_rewrite, mark_encapsulated_payload; [done| |lia].
      unfold skb_wf, mark_encapsulated. by destruct (encapsulation skb).
    + unfold decap_rewrite. cbv zeta.
      match goal with |- context [if ?c then _ else _] => destruct c eqn:E end; [done|].
      simpl in *. done.
Qed.




(** Claim C4, as amended. A unicast TRILL frame that passes the header
    checks of rbr_recv and arrives with hop count 1: when its egress nickname
    is another RBridge found in the neighbour table, it is forwarded to
    that neighbour's MAC address with hop count 0 (and the outer source is
    refreshed in the fdb); when its egress nickname is that of this RBridge,
    it is decapsulated and delivered locally. *)
Theorem rbr_recv_hop_count_one w skb vid port r :
  br_port_get_rcu (w_br w) (skb_dev skb) = Some port →
  br_rbr (w_br w) = Some r →
  recv_header_ok r port skb →
  trill_get_multidest (frame_flags skb) = 0 →
  trill_get_hopcount (frame_flags skb) = 1 →
  (frame_egress skb ≠ nick r → frame_egress skb ≠ frame_ingress skb →
   (mac_header skb + ETH_HLEN ≤ skb_data skb)%nat →
   ∀ adj, rbr_nodes r !! frame_egress skb = Some adj →
   ∃ w' e skb',
     rbr_recv skb vid w = Some (tt, w') ∧
     w_br w' = set_br_fdb
                 (br_fdb_update (br_fdb (w_br w)) port (h_source (eth_hdr skb)) vid)
                 (w_br w) ∧
     w_out w' = w_out w ++ [e] ∧
     tx_frame e = Some skb' ∧
     h_dest (eth_hdr skb') = adjsnpa (rbr_ni adj) ∧
     trill_get_hopcount (th_flags (skb_linear skb')) = 0) ∧
  (frame_egress skb = nick r →
   ∃ w', rbr_recv skb vid w = Some (tt, w') ∧ recv_decapsulated port skb vid w w').
Proof.
  intros Hport Hr Hok Hmd Hhop. split.
  2: { intros Heg. by apply (rbr_recv_unicast_local w skb vid port r). }
  intros Hne Hnei Hmh adj Hadj.
  pose proof (header_ok_nicks _ _ _ Hok) as [Hni Hneg].
  pose proof Hok as (Hmac & Hlen & Hvi & Hve & Hver & Hopt & Hloop).
  rewrite (rbr_recv_header_ok w skb vid port r Hport Hr Hok).
  unfold recv_checked. rewrite Hni, Hneg, Hvi, Hve, Hver, Hopt, Hmd, Hhop.
  cbn [negb orb]. rewrite Z.eqb_refl. cbn [negb]. unfold bind at 1. cbn [lift ret].
  rewrite (proj2 (Z.eqb_neq _ _) Hloop).
  change (0 =? 0) with true. change (1 =? 0) with false. cbn [negb].
  rewrite (proj2 (Z.eqb_neq _ _) Hnei), (proj2 (Z.eqb_neq _ _) Hne).
  unfold bind at 1, upd_br. cbv beta iota.
  assert (Hfind : find_node r (frame_egress skb) = Some adj).
  { unfold find_node. by rewrite Hve. }
  erewrite rbr_fwd_found; [|cbn [w_br]; exact Hr|exact Hfind].
  cbn [w_br w_out w_alloc].
  assert (Htx : tx_wf (mark_encapsulated skb)).
  { unfold tx_wf, mark_encapsulated, skb_headlen, sizeof_trill_hdr, ETH_HLEN in *.
    destruct (encapsulation skb); simpl; lia. }
  set (b' := set_br_fdb _ _).
  destruct (tx_frame_fwd_finish_event b' (fwd_rewrite b' adj (mark_encapsulated skb)) vid)
    as (skb' & Hev & Hskb').
  eexists _, _, skb'. split; [reflexivity|].
  cbn [w_br w_out]. repeat split; try done.
  - destruct Hskb' as [->|[dst ->]].
    + by apply h_dest_fwd_rewrite.
    + rewrite h_dest_set_h_source; [by apply h_dest_fwd_rewrite|].
      destruct Htx as [H1 H2]. unfold fwd_rewrite, set_h_dest, set_h_source,
        trillhdr_dec_hopcount, set_th_flags, ETH_HLEN, ETH_ALEN, sizeof_trill_hdr in *.
      cbn [skb_buf mac_header set_dev set_buf skb_data]. len_solve.
  - assert (Hfl : th_flags (skb_linear skb') =
                  dec_hopcount_flags (th_flags (skb_linear (mark_encapsulated skb)))).
    { destruct Hskb' as [->|[dst ->]].
      - by apply th_flags_fwd_rewrite.
      - rewrite linear_set_h_source; [by apply th_flags_fwd_rewrite|].
        destruct Htx as [H1 H2]. unfold tx_wf, fwd_rewrite, set_h_dest, set_h_source,
          trillhdr_dec_hopcount, set_th_flags, ETH_HLEN, ETH_ALEN, sizeof_trill_hdr in *.
        cbn [skb_buf mac_header set_dev set_buf skb_data]. split; [lia|len_solve]. }
    rewrite Hfl, hopcount_dec_hopcount_flags, mark_encapsulated_linear.
    fold (frame_flags skb). rewrite Hhop. reflexivity.
Qed.

(** ** The Replicator *)

Lemma rbr_fwd_total p skb a vid w r :
  br_rbr (w_br w) = Some r →
  ∃ w', rbr_fwd p skb a vid w = Some (tt, w') ∧
        br_rbr (w_br w') = Some r ∧ w_alloc w' = w_alloc w.
Proof.
  intros Hr. destruct (find_node r a) as [adj|] eqn:Ha.
  - rewrite (rbr_fwd_found p skb a vid w r adj Hr Ha). by eexists.
  - rewrite (rbr_fwd_missing p skb a vid w r Hr Ha). by eexists.
Qed.

(** The code's three skips are the specification's survival test. *)
Lemma survives_skip r ingressnick saddr a :
  survives r ingressnick saddr a =
    if negb (VALID_NICK a) || (ingressnick =? a) then false
    else match find_node r a with
         | None => false
         | Some adj =>
             negb match saddr with
                  | Some sa => mac_equal (adjsnpa (rbr_ni adj)) sa
                  | None => false
                  end
         end.
Proof.
  unfold survives, find_node. rewrite (Z.eqb_sym ingressnick a).
  destruct (VALID_NICK a); [|done]. destruct (a =? ingressnick); [done|]. simpl.
  destruct (rbr_nodes r !! a); [|done]. by destruct saddr.
Qed.

(** The adjacency loop, in closed form. *)
Lemma multidest_loop_eq p r skb ingressnick saddr vid free adjs saved nicksaved w :
  br_rbr (w_br w) = Some r →
  multidest_loop p (Some r) skb ingressnick saddr vid free adjs saved nicksaved w =
    (let s := survivors r ingressnick saddr adjs in
     let* ok := forward_copies p skb vid (if nicksaved || negb free then s else tail s) in
     if ok then
       ret (Some (if nicksaved || negb free then (saved, nicksaved)
                  else match s with [] => (saved, nicksaved) | a :: _ => (a, true) end))
     else ret None) w.
Proof.
  revert saved nicksaved w.
  induction adjs as [|a adjs IH]; intros saved nicksaved w Hr.
  { cbn [multidest_loop survivors List.filter]. cbv zeta.
    destruct (nicksaved || negb free); reflexivity. }
  cbn [multidest_loop]. cbv zeta. unfold survivors. cbn [List.filter].
  fold (survivors r ingressnick saddr adjs).
  rewrite survives_skip.
  destruct (negb (VALID_NICK a) || (ingressnick =? a)).
  { by apply IH. }
  unfold bind at 1. rewrite rbr_find_node_Some.
  destruct (find_node r a) as [adj|]; [|by apply IH].
  destruct (match saddr with Some sa => _ | None => false end); cbn [negb].
  { by apply IH. }
  destruct nicksaved, free; cbn [negb andb orb].
  3: { rewrite IH by done. cbn [orb tail]. reflexivity. }
  all: cbn [forward_copies]; unfold bind.
  all: destruct (skb_copy skb w) as [[[skb2|] w1]|] eqn:Hc; [| |done].
  all: try reflexivity.
  all: assert (Hr1 : br_rbr (w_br w1) = Some r) by
    (unfold skb_copy, bind, alloc in Hc; destruct (w_alloc w) as [|[] ?];
     simpl in Hc; inversion Hc; subst; done).
  all: destruct (rbr_fwd_total p skb2 a vid w1 r Hr1) as (w2 & -> & Hr2 & _).
  all: rewrite IH by done; reflexivity.
Qed.

Lemma skb_copy_cases skb w :
  (∃ t, w_alloc w = false :: t ∧
        skb_copy skb w = Some (None, mk_world (w_br w) (w_out w) t)) ∨
  (∃ t, skb_copy skb w =
          Some (Some (set_cloned false
                        (set_frags [] (set_buf (skb_buf skb ++ skb_frags skb) skb))),
                mk_world (w_br w) (w_out w) t) ∧
        (no_alloc_failure w → no_alloc_failure (mk_world (w_br w) (w_out w) t))).
Proof.
  unfold skb_copy, bind, alloc, no_alloc_failure.
  destruct w as [b o [|[] t]]; simpl.
  - right. by exists [].
  - right. exists t. split; [done|]. by inversion 1.
  - left. by exists t.
Qed.

Lemma forward_copies_no_failure p skb vid l w r :
  br_rbr (w_br w) = Some r →
  no_alloc_failure w →
  ∃ w', forward_copies p skb vid l w = Some (true, w') ∧
        br_rbr (w_br w') = Some r ∧ no_alloc_failure w'.
Proof.
  revert w. induction l as [|a l IH]; intros w Hr Hna; [by eexists|].
  cbn [forward_copies]. unfold bind at 1.
  destruct (skb_copy_cases skb w) as [(t & Ht & _)|(t & -> & Hna')].
  { unfold no_alloc_failure in Hna. rewrite Ht in Hna. by inversion Hna. }
  unfold bind at 1.
  match goal with |- context [rbr_fwd p ?c a vid ?w1] =>
    destruct (rbr_fwd_total p c a vid w1 r Hr) as (w2 & -> & Hr2 & Ha2) end.
  apply IH; [done|]. unfold no_alloc_failure in *. rewrite Ha2. by apply Hna'.
Qed.

(** ** Pruning *)

Lemma emitted_refl (P : event → Prop) w w' :
  w_out w' = w_out w → emitted P w w'.
Proof. intros Ho. exists []. by rewrite app_nil_r. Qed.

Lemma emitted_trans (P : event → Prop) w w1 w2 :
  emitted P w w1 → emitted P w1 w2 → emitted P w w2.
Proof.
  intros (e1 & H1 & F1) (e2 & H2 & F2). exists (e1 ++ e2).
  rewrite H2, H1, app_assoc. split; [done|]. by apply Forall_app.
Qed.

Lemma emitted_snoc (P : event → Prop) w w1 evs b t :
  emitted P w w1 → Forall P evs →
  emitted P w (mk_world b (w_out w1 ++ evs) t).
Proof.
  intros H1 H2. apply (emitted_trans P w w1); [done|]. by exists evs.
Qed.

Lemma pruned_tx_quiet r tree ingressnick saddr e :
  tx_frame e = None → pruned_tx r tree ingressnick saddr e.
Proof. intros He skb' Hs. congruence. Qed.

Lemma tx_wf_skb_copy skb :
  tx_wf skb →
  tx_wf (set_cloned false (set_frags [] (set_buf (skb_buf skb ++ skb_frags skb) skb))).
Proof.
  intros [H1 H2]. split; cbn [mac_header skb_data skb_buf set_cloned set_frags set_buf];
    [done|]. rewrite length_app. lia.
Qed.

Lemma tx_wf_fwd_rewrite b adj skb :
  tx_wf skb → tx_wf (fwd_rewrite b adj skb).
Proof.
  intros [H1 H2]. unfold tx_wf, fwd_rewrite, set_h_dest, set_h_source,
    trillhdr_dec_hopcount, set_th_flags, ETH_HLEN, ETH_ALEN, sizeof_trill_hdr in *.
  cbn [skb_buf mac_header set_dev set_buf skb_data]. split; [lia|len_solve].
Qed.

(** Where a forwarded frame is addressed. *)
Lemma h_dest_fwd_event b adj skb vid skb' :
  tx_wf skb →
  tx_frame (fwd_finish_event b (fwd_rewrite b adj skb) vid) = Some skb' →
  h_dest (eth_hdr skb') = adjsnpa (rbr_ni adj).
Proof.
  intros Hwf He.
  destruct (tx_frame_fwd_finish_event b (fwd_rewrite b adj skb) vid) as (s & Hs & Hc).
  rewrite Hs in He. inversion He; subst s. clear He.
  destruct Hc as [->|[dst ->]]; [by apply h_dest_fwd_rewrite|].
  rewrite h_dest_set_h_source; [by apply h_dest_fwd_rewrite|].
  destruct (tx_wf_fwd_rewrite b adj skb Hwf) as [H1 H2].
  unfold ETH_HLEN, sizeof_trill_hdr in *. lia.
Qed.

Lemma survives_inv r ingressnick sa a :
  survives r ingressnick (Some sa) a = true →
  a ≠ ingressnick ∧
  ∃ adj, find_node r a = Some adj ∧ rbr_nodes r !! a = Some adj ∧
         adjsnpa (rbr_ni adj) ≠ sa.
Proof.
  unfold survives, find_node. intros Hs.
  destruct (VALID_NICK a); [|done]. destruct (a =? ingressnick) eqn:Hai; [done|].
  apply Z.eqb_neq in Hai. split; [done|].
  destruct (rbr_nodes r !! a) as [adj|]; [|done].
  exists adj. repeat split. simpl in Hs. unfold mac_equal in Hs.
  apply negb_true_iff, bool_decide_eq_false in Hs. done.
Qed.

(** Whatever the Replicator emits is a log line, the release of a buffer,
    or the forwarding of the buffer or of a copy of it to a surviving
    adjacency of the tree. *)
Lemma rbr_fwd_emits (P : event → Prop) p skb a vid w r :
  br_rbr (w_br w) = Some r →
  (∀ e, tx_frame e = None → P e) →
  (∀ b adj, find_node r a = Some adj →
            P (fwd_finish_event b (fwd_rewrite b adj skb) vid)) →
  ∃ w', rbr_fwd p skb a vid w = Some (tt, w') ∧
        br_rbr (w_br w') = Some r ∧ emitted P w w'.
Proof.
  intros Hr Hq Hfwd. destruct (find_node r a) as [adj|] eqn:Ha.
  - rewrite (rbr_fwd_found p skb a vid w r adj Hr Ha).
    eexists. split; [reflexivity|]. split; [done|].
    eexists. split; [reflexivity|].
    apply List.Forall_cons; [by apply Hfwd|apply List.Forall_nil].
  - rewrite (rbr_fwd_missing p skb a vid w r Hr Ha).
    eexists. split; [reflexivity|]. split; [done|].
    eexists. split; [reflexivity|].
    repeat (apply List.Forall_cons; [by apply Hq|]). apply List.Forall_nil.
Qed.

Lemma forward_copies_emits (P : event → Prop) p skb vid l w r :
  br_rbr (w_br w) = Some r →
  (∀ e, tx_frame e = None → P e) →
  (∀ b a adj, a ∈ l → find_node r a = Some adj →
     P (fwd_finish_event b
          (fwd_rewrite b adj
             (set_cloned false
                (set_frags [] (set_buf (skb_buf skb ++ skb_frags skb) skb)))) vid)) →
  ∃ ok w', forward_copies p skb vid l w = Some (ok, w') ∧
           br_rbr (w_br w') = Some r ∧ emitted P w w'.
Proof.
  intros Hr Hq. revert w Hr. induction l as [|a l IH]; intros w Hr Hfwd.
  { eexists _, _. split; [reflexivity|]. split; [done|]. by apply emitted_refl. }
  cbn [forward_copies]. unfold bind at 1.
  destruct (skb_copy_cases skb w) as [(t & _ & ->)|(t & -> & _)].
  - eexists _, _. split; [reflexivity|]. cbn. split; [done|].
    eexists. split; [reflexivity|].
    apply List.Forall_cons; [by apply Hq|apply List.Forall_nil].
  - unfold bind at 1.
    match goal with |- context [rbr_fwd p ?c a vid ?w1] =>
      destruct (rbr_fwd_emits P p c a vid w1 r Hr Hq) as (w2 & -> & Hr2 & He2) end.
    { intros b adj Ha. apply (Hfwd b a adj); [apply list_elem_of_here|done]. }
    destruct (IH w2 Hr2) as (ok & w3 & -> & Hr3 & He3).
    { intros b a' adj Ha' Hadj. apply (Hfwd b a' adj); [by apply list_elem_of_further|done]. }
    eexists _, _. split; [reflexivity|]. split; [done|].
    apply (emitted_trans _ _ w2); [|done].
    destruct He2 as (evs & Ho & Hf). by exists evs.
Qed.

Lemma rbr_multidest_fwd_emits (P : event → Prop) p skb egressnick ingressnick saddr vid
    free w r :
  br_rbr (w_br w) = Some r →
  (∀ e, tx_frame e = None → P e) →
  (∀ b a adj c,
     a ∈ survivors r ingressnick saddr (tree_adjacencies r egressnick) →
     find_node r a = Some adj →
     c = skb ∨
     c = set_cloned false (set_frags [] (set_buf (skb_buf skb ++ skb_frags skb) skb)) →
     P (fwd_finish_event b (fwd_rewrite b adj c) vid)) →
  ∃ rc w', rbr_multidest_fwd (Some p) skb egressnick ingressnick saddr vid free w
             = Some (rc, w') ∧
           br_rbr (w_br w') = Some r ∧
           emitted P w w'.
Proof.
  intros Hr Hq Hfwd. unfold rbr_multidest_fwd. cbv beta iota zeta.
  unfold bind at 1, get_br. cbv beta iota zeta. rewrite Hr.
  unfold bind at 1. rewrite rbr_find_node_Some. unfold tree_adjacencies in Hfwd.
  destruct (find_node r egressnick) as [dest|].
  2: { eexists _, _. split; [reflexivity|]. cbn. repeat split; [done|].
       eexists [_; _]. split; [by rewrite <- app_assoc|].
       repeat (apply List.Forall_cons; [by apply Hq|]); apply List.Forall_nil. }
  unfold bind at 1. rewrite multidest_loop_eq by done. cbv zeta. cbn [orb].
  set (s := survivors r ingressnick saddr (adjnicks (rbr_ni dest))) in *.
  assert (Hsub : ∀ a, a ∈ (if negb free then s else tail s) → a ∈ s).
  { intros a. destruct free; cbn [negb]; [|done]. destruct s; [done|]. cbn [tail]. by apply list_elem_of_further. }
  unfold bind at 1.
  destruct (forward_copies_emits P p skb vid (if negb free then s else tail s) w r Hr Hq)
    as (ok & w1 & -> & Hr1 & He1).
  { intros b a adj Ha Hadj. apply (Hfwd b a adj); [by apply Hsub|done|by right]. }
  destruct ok; cbn [ret].
  2: { eexists _, _. split; [reflexivity|]. cbn. split; [done|].
       apply (emitted_snoc _ _ w1); [done|].
       repeat (apply List.Forall_cons; [by apply Hq|]); apply List.Forall_nil. }
  destruct free; cbn [negb].
  - destruct s as [|a s'] eqn:Es.
    + eexists _, _. split; [reflexivity|]. cbn. split; [done|].
      apply (emitted_snoc _ _ w1); [done|].
      repeat (apply List.Forall_cons; [by apply Hq|]); apply List.Forall_nil.
    + unfold bind at 1.
      destruct (rbr_fwd_emits P p skb a vid w1 r Hr1 Hq) as (w2 & -> & Hr2 & He2).
      { intros b adj Hadj. apply (Hfwd b a adj); [apply list_elem_of_here|done|by left]. }
      eexists _, _. split; [reflexivity|]. split; [done|].
      by apply (emitted_trans _ _ w1).
  - eexists _, _. split; [reflexivity|]. cbn. split; [done|].
    apply (emitted_snoc _ _ w1); [done|].
    repeat (apply List.Forall_cons; [by apply Hq|]); apply List.Forall_nil.
Qed.

(** The Replicator respects the pruning, whatever the allocator does. *)
Lemma rbr_multidest_fwd_pruned p skb egressnick ingressnick sa vid free w r :
  br_rbr (w_br w) = Some r →
  tx_wf skb →
  ∃ rc w', rbr_multidest_fwd (Some p) skb egressnick ingressnick (Some sa) vid free w
             = Some (rc, w') ∧
           br_rbr (w_br w') = Some r ∧
           emitted (pruned_tx r (tree_adjacencies r egressnick) ingressnick sa) w w'.
Proof.
  intros Hr Hwf. apply rbr_multidest_fwd_emits; [done| |].
  { intros e He. by apply pruned_tx_quiet. }
  intros b a adj c Ha Hadj Hc skb' He.
  apply list_elem_of_In, filter_In in Ha as [Ha Hs]. apply list_elem_of_In in Ha.
  destruct (survives_inv _ _ _ _ Hs) as (Hne & adj' & Hfind & Hnode & Hsnpa).
  assert (adj' = adj) as -> by congruence.
  assert (Hwfc : tx_wf c) by (destruct Hc as [->| ->]; [done|by apply tx_wf_skb_copy]).
  pose proof (h_dest_fwd_event _ _ _ _ _ Hwfc He) as Hd.
  split; [congruence|]. by exists a, adj.
Qed.

Lemma recv_drop_emitted (P : event → Prop) port skb w :
  (∀ e, tx_frame e = None → P e) →
  ∃ w', recv_drop (Some port) skb w = Some (tt, w') ∧ emitted P w w'.
Proof.
  intros HP. eexists. split; [reflexivity|]. eexists [_]. split; [reflexivity|].
  apply List.Forall_cons; [by apply HP|apply List.Forall_nil].
Qed.

Lemma printk_recv_drop_emitted (P : event → Prop) port skb msg w :
  (∀ e, tx_frame e = None → P e) →
  ∃ w', (printk msg >> recv_drop (Some port) skb) w = Some (tt, w') ∧ emitted P w w'.
Proof.
  intros HP. eexists. split; [reflexivity|]. eexists [_; _].
  split; [cbn; by rewrite <- app_assoc|].
  repeat (apply List.Forall_cons; [by apply HP|]). apply List.Forall_nil.
Qed.

Lemma recv_checked_multidest_pruned w skbm port r flags trhsize src trh vid :
  br_rbr (w_br w) = Some r →
  tx_wf skbm →
  (sizeof_trill_hdr ≤ trhsize)%nat →
  (sizeof_trill_hdr + ETH_HLEN ≤ skb_headlen skbm)%nat →
  trill_get_multidest flags ≠ 0 →
  ∃ w', recv_checked port (Some r) skbm flags trhsize src trh vid w = Some (tt, w') ∧
        emitted (pruned_tx r (tree_adjacencies r (th_egressnick trh))
                   (th_ingressnick trh) src) w w'.
Proof.
  intros Hr Hwf Hsz Hlen Hmd. unfold recv_checked.
  set (P := pruned_tx r (tree_adjacencies r (th_egressnick trh)) (th_ingressnick trh) src).
  assert (HP : ∀ e, tx_frame e = None → P e) by (intros e He; by apply pruned_tx_quiet).
  destruct (_ || _); [by apply printk_recv_drop_emitted|].
  destruct (negb _); [by apply printk_recv_drop_emitted|].
  unfold bind at 1. cbn [lift ret].
  destruct (_ =? nick r); [by apply printk_recv_drop_emitted|].
  destruct (negb _); [by apply printk_recv_drop_emitted|].
  rewrite (proj2 (Z.eqb_neq _ _) Hmd).
  unfold bind at 1. rewrite rbr_find_node_Some.
  destruct (find_node r _) as [dest|]; [|by apply printk_recv_drop_emitted].
  unfold bind at 1.
  destruct (recv_adj_loop_total r src (adjnicks (rbr_ni dest)) 0 w) as [idx ->].
  destruct (decide _); [by apply printk_recv_drop_emitted|].
  unfold bind at 1. rewrite rbr_find_node_Some.
  destruct (find_node r _) as [source_node|]; [|by apply printk_recv_drop_emitted].
  destruct (_ && _); [by apply recv_drop_emitted|].
  destruct (_ =? 0); [by apply printk_recv_drop_emitted|].
  unfold bind at 1, skb_clone. unfold bind at 1, alloc.
  destruct (w_alloc w) as [|[] t] eqn:Ht; cbn [ret].
  3: { eexists. split; [reflexivity|]. eexists [_; _].
       split; [cbn; by rewrite <- app_assoc|].
       repeat (apply List.Forall_cons; [by apply HP|]). apply List.Forall_nil. }
  all: unfold bind at 1.
  all: match goal with |- context [rbr_multidest_fwd _ ?s ?eg ?ig _ _ _ ?w1] =>
         destruct (rbr_multidest_fwd_pruned port s eg ig src vid false w1 r)
           as (rc & w2 & -> & Hr2 & He2); [done|by destruct Hwf|] end.
  all: destruct (negb (rc =? 0)).
  all: try (destruct (recv_drop_emitted P port (set_cloned true skbm) w2 HP)
              as (w3 & -> & He3); eexists; split; [reflexivity|];
            apply (emitted_trans _ _ w2); [|done];
            destruct He2 as (evs & Ho & Hf); by exists evs).
  all: rewrite rbr_decaps_ok by done.
  all: eexists; (split; [reflexivity|]).
  all: apply (emitted_snoc _ _ w2);
         [destruct He2 as (evs & Ho & Hf); by exists evs|].
  all: apply List.Forall_cons; [|apply List.Forall_nil].
  all: apply HP; unfold decap_finish_event; by destruct (br_fdb_get _ _ _).
Qed.

(** Claim C6. For a multi-destination frame received from outer source MAC
    address S with ingress nickname I, every frame rbr_recv hands to the
    fabric is addressed to an adjacency of the distribution tree whose
    nickname is not I, and its outer destination MAC address is not S. *)
Theorem rbr_recv_multidest_pruned w skb vid port r :
  br_port_get_rcu (w_br w) (skb_dev skb) = Some port →
  br_rbr (w_br w) = Some r →
  skb_wf skb →
  (mac_header skb + ETH_HLEN ≤ skb_data skb)%nat →
  trill_get_multidest (frame_flags skb) ≠ 0 →
  ∃ w', rbr_recv skb vid w = Some (tt, w') ∧
        emitted (pruned_tx r (tree_adjacencies r (frame_egress skb))
                   (frame_ingress skb) (h_source (eth_hdr skb))) w w'.
Proof.
  intros Hport Hr Hwf Hmh Hmd.
  destruct (rbr_recv_front w skb vid port Hport Hwf)
    as [(w' & Hrun & Hb & logs & skb' & Ho & Hlogs & _)
       | (skb1 & w1 & Hmac & Hb & Ho & Hpay & Hdata & Hmh1 & Hlen & Heq)].
  { exists w'. split; [done|]. exists (logs ++ [Ev_kfree_skb skb']). split; [done|].
    apply Forall_app. split; [|apply List.Forall_cons; [by apply pruned_tx_quiet|apply List.Forall_nil]].
    eapply Forall_impl; [exact Hlogs|]. intros [] He; done. }
  rewrite Heq, Hr.
  assert (Hl6 : (sizeof_trill_hdr ≤ skb_headlen skb1)%nat)
    by (unfold frame_trhsize in Hlen; lia).
  destruct (linear_nicks skb1 skb Hpay Hl6) as [<- <-].
  assert (Hlen20 : (sizeof_trill_hdr + ETH_HLEN ≤ skb_headlen skb1)%nat)
    by (unfold frame_trhsize in Hlen; lia).
  destruct (recv_checked_multidest_pruned w1 (mark_encapsulated skb1) port r
              (frame_flags skb) (frame_trhsize skb) (h_source (eth_hdr skb))
              (skb_linear skb1) vid) as (w' & Hrun & Hem); try done.
  - by rewrite Hb.
  - unfold tx_wf, mark_encapsulated, skb_headlen, sizeof_trill_hdr, ETH_HLEN in *.
    destruct (encapsulation skb1); simpl; lia.
  - unfold frame_trhsize. lia.
  - rewrite <- length_skb_linear, mark_encapsulated_linear, length_skb_linear. done.
  - exists w'. split; [done|]. destruct Hem as (evs & Ho' & Hf). exists evs.
    by rewrite Ho', Ho.
Qed.

(** ** Enabling and disabling *)

Lemma br_trill_stop_disabled w :
  ∃ w', br_trill_stop w = Some (tt, w') ∧
        trill_enabled (w_br w') = BR_NO_TRILL ∧ br_rbr (w_br w') = None.
Proof.
  unfold br_trill_stop, bind, upd_br, get_br. cbn.
  destruct (br_rbr (w_br w)); by eexists.
Qed.

Lemma br_trill_start_total w :
  ∃ w', br_trill_start w = Some (tt, w').
Proof.
  unfold br_trill_start, br_stp_stop, add_rbr, bind, upd_br, get_br, emit, alloc, printk.
  cbn. destruct (decide _); cbn; destruct (br_rbr (w_br w)); cbn;
    try (destruct (w_alloc w) as [|[] ?]; cbn); by eexists.
Qed.

(** Claim C9. br_trill_set_enabled is idempotent: asking for the state the
    bridge is in already returns at once and changes nothing; add_rbr on a
    bridge that has its RBridge state returns that state and allocates
    nothing; and calling br_trill_set_enabled a second time with the same
    value leaves the bridge as the first call left it. *)
Theorem br_trill_set_enabled_idempotent w val :
  ((val ≠ 0 ↔ trill_enabled (w_br w) ≠ BR_NO_TRILL) →
   br_trill_set_enabled val w = Some (tt, w)) ∧
  (∀ r, br_rbr (w_br w) = Some r → add_rbr w = Some (Some r, w)) ∧
  ∃ w1, br_trill_set_enabled val w = Some (tt, w1) ∧
        (val = 0 ∨ trill_enabled (w_br w1) ≠ BR_NO_TRILL →
         br_trill_set_enabled val w1 = Some (tt, w1)).
Proof.
  assert (Hnoop : ∀ w0, (val ≠ 0 ↔ trill_enabled (w_br w0) ≠ BR_NO_TRILL) →
                        br_trill_set_enabled val w0 = Some (tt, w0)).
  { intros w0 Hsame. unfold br_trill_set_enabled. unfold bind at 1, get_br. cbv beta iota.
    destruct (val =? 0) eqn:Hv; cbn [negb].
    - apply Z.eqb_eq in Hv. destruct (decide _) as [Hen|_]; [|done].
      apply Hsame in Hen. done.
    - apply Z.eqb_neq in Hv. destruct (decide _) as [Hdis|_]; [|done].
      apply Hsame in Hv. done. }
  split; [apply Hnoop|].
  split.
  { intros r Hr. unfold add_rbr, bind, get_br. by rewrite Hr. }
  unfold br_trill_set_enabled at 1. unfold bind at 1, get_br. cbv beta iota.
  destruct (val =? 0) eqn:Hv; cbn [negb].
  - apply Z.eqb_eq in Hv. destruct (decide _) as [Hen|Hdis].
    + destruct (br_trill_stop_disabled w) as (w1 & -> & Hoff & _).
      exists w1. split; [done|]. intros _. apply Hnoop. rewrite Hoff. split; done.
    + exists w. split; [done|]. intros _. apply Hnoop. split; [done|]. intros ?. done.
  - apply Z.eqb_neq in Hv. destruct (decide _) as [Hdis|Hen].
    + destruct (br_trill_start_total w) as (w1 & ->).
      exists w1. split; [done|]. intros [?|Hon]; [done|]. apply Hnoop. split; done.
    + exists w. split; [done|]. intros _. apply Hnoop. split; done.
Qed.

(** ** The Encapsulator *)

Lemma bind_inv {A B} (m : M (F:=F) A) (k : A → M (F:=F) B) w r :
  bind m k w = Some r → ∃ a w1, m w = Some (a, w1) ∧ k a w1 = Some r.
Proof.
  unfold bind. destruct (m w) as [[a w1]|]; [|done]. intros Hk. by exists a, w1.
Qed.

Lemma lift_inv {A} (o : option A) w a w' :
  lift (F:=F) o w = Some (a, w') → o = Some a ∧ w' = w.
Proof. destruct o; [|done]. cbn. by inversion 1. Qed.

Lemma skb_push_inv n skb skb' :
  skb_push n skb = Some skb' →
  (n ≤ skb_data skb)%nat ∧ skb' = set_data (skb_data skb - n)%nat skb.
Proof. unfold skb_push. destruct (decide _); [|done]. by inversion 1. Qed.

Lemma skb_cow_head_inv n skb w ok skb' w' :
  skb_cow_head n skb w = Some ((ok, skb'), w') →
  skb_wf skb →
  w_br w' = w_br w ∧ w_out w' = w_out w ∧
  (ok = false → skb' = skb) ∧
  (ok = true → (n ≤ skb_data skb')%nat) ∧
  skb_linear skb' = skb_linear skb ∧
  skb_frags skb' = skb_frags skb ∧
  skb_wf skb' ∧
  encapsulation skb' = encapsulation skb ∧
  vlan_proto skb' = vlan_proto skb ∧
  vlan_tci skb' = vlan_tci skb.
Proof.
  unfold skb_cow_head, skb_headroom, skb_wf. intros Hrun Hwf.
  destruct (negb _ || _) eqn:Hneed.
  - unfold bind, alloc in Hrun. destruct (w_alloc w) as [|[] t]; cbn in Hrun;
      inversion Hrun; subst; clear Hrun; cbn; repeat split; try done.
    all: try (intros _; pose proof (ALIGN_ge (n - skb_data skb)); lia).
    all: try (unfold skb_linear; cbn;
              rewrite drop_app_ge by (rewrite length_replicate; lia);
              rewrite length_replicate; f_equal; lia).
    all: rewrite length_app, length_replicate; lia.
  - cbn in Hrun. inversion Hrun; subst; clear Hrun. repeat split; try done.
    intros _. apply orb_false_iff in Hneed as [Hd _].
    apply negb_false_iff, Nat.eqb_eq in Hd. lia.
Qed.

Lemma rbr_encaps_unfold skb ingressnick egressnick multidest :
  rbr_encaps TRILL_DEFAULT_HOPS skb ingressnick egressnick multidest =
    (let* skb := lift (skb_push ETH_HLEN skb) in
     let skb := if negb (encapsulation skb)
                then set_encapsulation true (skb_reset_inner_headers skb)
                else skb in
     match br_vlan_get_tag skb with
     | Some vlan_tci =>
         let* '(ok, skb) := vlan_insert_tag skb (vlan_proto skb) vlan_tci in
         if negb ok then printk "rbr_encaps: vlan_put_tag failed" >> ret (true, skb)
         else encaps_after_vlan (F:=F) TRILL_DEFAULT_HOPS ingressnick egressnick
                multidest (set_vlan 0 0 skb)
     | None =>
         encaps_after_vlan TRILL_DEFAULT_HOPS ingressnick egressnick multidest skb
     end).
Proof. reflexivity. Qed.

Lemma encaps_after_vlan_inv A B m skb w res w' :
  skb_wf skb →
  encaps_after_vlan TRILL_DEFAULT_HOPS A B m skb w = Some (res, w') →
  w_br w' = w_br w ∧
  (res.1 = true →
   w_out w' = w_out w ++ [Ev_printk "rbr_encaps: cow_head failed"] ∧ res.2 = skb) ∧
  (res.1 = false →
   w_out w' = w_out w ∧
   skb_linear res.2 =
     trill_hdr_bytes (encaps_flags TRILL_DEFAULT_HOPS m) B A ++ skb_linear skb ∧
   skb_frags res.2 = skb_frags skb ∧
   (mac_header res.2 + ETH_HLEN = skb_data res.2)%nat ∧
   skb_wf res.2 ∧
   encapsulation res.2 = encapsulation skb ∧
   vlan_tci res.2 = vlan_tci skb).
Proof.
  intros Hwf Hrun. unfold encaps_after_vlan in Hrun.
  apply bind_inv in Hrun as ([ok s4] & w4 & Hcow & Hrun).
  destruct (skb_cow_head_inv _ _ _ _ _ _ Hcow Hwf)
    as (Hb4 & Ho4 & Hfail & Hroom & Hlin4 & Hfr4 & Hwf4 & Henc4 & Hvp4 & Hvt4).
  destruct ok; cbn [negb] in Hrun.
  2: { cbn in Hrun. inversion Hrun; subst; clear Hrun. cbn.
       split; [done|]. split; [|done]. intros _. rewrite Ho4, Hfail; done. }
  specialize (Hroom eq_refl). unfold sizeof_trill_hdr, ETH_HLEN, skb_wf in *.
  apply bind_inv in Hrun as (s5 & w5 & Hp5 & Hrun).
  apply lift_inv in Hp5 as [Hp5 ->]. apply skb_push_inv in Hp5 as [_ ->].
  cbv zeta in Hrun.
  apply bind_inv in Hrun as (s7 & w7 & Hp7 & Hrun).
  apply lift_inv in Hp7 as [Hp7 ->]. apply skb_push_inv in Hp7 as [_ ->].
  apply bind_inv in Hrun as (s10 & w10 & Hp10 & Hrun).
  apply lift_inv in Hp10 as [Hp10 ->].
  cbn in Hrun. inversion Hrun; subst res w'; clear Hrun.
  cbn [fst snd]. split; [done|]. split; [done|]. intros _. split; [done|].
  revert Hp10. unfold skb_pull, skb_len, skb_headlen, set_th_ingressnick, set_th_egressnick,
    set_th_flags, set_h_proto, skb_reset_mac_header.
  cbn [skb_buf skb_data skb_frags set_buf set_data set_mac_header mac_header].
  set (d := skb_data s4) in *. set (buf := skb_buf s4) in *.
  fold (encaps_flags TRILL_DEFAULT_HOPS m).
  set (fl := be16_bytes (encaps_flags TRILL_DEFAULT_HOPS m)).
  set (eg := be16_bytes B). set (ig := be16_bytes A).
  replace (d - 6 - 14 + 12)%nat with (d - 8)%nat by lia.
  set (buf6 := buf_write (d - 6 + 4) ig (buf_write (d - 6 + 2) eg (buf_write (d - 6) fl buf))).
  assert (Hl6 : length buf6 = length buf).
  { unfold buf6, fl, eg, ig. len_solve. }
  assert (Hl9 : length (buf_write (d - 8) (be16_bytes ETH_P_TRILL) buf6) = length buf).
  { rewrite length_buf_write; [done|]. cbn [length be16_bytes]. lia. }
  rewrite Hl9.
  destruct (decide _) as [?|_]; [lia|]. destruct (decide _) as [_|?]; [|lia].
  intros Hp10. inversion Hp10; subst s10; clear Hp10.
  unfold skb_linear, skb_wf, skb_reset_mac_len.
  cbn [skb_buf skb_data skb_frags set_buf set_data set_mac_header mac_header set_mac_len
       encapsulation vlan_tci].
  replace (d - 6 - 14 + 14)%nat with (d - 6)%nat by lia.
  repeat split; try done; try lia.
  rewrite drop_buf_write_before by (cbn [length be16_bytes]; lia).
  unfold buf6.
  rewrite !drop_buf_write_in by (unfold fl, eg, ig; len_solve).
  rewrite <- (Nat.add_0_r (d - 6)) at 2.
  rewrite drop_buf_write_in by (unfold fl, eg, ig; len_solve).
  destruct (drop_split_before buf d 6) as (x & Hx & ->); [lia|lia|].
  rewrite trill_hdr_write by done.
  unfold trill_hdr_bytes. fold fl eg ig. unfold skb_linear in Hlin4. fold d buf in Hlin4.
  rewrite Hlin4, <- !app_assoc. done.
Qed.


Lemma vlan_insert_tag_inv skb proto tci w ok skb' w' :
  skb_wf skb →
  (2 * ETH_ALEN ≤ skb_headlen skb)%nat →
  vlan_insert_tag skb proto tci w = Some ((ok, skb'), w') →
  w_br w' = w_br w ∧
  (ok = false → w_out w' = w_out w ++ [Ev_kfree_skb skb] ∧ skb' = skb) ∧
  (ok = true →
   w_out w' = w_out w ∧
   skb_linear skb' = vlan_tagged proto tci (skb_linear skb) ∧
   skb_frags skb' = skb_frags skb ∧
   skb_wf skb' ∧
   encapsulation skb' = encapsulation skb).
Proof.
  intros Hwf Hlen Hrun. unfold vlan_insert_tag in Hrun.
  apply bind_inv in Hrun as ([ok0 s3] & w3 & Hcow & Hrun).
  destruct (skb_cow_head_inv _ _ _ _ _ _ Hcow Hwf)
    as (Hb3 & Ho3 & Hfail & Hroom & Hlin3 & Hfr3 & Hwf3 & Henc3 & _).
  destruct ok0; cbn [negb] in Hrun.
  2: { cbn in Hrun. inversion Hrun; subst; clear Hrun. cbn.
       split; [done|]. split; [|done]. intros _. rewrite Ho3, Hfail; done. }
  specialize (Hroom eq_refl).
  apply bind_inv in Hrun as (s3p & w3p & Hp & Hrun).
  apply lift_inv in Hp as [Hp ->]. apply skb_push_inv in Hp as [_ ->].
  cbn in Hrun. inversion Hrun; subst ok skb' w'; clear Hrun.
  split; [done|]. split; [done|]. intros _. split; [done|].
  rewrite <- length_skb_linear, <- Hlin3 in Hlen.
  unfold skb_wf, skb_headlen, VLAN_HLEN, ETH_ALEN in *.
  unfold vlan_tag_write, skb_linear, vlan_tagged, skb_wf, ETH_ALEN in *.
  cbn [skb_buf skb_data skb_frags set_buf set_data set_mac_header mac_header encapsulation].
  set (d := skb_data s3) in *. set (buf := skb_buf s3) in *.
  rewrite <- Hlin3.
  destruct (drop_split_before buf d 4) as (x & Hx & Hsplit); [lia|lia|].
  rewrite Hsplit. rewrite (drop_app_length' x) by done.
  set (L := drop d buf) in *.
  assert (HL : (12 ≤ length L)%nat).
  { lia. }
  assert (Hlx : length (x ++ L) = (length buf - (d - 4))%nat).
  { rewrite <- Hsplit. apply length_drop. }
  rewrite length_app in Hlx.
  set (macs := take (2 * 6) L).
  assert (Hm : length macs = 12%nat) by (unfold macs; rewrite length_take; lia).
  repeat split; try done.
  - replace (d - 4 + 2 * 6 + 2)%nat with (d - 4 + 14)%nat by lia.
    replace (d - 4 + 2 * 6)%nat with (d - 4 + 12)%nat by lia.
    rewrite !drop_buf_write_in by len_solve.
    rewrite <- (Nat.add_0_r (d - 4)) at 2.
    rewrite drop_buf_write_in by len_solve.
    rewrite Hsplit. unfold macs. change (2 * 6)%nat with 12%nat.
    by rewrite vlan_tag_write_bytes.
  - len_solve.
Qed.

Lemma br_vlan_get_tag_tci skb skb' :
  vlan_tci skb' = vlan_tci skb → br_vlan_get_tag skb' = br_vlan_get_tag skb.
Proof.
  intros Ht. unfold br_vlan_get_tag, vlan_tx_tag_present, vlan_tx_tag_get. by rewrite Ht.
Qed.


Lemma vlan_tagged_app proto tci (lin frags : list Z) :
  (2 * ETH_ALEN ≤ length lin)%nat →
  vlan_tagged proto tci (lin ++ frags) = vlan_tagged proto tci lin ++ frags.
Proof.
  intros Hl. unfold vlan_tagged.
  rewrite take_app_le, drop_app_le by done. by rewrite <- !app_assoc.
Qed.

Lemma silent_printk msg : silent (Ev_printk msg).
Proof. done. Qed.
Lemma silent_kfree skb : silent (Ev_kfree_skb skb).
Proof. done. Qed.

(** What rbr_encaps returns, and what it leaves in the trace. *)
Lemma rbr_encaps_inv skb A B m w failed skb_enc w' :
  skb_wf skb →
  rbr_encaps TRILL_DEFAULT_HOPS skb A B m w = Some ((failed, skb_enc), w') →
  (ETH_HLEN ≤ skb_data skb)%nat ∧
  w_br w' = w_br w ∧
  emitted silent w w' ∧
  (failed = false →
   w_out w' = w_out w ∧
   skb_payload skb_enc =
     trill_hdr_bytes (encaps_flags TRILL_DEFAULT_HOPS m) B A ++ encaps_inner skb ∧
   (sizeof_trill_hdr + ETH_HLEN ≤ skb_headlen skb_enc)%nat ∧
   (mac_header skb_enc + ETH_HLEN = skb_data skb_enc)%nat ∧
   skb_wf skb_enc ∧
   encapsulation skb_enc = true).
Proof.
  intros Hwf Hrun. rewrite rbr_encaps_unfold in Hrun.
  apply bind_inv in Hrun as (s1 & w1 & Hp & Hrun).
  apply lift_inv in Hp as [Hp ->]. apply skb_push_inv in Hp as [Hroom ->].
  cbv zeta in Hrun.
  set (s2 := if negb _ then _ else _) in Hrun.
  assert (Hlin2 : skb_linear s2 = inner_linear skb).
  { unfold s2. by destruct (negb _). }
  assert (Hfr2 : skb_frags s2 = skb_frags skb).
  { unfold s2. by destruct (negb _). }
  assert (Hwf2 : skb_wf s2).
  { unfold s2, skb_wf in *. destruct (negb _); cbn; lia. }
  assert (Henc2 : encapsulation s2 = true).
  { unfold s2. destruct (encapsulation _) eqn:He; cbn; done. }
  assert (Htag2 : br_vlan_get_tag s2 = br_vlan_get_tag skb).
  { apply br_vlan_get_tag_tci. unfold s2. by destruct (negb _). }
  assert (Hvp2 : vlan_proto s2 = vlan_proto skb).
  { unfold s2. by destruct (negb _). }
  assert (Hl14 : (ETH_HLEN ≤ length (inner_linear skb))%nat).
  { unfold inner_linear, skb_wf, ETH_HLEN in *. rewrite length_drop. lia. }
  assert (Hfinish : ∀ s3 (wa : world F) res (wb : world F),
    skb_wf s3 → encapsulation s3 = true → skb_frags s3 = skb_frags skb →
    skb_linear s3 ++ skb_frags skb = encaps_inner skb →
    (ETH_HLEN ≤ skb_headlen s3)%nat →
    encaps_after_vlan TRILL_DEFAULT_HOPS A B m s3 wa = Some (res, wb) →
    w_br wb = w_br wa ∧ emitted silent wa wb ∧
    (res.1 = false →
     w_out wb = w_out wa ∧
     skb_payload res.2 =
       trill_hdr_bytes (encaps_flags TRILL_DEFAULT_HOPS m) B A ++ encaps_inner skb ∧
     (sizeof_trill_hdr + ETH_HLEN ≤ skb_headlen res.2)%nat ∧
     (mac_header res.2 + ETH_HLEN = skb_data res.2)%nat ∧
     skb_wf res.2 ∧ encapsulation res.2 = true)).
  { intros s3 wa res wb Hwf3 Henc3 Hfr3 Hin3 Hl3 Htail.
    destruct (encaps_after_vlan_inv A B m s3 wa res wb Hwf3 Htail)
      as (Hb & Hfail & Hok).
    split; [done|]. split.
    - destruct res as [[] ?]; cbn [fst snd] in *.
      + destruct (Hfail eq_refl) as [Ho _]. exists [Ev_printk "rbr_encaps: cow_head failed"].
        split; [done|]. apply List.Forall_cons; [apply silent_printk|apply List.Forall_nil].
      + destruct (Hok eq_refl) as [Ho _]. by apply emitted_refl.
    - intros Hres. destruct (Hok Hres) as (Ho & Hlin & Hfr & Hmh & Hwfr & Hencr & _).
      repeat split; try done.
      + unfold skb_payload. rewrite Hlin, Hfr, Hfr3, <- app_assoc, Hin3. done.
      + rewrite <- length_skb_linear, Hlin, length_app. rewrite <- length_skb_linear in Hl3.
        unfold trill_hdr_bytes, sizeof_trill_hdr. cbn [length be16_bytes app]. lia.
      + congruence. }
  rewrite Htag2 in Hrun. unfold encaps_inner in Hfinish.
  destruct (br_vlan_get_tag skb) as [tci|] eqn:Htag.
  - apply bind_inv in Hrun as ([ok s3] & w3 & Hvlan & Hrun).
    destruct (vlan_insert_tag_inv s2 (vlan_proto s2) tci w ok s3 w3 Hwf2) as (Hb3 & Hfail & Hok);
      [rewrite <- length_skb_linear, Hlin2; unfold ETH_HLEN, ETH_ALEN in *; lia|done|].
    destruct ok; cbn [negb] in Hrun.
    + destruct (Hok eq_refl) as (Ho3 & Hlin3 & Hfr3 & Hwf3 & Henc3).
      destruct (Hfinish (set_vlan 0 0 s3) w3 (failed, skb_enc) w') as (Hb' & Hem' & Hres');
        try done.
      * cbn [encapsulation set_vlan]. congruence.
      * cbn [skb_frags set_vlan]. congruence.
      * unfold skb_linear in *. cbn [skb_buf skb_data set_vlan]. rewrite Hlin3, Hlin2, Hvp2.
        unfold inner_frame. rewrite vlan_tagged_app; [done|].
        unfold ETH_HLEN, ETH_ALEN in *. lia.
      * rewrite <- length_skb_linear. unfold skb_linear in *.
        cbn [skb_buf skb_data set_vlan]. rewrite Hlin3, Hlin2.
        unfold vlan_tagged, ETH_HLEN, ETH_ALEN in *.
        rewrite !length_app, length_take, length_drop. cbn [length be16_bytes]. lia.
      * split; [done|]. split; [congruence|]. split.
        { destruct Hem' as (evs & Ho' & Hf). exists evs. by rewrite Ho', Ho3. }
        intros Hf. destruct (Hres' Hf) as (Ho' & ?). unfold encaps_inner. rewrite Htag.
        split; [congruence|done].
    + cbn in Hrun. inversion Hrun; subst failed skb_enc w'; clear Hrun.
      destruct (Hfail eq_refl) as [Ho3 ->]. cbn. split; [done|]. split; [done|].
      split; [|done].
      exists [Ev_kfree_skb s2; Ev_printk "rbr_encaps: vlan_put_tag failed"].
      split; [by rewrite Ho3, <- app_assoc|].
      repeat (apply List.Forall_cons; [done|]). apply List.Forall_nil.
  - destruct (Hfinish s2 w (failed, skb_enc) w') as (Hb' & Hem' & Hres'); try done.
    + by rewrite Hlin2.
    + by rewrite <- length_skb_linear, Hlin2.
    + unfold encaps_inner. rewrite Htag. done.
Qed.

Lemma skb_cow_head_total n skb w :
  ∃ ok skb' w', skb_cow_head n skb w = Some ((ok, skb'), w').
Proof.
  unfold skb_cow_head. destruct (_ || _); [|by eexists _, _, _].
  unfold bind, alloc. destruct (w_alloc w) as [|[] ?]; by eexists _, _, _.
Qed.

Lemma encaps_after_vlan_total A B m skb w :
  skb_wf skb →
  ∃ res w', encaps_after_vlan TRILL_DEFAULT_HOPS A B m skb w = Some (res, w').
Proof.
  intros Hwf. unfold encaps_after_vlan. unfold bind at 1.
  destruct (skb_cow_head_total (sizeof_trill_hdr + ETH_HLEN) skb w)
    as (ok & s4 & w4 & Hcow). rewrite Hcow.
  destruct (skb_cow_head_inv _ _ _ _ _ _ Hcow Hwf)
    as (_ & _ & _ & Hroom & _ & _ & Hwf4 & _).
  destruct ok; cbn [negb]; [|by eexists _, _].
  specialize (Hroom eq_refl). unfold sizeof_trill_hdr, ETH_HLEN, skb_wf in *.
  unfold skb_push at 1. destruct (decide _) as [_|?]; [|lia].
  unfold bind at 1. cbn [lift ret]. cbv zeta.
  unfold skb_push at 1.
  cbn [skb_data set_th_ingressnick set_th_egressnick set_th_flags set_buf set_data].
  destruct (decide _) as [_|?]; [|lia].
  unfold bind at 1. cbn [lift ret].
  unfold skb_pull, skb_len, skb_headlen.
  cbn [skb_buf skb_data skb_frags set_h_proto skb_reset_mac_header set_mac_header
       set_th_ingressnick set_th_egressnick set_th_flags set_buf set_data mac_header].
  match goal with |- context [length (buf_write ?k ?bs ?x)] =>
    assert (Hl : length (buf_write k bs x) = length (skb_buf s4)) by len_solve;
    rewrite Hl end.
  destruct (decide _) as [?|_]; [lia|]. destruct (decide _) as [_|?]; [|lia].
  by eexists _, _.
Qed.

Lemma rbr_encaps_total skb A B m w :
  skb_wf skb →
  (ETH_HLEN ≤ skb_data skb)%nat →
  ∃ res w', rbr_encaps TRILL_DEFAULT_HOPS skb A B m w = Some (res, w').
Proof.
  intros Hwf Hroom. rewrite rbr_encaps_unfold.
  unfold skb_push at 1. destruct (decide _) as [_|?]; [|lia].
  unfold bind at 1. cbn [lift ret]. cbv zeta.
  set (s2 := if negb _ then _ else _).
  assert (Hwf2 : skb_wf s2).
  { unfold s2, skb_wf in *. destruct (negb _); cbn; lia. }
  assert (Hl2 : (ETH_HLEN ≤ length (skb_linear s2))%nat).
  { rewrite length_skb_linear. unfold s2, skb_headlen, skb_wf in *.
    destruct (negb _); cbn; lia. }
  destruct (br_vlan_get_tag s2) as [tci|]; [|by apply encaps_after_vlan_total].
  unfold bind at 1, vlan_insert_tag. unfold bind at 1.
  destruct (skb_cow_head_total VLAN_HLEN s2 w) as (ok & s3 & w3 & Hcow). rewrite Hcow.
  destruct (skb_cow_head_inv _ _ _ _ _ _ Hcow Hwf2)
    as (_ & _ & _ & Hroom3 & Hlin3 & _ & Hwf3 & _).
  destruct ok; cbn [negb]; [|by eexists _, _].
  specialize (Hroom3 eq_refl).
  rewrite <- Hlin3, length_skb_linear in Hl2. unfold skb_headlen, ETH_HLEN in Hl2.
  unfold skb_push at 1. destruct (decide _) as [_|?]; [|lia].
  unfold bind at 1. cbn [lift ret negb].
  apply encaps_after_vlan_total.
  unfold skb_wf, vlan_tag_write, VLAN_HLEN, ETH_ALEN in *.
  cbn [skb_buf skb_data set_vlan set_buf set_data set_mac_header mac_header].
  set (macs := take _ _).
  assert (Hm : length macs = 12%nat).
  { unfold macs, skb_linear. cbn [skb_buf skb_data set_data].
    rewrite length_take, !length_drop. lia. }
  len_solve.
Qed.

(** The root rbr_encaps_prepare computes is the specification's. *)
Lemma dtrNick_flood_root r self :
  (if decide (0 < dtrootcount (rbr_ni self))%nat
   then RBR_NI_DTROOTNICK (rbr_ni self) 0
   else treeroot r) = flood_root r self.
Proof.
  unfold flood_root, dtrootcount, RBR_NI_DTROOTNICK.
  destruct (dtrootnicks (rbr_ni self)); cbn; [done|].
  destruct (decide _); [done|lia].
Qed.

(** rbr_encaps_prepare on the flood path, up to the choice of the root. *)
Lemma rbr_encaps_prepare_flood w skb vid p r self :
  br_port_get_rcu (w_br w) (skb_dev skb) = Some p →
  br_rbr (w_br w) = Some r →
  VALID_NICK (nick r) = true →
  rbr_nodes r !! nick r = Some self →
  rbr_encaps_prepare TRILL_DEFAULT_HOPS skb RBRIDGE_NICKNAME_NONE vid w =
    (if negb (VALID_NICK (flood_root r self)) then
       printk "rbr_encaps_prepare: dtrNick is unvalid" >> encaps_drop (Some p) skb
     else
       let* c := skb_clone skb in
       match c with
       | None =>
           upd_br (λ b, set_tx_dropped (incr (tx_dropped b)) b) >>
           printk "rbr_encaps_prepare: skb_clone failed" >>
           encaps_drop (Some p) skb
       | Some (skb, skb2) =>
           emit (Ev_br_endstation_deliver skb2) >>
           let* '(failed, skb) :=
             rbr_encaps TRILL_DEFAULT_HOPS skb (nick r) (flood_root r self) true in
           if failed then encaps_drop (Some p) skb
           else
             rbr_multidest_fwd (Some p) skb (flood_root r self) (nick r) None vid true >>
             ret tt
       end) w.
Proof.
  intros Hport Hr Hlocal Hself.
  unfold rbr_encaps_prepare. unfold bind at 1, get_br. cbv beta iota zeta.
  rewrite Hport, Hr. change (RBRIDGE_NICKNAME_NONE =? RBRIDGE_NICKNAME_NONE) with true.
  cbn [negb andb]. unfold bind at 1. cbn [lift ret]. rewrite Hlocal. cbn [negb].
  unfold bind at 1. rewrite rbr_find_node_Some. unfold find_node. rewrite Hlocal, Hself.
  rewrite dtrNick_flood_root. reflexivity.
Qed.

Lemma encaps_drop_eq p skb w :
  encaps_drop (Some p) skb w =
    Some (tt, mk_world (set_tx_dropped (incr (tx_dropped (w_br w))) (w_br w))
                (w_out w ++ [Ev_kfree_skb skb]) (w_alloc w)).
Proof. reflexivity. Qed.

Lemma skb_clone_inv skb w skb1 skb2 wc :
  skb_clone skb w = Some (Some (skb1, skb2), wc) →
  skb1 = set_cloned true skb ∧ skb2 = set_cloned true skb ∧
  w_br wc = w_br w ∧ w_out wc = w_out w.
Proof.
  unfold skb_clone, bind, alloc. destruct (w_alloc w) as [|[] t]; cbn;
    intros Hc; inversion Hc; subst; done.
Qed.

(** Claim C10. On the flood path rbr_encaps_prepare hands the local copy
    to end-station delivery before it encapsulates: when rbr_encaps fails
    afterwards, the copy has been delivered all the same, tx_dropped is
    counted once, and nothing else is forwarded or delivered. *)
Theorem flood_local_copy_precedes_encapsulation w skb vid p r self skb1 skb2 wc skb' w2 :
  br_port_get_rcu (w_br w) (skb_dev skb) = Some p →
  br_rbr (w_br w) = Some r →
  VALID_NICK (nick r) = true →
  rbr_nodes r !! nick r = Some self →
  VALID_NICK (flood_root r self) = true →
  skb_wf skb →
  skb_clone skb w = Some (Some (skb1, skb2), wc) →
  rbr_encaps TRILL_DEFAULT_HOPS skb1 (nick r) (flood_root r self) true
    (mk_world (w_br wc) (w_out wc ++ [Ev_br_endstation_deliver skb2]) (w_alloc wc))
    = Some ((true, skb'), w2) →
  ∃ w' evs,
    rbr_encaps_prepare TRILL_DEFAULT_HOPS skb RBRIDGE_NICKNAME_NONE vid w = Some (tt, w') ∧
    w_br w' = set_tx_dropped (incr (tx_dropped (w_br w))) (w_br w) ∧
    w_out w' = w_out w ++ Ev_br_endstation_deliver skb2 :: evs ++ [Ev_kfree_skb skb'] ∧
    Forall silent evs ∧
    skb_frame skb2 = skb_frame skb.
Proof.
  intros Hport Hr Hlocal Hself Hroot Hwf Hclone Henc.
  rewrite (rbr_encaps_prepare_flood w skb vid p r self Hport Hr Hlocal Hself).
  rewrite Hroot. cbn [negb]. unfold bind at 1. rewrite Hclone.
  unfold bind at 1, emit. unfold bind at 1. rewrite Henc.
  rewrite encaps_drop_eq.
  destruct (skb_clone_inv _ _ _ _ _ Hclone) as (-> & -> & Hbc & Hoc).
  assert (Hwf1 : skb_wf (set_cloned true skb)) by exact Hwf.
  pose proof Henc as Hinv. eapply rbr_encaps_inv in Hinv; [|exact Hwf1].
  destruct Hinv as (_ & Hb2 & (evs & Ho2 & Hsil) & _).
  cbn [w_br w_out] in *.
  eexists _, evs. split; [reflexivity|]. cbn [w_br w_out].
  split; [by rewrite Hb2, Hbc|]. split; [|done].
  rewrite Ho2, Hoc, <- !app_assoc. done.
Qed.


Lemma tx_nicks_quiet eg ig e : tx_frame e = None → tx_nicks eg ig e.
Proof. intros He skb' Hs. congruence. Qed.

Lemma tx_nicks_fwd_event b adj c vid eg ig :
  tx_wf c →
  th_egressnick (skb_linear c) = eg →
  th_ingressnick (skb_linear c) = ig →
  tx_nicks eg ig (fwd_finish_event b (fwd_rewrite b adj c) vid).
Proof.
  intros Hwf Heg Hig skb' He.
  destruct (tx_frame_fwd_finish_event b (fwd_rewrite b adj c) vid) as (s & Hs & Hc).
  rewrite Hs in He. inversion He; subst s. clear He.
  destruct (nicks_fwd_rewrite b adj c Hwf) as [He Hi].
  destruct Hc as [->|[dst ->]]; [by rewrite He, Hi|].
  rewrite linear_set_h_source by (by apply tx_wf_fwd_rewrite).
  by rewrite He, Hi.
Qed.

(** The nicknames an encapsulated buffer, or a copy of it, carries. *)
Lemma encaps_nicks skb_enc c fl eg ig inner :
  skb_payload skb_enc = trill_hdr_bytes fl eg ig ++ inner →
  (sizeof_trill_hdr + ETH_HLEN ≤ skb_headlen skb_enc)%nat →
  skb_wf skb_enc →
  is_u16 eg → is_u16 ig →
  c = skb_enc ∨
  c = set_cloned false
        (set_frags [] (set_buf (skb_buf skb_enc ++ skb_frags skb_enc) skb_enc)) →
  th_egressnick (skb_linear c) = eg ∧ th_ingressnick (skb_linear c) = ig.
Proof.
  intros Hpay Hlen Hwf Heg Hig Hc.
  assert (Hlin : ∃ rest, skb_payload skb_enc = skb_linear c ++ rest ∧
                         (sizeof_trill_hdr ≤ length (skb_linear c))%nat).
  { destruct Hc as [->| ->].
    - exists (skb_frags skb_enc). split; [done|]. rewrite length_skb_linear. lia.
    - exists []. unfold skb_linear, skb_payload, skb_wf in *.
      cbn [skb_buf skb_data set_cloned set_frags set_buf].
      rewrite app_nil_r, drop_app_le by done. split; [done|].
      rewrite length_app, length_drop. unfold skb_headlen in Hlen. lia. }
  destruct Hlin as (rest & Hsplit & Hl6). unfold sizeof_trill_hdr in Hl6.
  unfold th_egressnick, th_ingressnick.
  rewrite <- (be16_at_app (skb_linear c) rest 2), <- (be16_at_app (skb_linear c) rest 4) by lia.
  rewrite <- Hsplit, Hpay.
  split; [by apply be16_at_hdr_egress|by apply be16_at_hdr_ingress].
Qed.

(** On the flood path every frame sent to the fabric carries the chosen
    root as its egress nickname and the local nickname as its ingress
    nickname, whatever the allocator does. *)
Lemma rbr_encaps_prepare_flood_nicks w skb vid p r self :
  br_port_get_rcu (w_br w) (skb_dev skb) = Some p →
  br_rbr (w_br w) = Some r →
  VALID_NICK (nick r) = true →
  rbr_nodes r !! nick r = Some self →
  (VALID_NICK (flood_root r self) = false →
   rbr_encaps_prepare TRILL_DEFAULT_HOPS skb RBRIDGE_NICKNAME_NONE vid w =
     Some (tt, mk_world (set_tx_dropped (incr (tx_dropped (w_br w))) (w_br w))
                 (w_out w ++ [Ev_printk "rbr_encaps_prepare: dtrNick is unvalid";
                              Ev_kfree_skb skb])
                 (w_alloc w))) ∧
  (VALID_NICK (flood_root r self) = true →
   skb_wf skb → (ETH_HLEN ≤ skb_data skb)%nat →
   is_u16 (nick r) → is_u16 (flood_root r self) →
   ∃ w', rbr_encaps_prepare TRILL_DEFAULT_HOPS skb RBRIDGE_NICKNAME_NONE vid w
           = Some (tt, w') ∧
         emitted (tx_nicks (flood_root r self) (nick r)) w w').
Proof.
  intros Hport Hr Hlocal Hself.
  rewrite (rbr_encaps_prepare_flood w skb vid p r self Hport Hr Hlocal Hself).
  split; intros Hroot; rewrite Hroot; cbn [negb].
  { cbv [bind printk encaps_drop upd_br kfree_skb emit w_br w_out w_alloc].
    by rewrite <- app_assoc. }
  intros Hwf Hroom Hul Hur.
  set (P := tx_nicks (flood_root r self) (nick r)).
  assert (HP : ∀ e, tx_frame e = None → P e) by (intros e He; by apply tx_nicks_quiet).
  unfold bind at 1, skb_clone. unfold bind at 1, alloc.
  destruct (w_alloc w) as [|[] t] eqn:Ht; cbn [ret].
  3: { eexists. split; [reflexivity|]. eexists [_; _]. cbn [w_out].
       split; [by rewrite <- app_assoc|].
       repeat (apply List.Forall_cons; [by apply HP|]). apply List.Forall_nil. }
  all: unfold bind at 1, emit; unfold bind at 1.
  all: match goal with |- context [rbr_encaps _ ?s ?a ?b ?m ?w1] =>
         destruct (rbr_encaps_total s a b m w1) as ([failed skb_e] & w2 & Henc);
           [exact Hwf|exact Hroom|];
         pose proof Henc as Hinv; eapply rbr_encaps_inv in Hinv; [|exact Hwf];
         destruct Hinv as (_ & Hb2 & (evs & Ho2 & Hsil) & Hok);
         rewrite Henc end.
  all: assert (Hem2 : emitted P w w2) by
    (exists (Ev_br_endstation_deliver (set_cloned true skb) :: evs);
     split; [by rewrite Ho2; cbn [w_out]; rewrite <- app_assoc|];
     apply List.Forall_cons; [by apply HP|];
     eapply Forall_impl; [exact Hsil|]; intros e [He _]; by apply HP).
  all: destruct failed.
  all: try (eexists; split; [reflexivity|]; apply (emitted_snoc _ _ w2); [done|];
            apply List.Forall_cons; [by apply HP|apply List.Forall_nil]).
  all: destruct (Hok eq_refl) as (Ho & Hpay & Hlen & Hmh & Hwfe & Hence).
  all: unfold bind at 1.
  all: destruct (rbr_multidest_fwd_emits P p skb_e (flood_root r self) (nick r) None vid
                   true w2 r) as (rc & w3 & -> & Hr3 & Hem3);
         [by rewrite Hb2| done | |].
  all: try (eexists; split; [reflexivity|]; by apply (emitted_trans _ _ w2)).
  all: intros b a adj c Ha Hadj Hc.
  all: destruct (encaps_nicks skb_e c _ _ _ _ Hpay Hlen Hwfe Hur Hul Hc) as [He Hi].
  all: apply tx_nicks_fwd_event; try done.
  all: unfold tx_wf, skb_wf, skb_headlen, sizeof_trill_hdr, ETH_HLEN in *.
  all: destruct Hc as [->| ->];
         cbn [skb_buf skb_data mac_header set_cloned set_frags set_buf];
         rewrite ?length_app; lia.
Qed.

(** ** Round trip *)

Lemma byte_at_take (l : list Z) n i : (i < n)%nat → byte_at (take n l) i = byte_at l i.
Proof. intros Hi. unfold byte_at. rewrite !nth_lookup, lookup_take_lt by done. done. Qed.


Lemma length_trill_hdr_bytes f e i : length (trill_hdr_bytes f e i) = sizeof_trill_hdr.
Proof. reflexivity. Qed.

(** The source address of the inner frame survives the reinsertion of a
    VLAN tag. *)
Lemma h_source_encaps_inner skb :
  (2 * ETH_ALEN ≤ length (inner_frame skb))%nat →
  h_source (encaps_inner skb) = h_source (inner_frame skb).
Proof.
  intros Hl. unfold encaps_inner. destruct (br_vlan_get_tag skb) as [tci|]; [|done].
  unfold h_source, bytes_mac, vlan_tagged, ETH_ALEN in *. rewrite !byte_at_drop.
  assert (Ht : length (take (2 * 6) (inner_frame skb)) = 12%nat)
    by (rewrite length_take; lia).
  f_equal; (rewrite byte_at_app by lia); by apply byte_at_take; lia.
Qed.


(** *** Encapsulation succeeds when no allocation fails *)

Lemma skb_cow_head_succeeds n skb w :
  no_alloc_failure w →
  ∃ skb' w', skb_cow_head n skb w = Some ((true, skb'), w') ∧ no_alloc_failure w'.
Proof.
  unfold no_alloc_failure, skb_cow_head. intros Hna.
  destruct (_ || _); [|by eexists _, _].
  unfold bind, alloc. destruct (w_alloc w) as [|ok t] eqn:Htape.
  - eexists _, _. split; [reflexivity|]. by rewrite Htape.
  - apply List.Forall_cons_iff in Hna as [-> Ht]. eexists _, _. split; [reflexivity|]. done.
Qed.

Lemma encaps_after_vlan_succeeds A B m skb w :
  skb_wf skb → no_alloc_failure w →
  ∃ skb_enc w', encaps_after_vlan TRILL_DEFAULT_HOPS A B m skb w
                = Some ((false, skb_enc), w').
Proof.
  intros Hwf Hna. unfold encaps_after_vlan. unfold bind at 1.
  destruct (skb_cow_head_succeeds (sizeof_trill_hdr + ETH_HLEN) skb w Hna)
    as (s4 & w4 & Hcow & _). rewrite Hcow.
  destruct (skb_cow_head_inv _ _ _ _ _ _ Hcow Hwf)
    as (_ & _ & _ & Hroom & _ & _ & Hwf4 & _).
  cbn [negb].
  specialize (Hroom eq_refl). unfold sizeof_trill_hdr, ETH_HLEN, skb_wf in *.
  unfold skb_push at 1. destruct (decide _) as [_|?]; [|lia].
  unfold bind at 1. cbn [lift ret]. cbv zeta.
  unfold skb_push at 1.
  cbn [skb_data set_th_ingressnick set_th_egressnick set_th_flags set_buf set_data].
  destruct (decide _) as [_|?]; [|lia].
  unfold bind at 1. cbn [lift ret].
  unfold skb_pull, skb_len, skb_headlen.
  cbn [skb_buf skb_data skb_frags set_h_proto skb_reset_mac_header set_mac_header
       set_th_ingressnick set_th_egressnick set_th_flags set_buf set_data mac_header].
  match goal with |- context [length (buf_write ?k ?bs ?x)] =>
    assert (Hl : length (buf_write k bs x) = length (skb_buf s4)) by len_solve;
    rewrite Hl end.
  destruct (decide _) as [?|_]; [lia|]. destruct (decide _) as [_|?]; [|lia].
  by eexists _, _.
Qed.

Lemma rbr_encaps_succeeds skb A B m w :
  skb_wf skb →
  (ETH_HLEN ≤ skb_data skb)%nat →
  no_alloc_failure w →
  ∃ skb_enc w', rbr_encaps TRILL_DEFAULT_HOPS skb A B m w = Some ((false, skb_enc), w').
Proof.
  intros Hwf Hroom Hna. rewrite rbr_encaps_unfold.
  unfold skb_push at 1. destruct (decide _) as [_|?]; [|lia].
  unfold bind at 1. cbn [lift ret]. cbv zeta.
  set (s2 := if negb _ then _ else _).
  assert (Hwf2 : skb_wf s2).
  { unfold s2, skb_wf in *. destruct (negb _); cbn; lia. }
  assert (Hl2 : (ETH_HLEN ≤ length (skb_linear s2))%nat).
  { rewrite length_skb_linear. unfold s2, skb_headlen, skb_wf in *.
    destruct (negb _); cbn; lia. }
  destruct (br_vlan_get_tag s2) as [tci|]; [|by apply encaps_after_vlan_succeeds].
  unfold bind at 1, vlan_insert_tag. unfold bind at 1.
  destruct (skb_cow_head_succeeds VLAN_HLEN s2 w Hna) as (s3 & w3 & Hcow & Hna3).
  rewrite Hcow.
  destruct (skb_cow_head_inv _ _ _ _ _ _ Hcow Hwf2)
    as (_ & _ & _ & Hroom3 & Hlin3 & _ & Hwf3 & _).
  cbn [negb].
  specialize (Hroom3 eq_refl).
  rewrite <- Hlin3, length_skb_linear in Hl2. unfold skb_headlen, ETH_HLEN in Hl2.
  unfold skb_push at 1. destruct (decide _) as [_|?]; [|lia].
  unfold bind at 1. cbn [lift ret negb].
  apply encaps_after_vlan_succeeds; [|exact Hna3].
  unfold skb_wf, vlan_tag_write, VLAN_HLEN, ETH_ALEN in *.
  cbn [skb_buf skb_data set_vlan set_buf set_data set_mac_header mac_header].
  set (macs := take _ _).
  assert (Hm : length macs = 12%nat).
  { unfold macs, skb_linear. cbn [skb_buf skb_data set_data].
    rewrite length_take, !length_drop. lia. }
  len_solve.
Qed.



(** ** The neighbour table: rbr_del_node, rbr_del_all, rbr_find_node *)

Lemma find_node_del_node r n m :
  find_node (rbr_del_node r n) m = if decide (m = n) then None else find_node r m.
Proof.
  unfold find_node, rbr_del_node.
  destruct (VALID_NICK n) eqn:Hn.
  - destruct (rbr_nodes r !! n) eqn:Hl; cbn [rbr_nodes].
    + destruct (decide (m = n)) as [->|Hne].
      * rewrite lookup_delete_eq. by destruct (VALID_NICK n).
      * by rewrite lookup_delete_ne.
    + destruct (decide (m = n)) as [->|Hne]; [|done]. by rewrite Hn, Hl.
  - destruct (decide (m = n)) as [->|Hne]; [|done]. by rewrite Hn.
Qed.

(** What the loop of rbr_del_all leaves of the table, for any range of
    indices. *)
Lemma del_all_fold (l : list Z) r k :
  rbr_nodes (foldl (λ r i, match rbr_nodes r !! i with
                           | Some _ => rbr_del_node r i
                           | None => r
                           end) r l) !! k =
    (if decide (k ∈ l ∧ VALID_NICK k = true) then None else rbr_nodes r !! k) ∧
  nick (foldl (λ r i, match rbr_nodes r !! i with
                      | Some _ => rbr_del_node r i
                      | None => r
                      end) r l) = nick r ∧
  treeroot (foldl (λ r i, match rbr_nodes r !! i with
                          | Some _ => rbr_del_node r i
                          | None => r
                          end) r l) = treeroot r.
Proof.
  revert r. induction l as [|a l IH]; intros r; cbn [foldl].
  - split; [|done]. destruct (decide (k ∈ [] ∧ _)) as [[Hin _]|_]; [|done].
    by apply elem_of_nil in Hin.
  - set (r1 := match rbr_nodes r !! a with Some _ => rbr_del_node r a | None => r end).
    destruct (IH r1) as (Hk & Hn & Ht).
    assert (H1 : rbr_nodes r1 !! k =
                 (if decide (k = a ∧ VALID_NICK k = true) then None else rbr_nodes r !! k)
                 ∧ nick r1 = nick r ∧ treeroot r1 = treeroot r).
    { unfold r1, rbr_del_node. destruct (rbr_nodes r !! a) eqn:Ha.
      - destruct (VALID_NICK a) eqn:Hv; cbn [rbr_nodes nick treeroot].
        + split; [|done]. destruct (decide (k = a ∧ _)) as [[-> _]|Hno].
          * by rewrite lookup_delete_eq.
          * rewrite lookup_delete_ne; [done|]. intros <-. by apply Hno.
        + split; [|done]. destruct (decide (k = a ∧ _)) as [[-> Hv']|_]; [congruence|done].
      - split; [|done]. destruct (decide (k = a ∧ _)) as [[-> _]|_]; done. }
    destruct H1 as (Hk1 & Hn1 & Ht1).
    rewrite Hk, Hn, Ht, Hk1, Hn1, Ht1. split; [|done].
    destruct (decide (k ∈ l ∧ _)) as [[Hin Hv]|Hno].
    + rewrite decide_True; [done|]. split; [by apply elem_of_cons; right|done].
    + destruct (decide (k = a ∧ _)) as [[-> Hv]|Hno1].
      * rewrite decide_True; [done|]. split; [by apply elem_of_cons; left|done].
      * rewrite decide_False; [done|]. intros [Hin Hv].
        apply elem_of_cons in Hin as [->|Hin]; [by apply Hno1|by apply Hno].
Qed.

(** After rbr_del_node the nickname is no longer found, every other
    nickname is found as before, and the local nickname and the tree root
    are untouched; for a nickname that is not valid nothing changes at
    all. *)
Theorem rbr_del_node_find_node r n m w :
  rbr_find_node (Some (rbr_del_node r n)) m w =
    (if decide (m = n) then Some (None, w) else rbr_find_node (Some r) m w) ∧
  nick (rbr_del_node r n) = nick r ∧
  treeroot (rbr_del_node r n) = treeroot r ∧
  (VALID_NICK n = false → rbr_del_node r n = r).
Proof.
  split; [|split; [|split]].
  - rewrite !rbr_find_node_Some, find_node_del_node. by destruct (decide (m = n)).
  - unfold rbr_del_node. destruct (VALID_NICK n); [|done]. by destruct (rbr_nodes r !! n).
  - unfold rbr_del_node. destruct (VALID_NICK n); [|done]. by destruct (rbr_nodes r !! n).
  - unfold rbr_del_node. by intros ->.
Qed.

(** After rbr_del_all no nickname is found any more, while the local
    nickname and the tree root are kept; the entries at the two reserved
    indices, which rbr_find_node never returns, are left where they are. *)
Theorem rbr_del_all_find_node r m w :
  is_u16 m →
  rbr_find_node (Some (rbr_del_all r)) m w = Some (None, w) ∧
  nick (rbr_del_all r) = nick r ∧
  treeroot (rbr_del_all r) = treeroot r ∧
  (∀ k, VALID_NICK k = false → rbr_nodes (rbr_del_all r) !! k = rbr_nodes r !! k).
Proof.
  intros Hm. unfold rbr_del_all.
  assert (Hin : VALID_NICK m = true →
                m ∈ seqZ RBRIDGE_NICKNAME_MIN (RBRIDGE_NICKNAME_MAX - RBRIDGE_NICKNAME_MIN)).
  { intros Hv. apply elem_of_seqZ. unfold is_u16 in Hm.
    unfold VALID_NICK, RBRIDGE_NICKNAME_NONE, RBRIDGE_NICKNAME_UNUSED,
      RBRIDGE_NICKNAME_MIN, RBRIDGE_NICKNAME_MAX in *.
    apply andb_true_iff in Hv as [_ Hv]. apply negb_true_iff, Z.eqb_neq in Hv. lia. }
  revert Hin.
  generalize (seqZ RBRIDGE_NICKNAME_MIN (RBRIDGE_NICKNAME_MAX - RBRIDGE_NICKNAME_MIN)).
  intros l Hin.
  split; [|split; [|split]].
  - rewrite rbr_find_node_Some. unfold find_node.
    destruct (VALID_NICK m) eqn:Hv; [|done].
    destruct (del_all_fold l r m) as (-> & _).
    destruct (decide (m ∈ l ∧ VALID_NICK m = true)) as [_|Hno]; [done|].
    exfalso. apply Hno. split; [by apply Hin|done].
  - apply (del_all_fold l r 0).
  - apply (del_all_fold l r 0).
  - intros k Hk. destruct (del_all_fold l r k) as (-> & _).
    destruct (decide (k ∈ l ∧ VALID_NICK k = true)) as [[_ Hv]|_]; [congruence|done].
Qed.

(** ** Enabling and disabling TRILL *)

(** Enabling TRILL on a bridge where it is disabled: the spanning tree is
    stopped first if it runs; the RBridge state the bridge has is kept, and
    otherwise a state with no nickname, no tree root and no neighbour is
    allocated; when that allocation fails TRILL stays disabled and a warning
    is logged, the spanning tree having been stopped all the same.  Counters,
    ports and fdb are not touched. *)
Theorem br_trill_set_enabled_starts w val :
  val ≠ 0 →
  trill_enabled (w_br w) = BR_NO_TRILL →
  ∃ w', br_trill_set_enabled val w = Some (tt, w') ∧
    same_plane (w_br w) (w_br w') ∧
    stp_enabled (w_br w') = BR_NO_STP ∧
    (∀ r, br_rbr (w_br w) = Some r →
       trill_enabled (w_br w') = BR_TRILL ∧ br_rbr (w_br w') = Some r ∧
       w_out w' = w_out w ++ stp_stop_events (w_br w) ∧ w_alloc w' = w_alloc w) ∧
    (br_rbr (w_br w) = None → head (w_alloc w) ≠ Some false →
       trill_enabled (w_br w') = BR_TRILL ∧ br_rbr (w_br w') = Some fresh_rbr ∧
       w_out w' = w_out w ++ stp_stop_events (w_br w)) ∧
    (br_rbr (w_br w) = None → head (w_alloc w) = Some false →
       trill_enabled (w_br w') = BR_NO_TRILL ∧ br_rbr (w_br w') = None ∧
       w_out w' = w_out w ++ stp_stop_events (w_br w)
                    ++ [Ev_printk "RBridge allocation for bridge failed"]).
Proof.
  intros Hval Hoff. unfold br_trill_set_enabled, bind at 1, get_br.
  apply Z.eqb_neq in Hval. rewrite Hval. cbn [negb].
  rewrite decide_True by done.
  unfold br_trill_start, stp_stop_events, bind at 1, get_br.
  destruct w as [b out tape]. destruct b as [dev addr tx rx stp tr rb ports fdb].
  cbn [w_br w_out w_alloc trill_enabled stp_enabled br_rbr] in *.
  destruct (decide (stp ≠ BR_NO_STP)) as [Hstp|Hstp];
    [|apply dec_stable in Hstp; subst stp];
    (destruct rb as [r|]; [|destruct tape as [|[] tape]]);
    (eexists; split;
     [cbv [bind br_stp_stop emit upd_br add_rbr get_br ret w_br w_out w_alloc
           set_stp_enabled set_br_rbr set_trill_enabled br_rbr alloc printk negb
           br_dev br_dev_addr tx_dropped rx_dropped stp_enabled trill_enabled
           br_ports br_fdb]; reflexivity|]);
    cbn; rewrite ?app_nil_r, <- ?app_assoc;
    repeat split; try done; try (intros r' [= <-]; repeat split; done).
Qed.

(** Enabling TRILL on a bridge without RBridge state, when the allocation
    succeeds. *)
Lemma br_trill_set_enabled_starts_aux w val :
  val ≠ 0 →
  trill_enabled (w_br w) = BR_NO_TRILL →
  br_rbr (w_br w) = None →
  head (w_alloc w) ≠ Some false →
  ∃ w', br_trill_set_enabled val w = Some (tt, w') ∧
        trill_enabled (w_br w') = BR_TRILL ∧
        br_rbr (w_br w') = Some fresh_rbr.
Proof.
  intros Hval Hoff Hr Hhead. unfold br_trill_set_enabled, bind at 1, get_br.
  apply Z.eqb_neq in Hval. rewrite Hval. cbn [negb].
  rewrite decide_True by done.
  unfold br_trill_start, bind at 1, get_br.
  destruct w as [b out tape]. destruct b as [dev addr tx rx stp tr rb ports fdb].
  cbn [w_br w_out w_alloc trill_enabled stp_enabled br_rbr] in *. subst rb.
  destruct tape as [|[] tape]; [| |done];
    (destruct (decide (stp ≠ BR_NO_STP)); eexists; (split;
     [cbv [bind br_stp_stop emit upd_br add_rbr get_br ret w_br w_out w_alloc
           set_stp_enabled set_br_rbr set_trill_enabled br_rbr alloc printk negb
           br_dev br_dev_addr tx_dropped rx_dropped stp_enabled trill_enabled
           br_ports br_fdb]; reflexivity
     |cbn; done])).
Qed.

(** Disabling TRILL on a bridge where it is enabled: the bridge loses its
    RBridge state, which is freed with its neighbour table emptied; the
    spanning tree is not restarted, and counters, ports and fdb are not
    touched.  Enabling TRILL again starts from a state with no nickname, no
    tree root and no neighbour: what was configured before is gone. *)
Theorem br_trill_set_enabled_stops w val :
  trill_enabled (w_br w) ≠ BR_NO_TRILL →
  val ≠ 0 →
  ∃ w', br_trill_set_enabled 0 w = Some (tt, w') ∧
    same_plane (w_br w) (w_br w') ∧
    stp_enabled (w_br w') = stp_enabled (w_br w) ∧
    trill_enabled (w_br w') = BR_NO_TRILL ∧
    br_rbr (w_br w') = None ∧
    w_out w' = w_out w ++ match br_rbr (w_br w) with
                          | Some r => [Ev_kfree_rbr (rbr_del_all r)]
                          | None => []
                          end ∧
    w_alloc w' = w_alloc w ∧
    (head (w_alloc w) ≠ Some false →
     ∃ w'', br_trill_set_enabled val w' = Some (tt, w'') ∧
            trill_enabled (w_br w'') = BR_TRILL ∧
            br_rbr (w_br w'') = Some fresh_rbr).
Proof.
  intros Hon Hval. unfold br_trill_set_enabled at 1, bind at 1, get_br.
  cbn [Z.eqb negb]. rewrite decide_True by done.
  destruct w as [b out tape]. destruct b as [dev addr tx rx stp tr rb ports fdb].
  cbn [w_br w_out w_alloc trill_enabled stp_enabled br_rbr] in *.
  exists (mk_world (mk_br dev addr tx rx stp BR_NO_TRILL None ports fdb)
            (out ++ match rb with
                    | Some r => [Ev_kfree_rbr (rbr_del_all r)]
                    | None => []
                    end) tape).
  split.
  { destruct rb; cbv [br_trill_stop bind upd_br get_br emit ret w_br w_out w_alloc
           set_trill_enabled br_rbr set_br_rbr
           br_dev br_dev_addr tx_dropped rx_dropped stp_enabled trill_enabled
           br_ports br_fdb]; rewrite ?app_nil_r; reflexivity. }
  do 6 (split; [done|]).
  intros Hhead. by apply br_trill_set_enabled_starts_aux.
Qed.

(** br_trill_set_enabled returns for every argument and keeps the
    invariant that a bridge on which TRILL is enabled has its RBridge
    state, the state rbr_recv and rbr_encaps_prepare dereference. *)
Theorem br_trill_set_enabled_consistent w val :
  trill_consistent (w_br w) →
  ∃ w', br_trill_set_enabled val w = Some (tt, w') ∧ trill_consistent (w_br w').
Proof.
  unfold trill_consistent, br_trill_set_enabled, bind at 1, get_br.
  destruct w as [b out tape]. destruct b as [dev addr tx rx stp tr rb ports fdb].
  cbn [w_br w_out w_alloc trill_enabled stp_enabled br_rbr]. intros Hinv.
  destruct (val =? 0); cbn [negb]; destruct tr.
  - rewrite decide_False by (intros ?; done). by eexists.
  - rewrite decide_True by done.
    destruct rb; eexists; (split;
      [cbv [br_trill_stop bind upd_br get_br emit ret w_br w_out w_alloc
            set_trill_enabled br_rbr set_br_rbr
            br_dev br_dev_addr tx_dropped rx_dropped stp_enabled trill_enabled
            br_ports br_fdb]; reflexivity|done]).
  - rewrite decide_True by done. unfold br_trill_start, bind at 1, get_br.
    cbn [w_br stp_enabled].
    destruct (decide (stp ≠ BR_NO_STP));
      (destruct rb as [r|]; [|destruct tape as [|[] tape]]);
      (eexists; split;
       [cbv [bind br_stp_stop emit upd_br add_rbr get_br ret w_br w_out w_alloc
             set_stp_enabled set_br_rbr set_trill_enabled br_rbr alloc printk negb
             br_dev br_dev_addr tx_dropped rx_dropped stp_enabled trill_enabled
             br_ports br_fdb]; reflexivity|cbn; done]).
  - rewrite decide_False by done. by eexists.
Qed.

(** ** The tree root *)

(** set_treeroot refuses a nickname that is not valid with ENOENT, leaving
    the RBridge state as it is, even when there is none; a valid nickname
    becomes the tree root, the local nickname and the neighbour table stay
    as they are, and setting the same root again changes nothing. *)
Theorem set_treeroot_outcome w t :
  (VALID_NICK t = false →
   set_treeroot t w =
     Some (ENOENT, mk_world (w_br w)
                     (w_out w ++ [Ev_printk "rbr_set_treeroot: given tree root not valid"])
                     (w_alloc w))) ∧
  (VALID_NICK t = true → ∀ r, br_rbr (w_br w) = Some r →
   ∃ w', set_treeroot t w = Some (0, w') ∧
         br_rbr (w_br w') = Some (mk_rbr (nick r) t (rbr_nodes r)) ∧
         same_plane (w_br w) (w_br w') ∧
         stp_enabled (w_br w') = stp_enabled (w_br w) ∧
         trill_enabled (w_br w') = trill_enabled (w_br w) ∧
         w_out w' = w_out w ∧ w_alloc w' = w_alloc w ∧
         set_treeroot t w' = Some (0, w')).
Proof.
  unfold set_treeroot. split.
  - intros ->. reflexivity.
  - intros -> r Hr. cbn [negb]. unfold bind at 1, get_br. rewrite Hr.
    unfold bind at 1. cbn [lift ret].
    destruct w as [b out tape]. destruct b as [dev addr tx rx stp tr rb ports fdb].
    cbn [w_br w_out w_alloc br_rbr] in *. subst rb.
    destruct (decide (treeroot r ≠ t)) as [Hne|Heq].
    + eexists. split; [reflexivity|].
      cbn. repeat split; try done.
      rewrite decide_False by (intros ?; done). reflexivity.
    + apply dec_stable in Heq. subst t. eexists. split; [reflexivity|].
      cbn. destruct r as [n t nodes]. cbn. repeat split; try done.
      rewrite decide_False by (intros ?; done). reflexivity.
Qed.

(** ** The Forwarder *)

Lemma dec_hopcount_flags_testbit f n :
  6 ≤ n < 16 → Z.testbit (dec_hopcount_flags f) n = Z.testbit f n.
Proof.
  intros Hn. unfold dec_hopcount_flags, trill_set_hopcount, TRILL_FLAGS_HOPCOUNT_MASK.
  rewrite Z.lor_spec, !Z.land_spec.
  assert (Hcase : n = 6 ∨ n = 7 ∨ n = 8 ∨ n = 9 ∨ n = 10 ∨ n = 11 ∨ n = 12 ∨ n = 13
                  ∨ n = 14 ∨ n = 15) by lia.
  destruct Hcase as [->|[->|[->|[->|[->|[->|[->|[->|[->| ->]]]]]]]]];
    cbn [Z.lxor Z.testbit Pos.lxor Pos.testbit Z.to_N Pos.pred_N Pos.succ Pos.pred_double
         Pos.Nsucc_double Pos.Ndouble];
    by rewrite andb_true_r, andb_false_r, orb_false_r.
Qed.

Lemma testbit_small a n : 0 ≤ a → a < 2 ^ n → 0 ≤ n → Z.testbit a n = false.
Proof.
  intros Ha Hlt Hn. destruct (decide (a = 0)) as [->|Hne]; [apply Z.bits_0|].
  apply Z.bits_above_log2; [done|]. apply Z.log2_lt_pow2; lia.
Qed.

(** Decrementing the hop count leaves the version, the multi-destination
    bit and the options length of the flags word as they are. *)
Lemma dec_hopcount_flags_fields f :
  trill_get_version (dec_hopcount_flags f) = trill_get_version f ∧
  trill_get_multidest (dec_hopcount_flags f) = trill_get_multidest f ∧
  trill_get_optslen (dec_hopcount_flags f) = trill_get_optslen f.
Proof.
  unfold trill_get_version, trill_get_multidest, trill_get_optslen.
  split; [|split]; [| |f_equal]; apply Z.bits_inj'; intros n Hn;
    rewrite !Z.land_spec, !Z.shiftr_spec by done.
  - destruct (decide (n < 2)) as [Hlt|Hge].
    + by rewrite dec_hopcount_flags_testbit by lia.
    + rewrite (testbit_small 3 n) by (try apply (Z.lt_le_trans _ (2 ^ 2)); try apply Z.pow_le_mono_r; lia).
      by rewrite !andb_false_r.
  - destruct (decide (n < 1)) as [Hlt|Hge].
    + by rewrite dec_hopcount_flags_testbit by lia.
    + rewrite (testbit_small 1 n) by (try apply (Z.lt_le_trans _ (2 ^ 1)); try apply Z.pow_le_mono_r; lia).
      by rewrite !andb_false_r.
  - destruct (decide (n < 5)) as [Hlt|Hge].
    + by rewrite dec_hopcount_flags_testbit by lia.
    + rewrite (testbit_small 31 n) by (try apply (Z.lt_le_trans _ (2 ^ 5)); try apply Z.pow_le_mono_r; lia).
      by rewrite !andb_false_r.
Qed.

Lemma trill_get_hopcount_range f : 0 ≤ trill_get_hopcount f < 64.
Proof.
  unfold trill_get_hopcount, TRILL_FLAGS_HOPCOUNT_MASK.
  split; [apply Z.land_nonneg; lia|].
  change 63 with (Z.ones 6). rewrite Z.land_ones by lia.
  apply Z.mod_pos_bound. lia.
Qed.

(** A hop count that is not zero goes down by one. *)
Lemma dec_hopcount_flags_hopcount f :
  trill_get_hopcount f ≠ 0 →
  trill_get_hopcount (dec_hopcount_flags f) = trill_get_hopcount f - 1.
Proof.
  intros Hne. rewrite hopcount_dec_hopcount_flags.
  pose proof (trill_get_hopcount_range f) as Hr.
  unfold TRILL_FLAGS_HOPCOUNT_MASK. change 63 with (Z.ones 6).
  rewrite Z.land_ones by lia. apply Z.mod_small. lia.
Qed.

Lemma skb_linear_fwd_rewrite b adj skb :
  tx_wf skb →
  skb_linear (fwd_rewrite b adj skb) =
    be16_bytes (dec_hopcount_flags (th_flags (skb_linear skb))) ++ drop 2 (skb_linear skb).
Proof.
  intros [H1 H2]. unfold skb_linear at 1.
  unfold fwd_rewrite, set_h_dest, set_h_source, trillhdr_dec_hopcount, set_th_flags,
    ETH_HLEN, ETH_ALEN, sizeof_trill_hdr in *.
  cbn [skb_buf skb_data mac_header set_dev set_buf].
  rewrite drop_buf_write_before by len_solve.
  rewrite drop_buf_write_before by len_solve.
  rewrite drop_buf_write_at by lia.
  f_equal. unfold skb_linear. rewrite drop_drop. f_equal.
Qed.

Lemma fwd_rewrite_fields b adj skb :
  skb_frags (fwd_rewrite b adj skb) = skb_frags skb ∧
  skb_dev (fwd_rewrite b adj skb) = br_dev b ∧
  skb_data (fwd_rewrite b adj skb) = skb_data skb ∧
  mac_header (fwd_rewrite b adj skb) = mac_header skb.
Proof. done. Qed.

Lemma h_source_set_h_source m skb :
  (mac_header skb + 2 * ETH_ALEN ≤ length (skb_buf skb))%nat →
  h_source (eth_hdr (set_h_source m skb)) = m.
Proof.
  intros Hwf.
  transitivity (bytes_mac (mac_bytes m)); [|apply bytes_mac_bytes].
  unfold h_source, eth_hdr, set_h_source, bytes_mac, ETH_ALEN in *.
  cbn [skb_buf mac_header set_buf]. rewrite !byte_at_drop.
  f_equal; bytes_solve; unfold byte_at; f_equal; lia.
Qed.

Lemma h_source_fwd_rewrite b adj skb :
  tx_wf skb →
  h_source (eth_hdr (fwd_rewrite b adj skb)) = br_dev_addr b.
Proof.
  intros [H1 H2].
  transitivity (bytes_mac (mac_bytes (br_dev_addr b))); [|apply bytes_mac_bytes].
  unfold h_source, eth_hdr, fwd_rewrite, set_h_dest, set_h_source,
    trillhdr_dec_hopcount, set_th_flags, bytes_mac, ETH_HLEN, ETH_ALEN, sizeof_trill_hdr in *.
  simpl. rewrite !byte_at_drop.
  f_equal; bytes_solve; unfold byte_at; f_equal; lia.
Qed.

(** What [rbr_fwd_finish] makes of the buffer [rbr_fwd] has rewritten. *)
Lemma fwd_finish_event_frame b adj skb vid :
  tx_wf skb →
  ∃ skb',
    tx_frame (fwd_finish_event b (fwd_rewrite b adj skb) vid) = Some skb' ∧
    match br_fdb_get (br_fdb b) (adjsnpa (rbr_ni adj)) vid with
    | Some dst =>
        fwd_finish_event b (fwd_rewrite b adj skb) vid = Ev_br_forward dst skb' ∧
        h_source (eth_hdr skb') = port_dev_addr dst
    | None =>
        fwd_finish_event b (fwd_rewrite b adj skb) vid = Ev_br_trill_flood_forward skb' ∧
        h_source (eth_hdr skb') = br_dev_addr b
    end ∧
    h_dest (eth_hdr skb') = adjsnpa (rbr_ni adj) ∧
    skb_dev skb' = br_dev b ∧
    skb_payload skb' =
      be16_bytes (dec_hopcount_flags (th_flags (skb_linear skb)))
        ++ drop 2 (skb_payload skb).
Proof.
  intros Hwf. pose proof (tx_wf_fwd_rewrite b adj skb Hwf) as Hwf'.
  assert (Hlen : (2 ≤ length (skb_linear skb))%nat).
  { rewrite length_skb_linear. destruct Hwf as [_ H2].
    unfold skb_headlen, sizeof_trill_hdr in *. lia. }
  assert (Hpay : skb_payload (fwd_rewrite b adj skb) =
                 be16_bytes (dec_hopcount_flags (th_flags (skb_linear skb)))
                   ++ drop 2 (skb_payload skb)).
  { unfold skb_payload. rewrite skb_linear_fwd_rewrite by done.
    rewrite drop_app_le by done. by rewrite <- app_assoc. }
  unfold fwd_finish_event. rewrite h_dest_fwd_rewrite by done.
  destruct (br_fdb_get _ _ _) as [dst|].
  - eexists. split; [reflexivity|]. split; [split; [reflexivity|]|split; [|split]].
    + apply h_source_set_h_source. destruct Hwf' as [H1 H2].
      unfold ETH_HLEN, ETH_ALEN, sizeof_trill_hdr in *. lia.
    + rewrite h_dest_set_h_source; [by apply h_dest_fwd_rewrite|].
      destruct Hwf' as [H1 H2]. unfold ETH_HLEN, sizeof_trill_hdr in *. lia.
    + done.
    + unfold skb_payload in *. rewrite linear_set_h_source by done. exact Hpay.
  - eexists. split; [reflexivity|]. split; [split; [reflexivity|]|split; [|split]].
    + by apply h_source_fwd_rewrite.
    + by apply h_dest_fwd_rewrite.
    + done.
    + exact Hpay.
Qed.

(** rbr_fwd towards a neighbour that is in the table hands exactly one
    frame to the fabric and changes nothing of the bridge: the outer
    destination is the neighbour's MAC address, the outer source the
    bridge's (or that of the port the fdb knows for the destination, to
    which the frame then goes), the device is the bridge, the flags word has
    its hop count decremented, and everything behind the flags word, the
    nicknames and the inner frame, is as it was. *)
Theorem rbr_fwd_rewrites_outer_header p skb a vid w r adj :
  br_rbr (w_br w) = Some r →
  VALID_NICK a = true →
  rbr_nodes r !! a = Some adj →
  tx_wf skb →
  ∃ e skb',
    rbr_fwd p skb a vid w = Some (tt, mk_world (w_br w) (w_out w ++ [e]) (w_alloc w)) ∧
    tx_frame e = Some skb' ∧
    match br_fdb_get (br_fdb (w_br w)) (adjsnpa (rbr_ni adj)) vid with
    | Some dst => e = Ev_br_forward dst skb' ∧ h_source (eth_hdr skb') = port_dev_addr dst
    | None => e = Ev_br_trill_flood_forward skb' ∧
              h_source (eth_hdr skb') = br_dev_addr (w_br w)
    end ∧
    h_dest (eth_hdr skb') = adjsnpa (rbr_ni adj) ∧
    skb_dev skb' = br_dev (w_br w) ∧
    skb_payload skb' =
      be16_bytes (dec_hopcount_flags (th_flags (skb_linear skb)))
        ++ drop 2 (skb_payload skb) ∧
    trill_get_version (dec_hopcount_flags (th_flags (skb_linear skb)))
      = trill_get_version (th_flags (skb_linear skb)) ∧
    trill_get_multidest (dec_hopcount_flags (th_flags (skb_linear skb)))
      = trill_get_multidest (th_flags (skb_linear skb)) ∧
    trill_get_optslen (dec_hopcount_flags (th_flags (skb_linear skb)))
      = trill_get_optslen (th_flags (skb_linear skb)) ∧
    (trill_get_hopcount (th_flags (skb_linear skb)) ≠ 0 →
     trill_get_hopcount (dec_hopcount_flags (th_flags (skb_linear skb)))
       = trill_get_hopcount (th_flags (skb_linear skb)) - 1).
Proof.
  intros Hr Hv Ha Hwf.
  assert (Hfind : find_node r a = Some adj) by (unfold find_node; by rewrite Hv).
  rewrite (rbr_fwd_found p skb a vid w r adj Hr Hfind).
  destruct (fwd_finish_event_frame (w_br w) adj skb vid Hwf)
    as (skb' & Htx & Hsrc & Hdst & Hdev & Hpay).
  destruct (dec_hopcount_flags_fields (th_flags (skb_linear skb))) as (Hver & Hmd & Hopt).
  exists (fwd_finish_event (w_br w) (fwd_rewrite (w_br w) adj skb) vid), skb'.
  split; [done|]. split; [done|]. split; [exact Hsrc|].
  split; [done|]. split; [done|]. split; [done|]. split; [done|]. split; [done|].
  split; [done|]. apply dec_hopcount_flags_hopcount.
Qed.

(** ** The Replicator *)

Lemma survivors_found r ingressnick saddr adjs :
  Forall (λ a, is_Some (find_node r a)) (survivors r ingressnick saddr adjs).
Proof.
  unfold survivors. apply Forall_forall. intros a Ha.
  apply list_elem_of_In, List.filter_In in Ha as [_ Hs].
  rewrite survives_skip in Hs.
  destruct (negb _ || _); [done|]. destruct (find_node r a); [by eexists|done].
Qed.

Lemma forward_copies_exact p skb vid l w r :
  br_rbr (w_br w) = Some r →
  no_alloc_failure w →
  Forall (λ a, is_Some (find_node r a)) l →
  forward_copies p skb vid l w =
    Some (true, mk_world (w_br w)
                  (w_out w ++ omap (hop_event (w_br w) r (skb_copied skb) vid) l)
                  (drop (length l) (w_alloc w))).
Proof.
  revert w. induction l as [|a l IH]; intros w Hr Hna Hl.
  { cbn. rewrite app_nil_r, drop_0. by destruct w. }
  apply List.Forall_cons_iff in Hl as [[adj Ha] Hl].
  cbn [forward_copies]. unfold bind at 1.
  destruct (skb_copy_cases skb w) as [(t & Ht & _)|(t & Hcopy & Hna')].
  { unfold no_alloc_failure in Hna. rewrite Ht in Hna. by inversion Hna. }
  assert (Htape : t = drop 1 (w_alloc w)).
  { clear -Hcopy. unfold skb_copy, bind, alloc in Hcopy.
    destruct w as [b o [|[] t']]; cbn in Hcopy; inversion Hcopy; done. }
  rewrite Hcopy. unfold bind at 1.
  fold (skb_copied skb).
  rewrite (rbr_fwd_found p (skb_copied skb) a vid _ r adj) by done.
  rewrite IH; [|done|by apply Hna'|done].
  cbn [w_br w_out w_alloc omap list_omap]. unfold hop_event at 2. rewrite Ha.
  cbn [fmap option_fmap option_map]. rewrite <- app_assoc. cbn [app].
  rewrite Htape, drop_drop. do 3 f_equal.
Qed.

Lemma rbr_multidest_fwd_unfold p skb egressnick ingressnick saddr vid free w r dest :
  br_rbr (w_br w) = Some r →
  find_node r egressnick = Some dest →
  rbr_multidest_fwd (Some p) skb egressnick ingressnick saddr vid free w =
    (let s := survivors r ingressnick saddr (adjnicks (rbr_ni dest)) in
     let* ok := forward_copies p skb vid (copy_targets free s) in
     if ok then
       match saved_target free s with
       | Some a => rbr_fwd p skb a vid >> ret 0
       | None => kfree_skb skb >> ret 0
       end
     else multidest_fwd_fail (Some p) skb) w.
Proof.
  intros Hr Hdest. unfold rbr_multidest_fwd. cbv beta iota zeta.
  unfold bind at 1, get_br. cbv beta iota zeta.
  rewrite Hr. unfold bind at 1. rewrite rbr_find_node_Some, Hdest.
  unfold bind at 1. rewrite multidest_loop_eq by done. cbv zeta. cbn [orb].
  unfold copy_targets, saved_target.
  destruct free; cbn [negb]; unfold bind;
    destruct (forward_copies _ _ _ _ _) as [[[] w1]|]; cbn [ret]; try reflexivity.
  by destruct (survivors _ _ _ _).
Qed.

Lemma hop_event_tx b r skb vid a :
  is_Some (find_node r a) → ∃ e, hop_event b r skb vid a = Some e ∧ is_Some (tx_frame e).
Proof.
  intros [adj Ha]. unfold hop_event. rewrite Ha. eexists. split; [reflexivity|].
  destruct (tx_frame_fwd_finish_event b (fwd_rewrite b adj skb) vid) as (s & -> & _).
  by eexists.
Qed.

Lemma omap_hop_event_tx b r skb vid l :
  Forall (λ a, is_Some (find_node r a)) l →
  length (omap tx_frame (omap (hop_event b r skb vid) l)) = length l.
Proof.
  induction 1 as [|a l Ha _ IH]; [done|].
  destruct (hop_event_tx b r skb vid a Ha) as (e & He & [s Hs]).
  cbn [omap list_omap]. rewrite He. cbn [omap list_omap]. rewrite Hs. cbn [length].
  f_equal. exact IH.
Qed.

Lemma rbr_multidest_fwd_exact p skb egressnick ingressnick saddr vid free w r dest :
  br_rbr (w_br w) = Some r →
  find_node r egressnick = Some dest →
  no_alloc_failure w →
  rbr_multidest_fwd (Some p) skb egressnick ingressnick saddr vid free w =
    Some (0, mk_world (w_br w)
               (w_out w ++ replica_events (w_br w) r skb vid free
                             (survivors r ingressnick saddr (adjnicks (rbr_ni dest))))
               (drop (length (copy_targets free
                                (survivors r ingressnick saddr (adjnicks (rbr_ni dest)))))
                  (w_alloc w))).
Proof.
  intros Hr Hdest Hna.
  pose proof (survivors_found r ingressnick saddr (adjnicks (rbr_ni dest))) as Hfound.
  set (s := survivors r ingressnick saddr (adjnicks (rbr_ni dest))) in *.
  assert (Hct : Forall (λ a, is_Some (find_node r a)) (copy_targets free s)).
  { unfold copy_targets. destruct free; [|done]. destruct s; [done|].
    by apply List.Forall_cons_iff in Hfound as [_ ?]. }
  rewrite (rbr_multidest_fwd_unfold _ _ _ _ _ _ _ _ r dest) by done. cbv zeta. fold s.
  unfold bind at 1. rewrite (forward_copies_exact _ _ _ _ _ r) by done.
  unfold replica_events, saved_target. destruct free.
  - destruct s as [|a s']; cbn [head].
    + cbv [bind kfree_skb emit ret w_br w_out w_alloc]. by rewrite <- app_assoc.
    + apply List.Forall_cons_iff in Hfound as [[adj Ha] _].
      assert (He : hop_event (w_br w) r skb vid a =
                   Some (fwd_finish_event (w_br w) (fwd_rewrite (w_br w) adj skb) vid))
        by (unfold hop_event; by rewrite Ha).
      rewrite He. unfold bind at 1.
      rewrite (rbr_fwd_found p skb a vid _ r adj) by done.
      cbn [w_br w_out w_alloc ret option_list]. by rewrite <- app_assoc.
  - cbv [bind kfree_skb emit ret w_br w_out w_alloc]. by rewrite <- app_assoc.
Qed.

Lemma replica_events_count b r skb vid free ingressnick saddr adjs :
  length (omap tx_frame
            (replica_events b r skb vid free (survivors r ingressnick saddr adjs)))
    = length (survivors r ingressnick saddr adjs).
Proof.
  pose proof (survivors_found r ingressnick saddr adjs) as Hfound.
  set (s := survivors r ingressnick saddr adjs) in *.
  assert (Hct : Forall (λ a, is_Some (find_node r a)) (copy_targets free s)).
  { unfold copy_targets. destruct free; [|done]. destruct s; [done|].
    by apply List.Forall_cons_iff in Hfound as [_ ?]. }
  unfold replica_events. rewrite omap_app, length_app, omap_hop_event_tx by done.
  unfold copy_targets, saved_target. destruct free.
  - destruct s as [|a s']; [done|]. cbn [head tail length].
    apply List.Forall_cons_iff in Hfound as [Ha _].
    destruct (hop_event_tx b r skb vid a Ha) as (e & -> & [c Hc]).
    change (option_list (Some e)) with [e].
    cbn [omap list_omap]. rewrite Hc. cbn [length]. lia.
  - cbn [omap list_omap tx_frame length]. lia.
Qed.

(** When no allocation fails rbr_multidest_fwd returns 0, leaves the
    bridge and its counters as they are, and sends exactly one frame for each
    adjacency of the tree that survives the pruning: a copy, in the order of
    the adjacency list, for each adjacency that gets one (one allocation
    each), and last the original buffer, which goes to the saved adjacency,
    or is freed when none was saved. *)
Theorem rbr_multidest_fwd_sends p skb egressnick ingressnick saddr vid free w r dest :
  br_rbr (w_br w) = Some r →
  find_node r egressnick = Some dest →
  no_alloc_failure w →
  rbr_multidest_fwd (Some p) skb egressnick ingressnick saddr vid free w =
    Some (0, mk_world (w_br w)
               (w_out w ++ replica_events (w_br w) r skb vid free
                             (survivors r ingressnick saddr (adjnicks (rbr_ni dest))))
               (drop (length (copy_targets free
                                (survivors r ingressnick saddr (adjnicks (rbr_ni dest)))))
                  (w_alloc w))) ∧
  length (omap tx_frame
            (replica_events (w_br w) r skb vid free
               (survivors r ingressnick saddr (adjnicks (rbr_ni dest)))))
    = length (survivors r ingressnick saddr (adjnicks (rbr_ni dest))).
Proof.
  intros Hr Hdest Hna. split.
  - by apply rbr_multidest_fwd_exact.
  - apply replica_events_count.
Qed.

(** With [free] set and at most one adjacency surviving the pruning the
    Replicator makes no copy: it allocates nothing and returns 0 whatever
    the allocator would have answered, the original buffer going to the one
    survivor, or being freed when there is none. *)
Theorem rbr_multidest_fwd_no_copy p skb egressnick ingressnick saddr vid w r dest :
  br_rbr (w_br w) = Some r →
  find_node r egressnick = Some dest →
  (length (survivors r ingressnick saddr (adjnicks (rbr_ni dest))) ≤ 1)%nat →
  rbr_multidest_fwd (Some p) skb egressnick ingressnick saddr vid true w =
    Some (0, mk_world (w_br w)
               (w_out w ++ match survivors r ingressnick saddr (adjnicks (rbr_ni dest)) with
                           | a :: _ => option_list (hop_event (w_br w) r skb vid a)
                           | [] => [Ev_kfree_skb skb]
                           end)
               (w_alloc w)).
Proof.
  intros Hr Hdest Hlen.
  pose proof (survivors_found r ingressnick saddr (adjnicks (rbr_ni dest))) as Hfound.
  rewrite (rbr_multidest_fwd_unfold _ _ _ _ _ _ _ _ r dest) by done. cbv zeta.
  destruct (survivors r ingressnick saddr (adjnicks (rbr_ni dest))) as [|a [|a' s']];
    [| |cbn in Hlen; lia]; cbn [copy_targets saved_target head tail forward_copies].
  - reflexivity.
  - apply List.Forall_cons_iff in Hfound as [[adj Ha] _].
    unfold bind at 1. cbn [ret]. unfold bind at 1.
    rewrite (rbr_fwd_found p skb a vid _ r adj) by done.
    unfold hop_event. rewrite Ha. reflexivity.
Qed.

(** ** The Encapsulator *)

Lemma testbit_63 n : 0 ≤ n → Z.testbit 63 n = bool_decide (n < 6).
Proof.
  intros Hn. destruct (decide (n < 6)) as [Hlt|Hge].
  - rewrite bool_decide_eq_true_2 by done.
    assert (Hcase : n = 0 ∨ n = 1 ∨ n = 2 ∨ n = 3 ∨ n = 4 ∨ n = 5) by lia.
    by destruct Hcase as [->|[->|[->|[->|[->| ->]]]]].
  - rewrite bool_decide_eq_false_2 by done.
    apply testbit_small; [lia| |lia].
    apply (Z.lt_le_trans _ (2 ^ 6)); [lia|]. apply Z.pow_le_mono_r; lia.
Qed.

Lemma testbit_2048 n : 0 ≤ n → Z.testbit 2048 n = bool_decide (n = 11).
Proof.
  intros Hn. destruct (decide (n = 11)) as [->|Hne]; [done|].
  rewrite bool_decide_eq_false_2 by done.
  destruct (decide (n < 11)) as [Hlt|Hge].
  - assert (Hcase : n = 0 ∨ n = 1 ∨ n = 2 ∨ n = 3 ∨ n = 4 ∨ n = 5 ∨ n = 6 ∨ n = 7
                    ∨ n = 8 ∨ n = 9 ∨ n = 10) by lia.
    by destruct Hcase as [->|[->|[->|[->|[->|[->|[->|[->|[->|[->| ->]]]]]]]]]].
  - apply testbit_small; [lia| |lia].
    apply (Z.lt_le_trans _ (2 ^ 12)); [lia|]. apply Z.pow_le_mono_r; lia.
Qed.

Lemma encaps_flags_testbit hops m n :
  0 ≤ n →
  Z.testbit (encaps_flags hops m) n =
    (Z.testbit hops n && bool_decide (n < 6)) || (m && bool_decide (n = 11)).
Proof.
  intros Hn. unfold encaps_flags, trill_set_version, trill_set_hopcount,
    trill_set_multidest, TRILL_PROTOCOL_VERS, TRILL_FLAGS_HOPCOUNT_MASK.
  change (Z.lor 0 (Z.shiftl (Z.land 0 3) 14)) with 0. rewrite Z.lor_0_l.
  rewrite Z.lor_spec, Z.land_spec, testbit_63 by done. f_equal.
  destruct m.
  - change (Z.shiftl (Z.land 1 1) 11) with 2048. by rewrite testbit_2048.
  - change (Z.shiftl (Z.land 0 1) 11) with 0. by rewrite Z.bits_0.
Qed.

(** The flags word rbr_encaps writes, decoded: version 0, no options, the
    multi-destination bit as asked, the six low bits of the default hop
    count; it fits sixteen bits. *)
Lemma encaps_flags_fields hops m :
  trill_get_version (encaps_flags hops m) = TRILL_PROTOCOL_VERS ∧
  trill_get_multidest (encaps_flags hops m) = (if m then 1 else 0) ∧
  trill_get_optslen (encaps_flags hops m) = 0 ∧
  trill_get_hopcount (encaps_flags hops m) = Z.land hops TRILL_FLAGS_HOPCOUNT_MASK ∧
  0 ≤ encaps_flags hops m < 65536.
Proof.
  unfold trill_get_version, trill_get_multidest, trill_get_optslen, trill_get_hopcount,
    TRILL_PROTOCOL_VERS, TRILL_FLAGS_HOPCOUNT_MASK.
  split; [|split; [|split; [|split]]].
  - apply Z.bits_inj'. intros n Hn.
    rewrite Z.land_spec, Z.shiftr_spec, encaps_flags_testbit, Z.bits_0 by lia.
    rewrite !bool_decide_eq_false_2 by lia. by rewrite andb_false_r, andb_false_r.
  - apply Z.bits_inj'. intros n Hn.
    rewrite Z.land_spec, Z.shiftr_spec, encaps_flags_testbit by lia.
    rewrite (bool_decide_eq_false_2 (n + 11 < 6)) by lia. rewrite andb_false_r, orb_false_l.
    destruct (decide (n = 0)) as [->|Hne].
    + by destruct m.
    + rewrite (bool_decide_eq_false_2 (n + 11 = 11)) by lia.
      rewrite andb_false_r. cbn [andb].
      destruct m; [|by rewrite Z.bits_0].
      symmetry. apply testbit_small; [lia| |lia].
      apply (Z.lt_le_trans _ (2 ^ 1)); [lia|]. apply Z.pow_le_mono_r; lia.
  - replace (Z.land (Z.shiftr (encaps_flags hops m) 6) 31) with 0; [done|].
    symmetry. apply Z.bits_inj'. intros n Hn.
    rewrite Z.land_spec, Z.shiftr_spec, encaps_flags_testbit, Z.bits_0 by lia.
    rewrite (bool_decide_eq_false_2 (n + 6 < 6)) by lia. rewrite andb_false_r, orb_false_l.
    destruct (decide (n = 5)) as [->|Hne]; [by rewrite andb_false_r|].
    rewrite (bool_decide_eq_false_2 (n + 6 = 11)) by lia. by rewrite andb_false_r.
  - apply Z.bits_inj'. intros n Hn.
    rewrite !Z.land_spec, encaps_flags_testbit, testbit_63 by lia.
    destruct (decide (n < 6)) as [Hlt|Hge].
    + rewrite (bool_decide_eq_false_2 (n = 11)) by lia.
      by rewrite andb_false_r, orb_false_r, <- andb_assoc, andb_diag.
    + rewrite (bool_decide_eq_false_2 (n < 6)) by lia. by rewrite !andb_false_r.
  - apply land_u16_range. apply Z.bits_inj'. intros n Hn.
    rewrite Z.land_spec, encaps_flags_testbit by lia.
    destruct (decide (n < 16)) as [Hlt|Hge].
    + replace (Z.testbit 65535 n) with true; [by rewrite andb_true_r|].
      symmetry. change 65535 with (Z.ones 16). apply Z.ones_spec_low. lia.
    + rewrite !bool_decide_eq_false_2 by lia. by rewrite !andb_false_r.
Qed.

Lemma encaps_after_vlan_proto A B m skb w skb' w' :
  skb_wf skb →
  encaps_after_vlan TRILL_DEFAULT_HOPS A B m skb w = Some ((false, skb'), w') →
  h_proto (eth_hdr skb') = ETH_P_TRILL.
Proof.
  intros Hwf Hrun. unfold encaps_after_vlan in Hrun.
  apply bind_inv in Hrun as ([ok s4] & w4 & Hcow & Hrun).
  destruct (skb_cow_head_inv _ _ _ _ _ _ Hcow Hwf)
    as (Hb4 & Ho4 & Hfail & Hroom & Hlin4 & Hfr4 & Hwf4 & Henc4 & Hvp4 & Hvt4).
  destruct ok; cbn [negb] in Hrun; [|cbn in Hrun; by inversion Hrun].
  specialize (Hroom eq_refl). unfold sizeof_trill_hdr, ETH_HLEN, skb_wf in *.
  apply bind_inv in Hrun as (s5 & w5 & Hp5 & Hrun).
  apply lift_inv in Hp5 as [Hp5 ->]. apply skb_push_inv in Hp5 as [_ ->].
  cbv zeta in Hrun.
  apply bind_inv in Hrun as (s7 & w7 & Hp7 & Hrun).
  apply lift_inv in Hp7 as [Hp7 ->]. apply skb_push_inv in Hp7 as [_ ->].
  apply bind_inv in Hrun as (s10 & w10 & Hp10 & Hrun).
  apply lift_inv in Hp10 as [Hp10 ->].
  cbn in Hrun. inversion Hrun; subst skb' w'; clear Hrun.
  revert Hp10. unfold skb_pull, skb_len, skb_headlen, set_th_ingressnick, set_th_egressnick,
    set_th_flags, set_h_proto, skb_reset_mac_header.
  cbn [skb_buf skb_data skb_frags set_buf set_data set_mac_header mac_header].
  set (d := skb_data s4) in *. set (buf := skb_buf s4) in *.
  replace (d - 6 - 14 + 12)%nat with (d - 8)%nat by lia.
  set (buf6 := buf_write (d - 6 + 4) _ (buf_write (d - 6 + 2) _ (buf_write (d - 6) _ buf))).
  assert (Hl6 : length buf6 = length buf).
  { unfold buf6. len_solve. }
  assert (Hl9 : length (buf_write (d - 8) (be16_bytes ETH_P_TRILL) buf6) = length buf).
  { rewrite length_buf_write; [done|]. cbn [length be16_bytes]. lia. }
  rewrite Hl9.
  destruct (decide _) as [?|_]; [lia|]. destruct (decide _) as [_|?]; [|lia].
  intros Hp10. inversion Hp10; subst s10; clear Hp10.
  unfold h_proto, eth_hdr, be16_at, skb_reset_mac_len.
  cbn [skb_buf skb_data set_buf set_data set_mac_header mac_header set_mac_len].
  rewrite !byte_at_drop.
  rewrite !byte_at_buf_write by (cbn [length be16_bytes]; lia).
  cbn [length be16_bytes].
  rewrite !decide_True by lia.
  replace (d - 6 - 14 + 12 - (d - 8))%nat with 0%nat by lia.
  replace (d - 6 - 14 + 13 - (d - 8))%nat with 1%nat by lia.
  reflexivity.
Qed.

Lemma rbr_encaps_proto skb A B m w skb_enc w' :
  skb_wf skb →
  rbr_encaps TRILL_DEFAULT_HOPS skb A B m w = Some ((false, skb_enc), w') →
  h_proto (eth_hdr skb_enc) = ETH_P_TRILL.
Proof.
  intros Hwf Hrun. rewrite rbr_encaps_unfold in Hrun.
  apply bind_inv in Hrun as (s1 & w1 & Hp & Hrun).
  apply lift_inv in Hp as [Hp ->]. apply skb_push_inv in Hp as [Hroom ->].
  cbv zeta in Hrun.
  set (s2 := if negb _ then _ else _) in Hrun.
  assert (Hwf2 : skb_wf s2).
  { unfold s2, skb_wf in *. destruct (negb _); cbn; lia. }
  assert (Hl2 : (2 * ETH_ALEN ≤ skb_headlen s2)%nat).
  { unfold s2, skb_headlen, skb_wf, ETH_HLEN, ETH_ALEN in *. destruct (negb _); cbn; lia. }
  destruct (br_vlan_get_tag s2) as [tci|].
  - apply bind_inv in Hrun as ([ok s3] & w3 & Hvlan & Hrun).
    destruct (vlan_insert_tag_inv s2 (vlan_proto s2) tci w ok s3 w3 Hwf2 Hl2 Hvlan)
      as (_ & _ & Hok).
    destruct ok; cbn [negb] in Hrun; [|cbn in Hrun; by inversion Hrun].
    destruct (Hok eq_refl) as (_ & _ & _ & Hwf3 & _).
    by apply (encaps_after_vlan_proto A B m (set_vlan 0 0 s3) w3 skb_enc w').
  - by apply (encaps_after_vlan_proto A B m s2 w skb_enc w').
Qed.

Lemma h_proto_fwd_event b adj skb vid skb' :
  (mac_header skb + ETH_HLEN = skb_data skb)%nat →
  tx_wf skb →
  tx_frame (fwd_finish_event b (fwd_rewrite b adj skb) vid) = Some skb' →
  h_proto (eth_hdr skb') = h_proto (eth_hdr skb).
Proof.
  intros Hmh [H1 H2] He.
  destruct (tx_frame_fwd_finish_event b (fwd_rewrite b adj skb) vid) as (s & Hs & Hc).
  rewrite Hs in He. inversion He; subst s. clear He Hs.
  unfold h_proto, eth_hdr, be16_at.
  destruct Hc as [->|[dst ->]];
    unfold fwd_rewrite, set_h_dest, set_h_source, trillhdr_dec_hopcount, set_th_flags,
      ETH_HLEN, ETH_ALEN, sizeof_trill_hdr in *;
    cbn [skb_buf skb_data mac_header set_dev set_buf];
    rewrite !byte_at_drop; f_equal; [f_equal| |f_equal|]; bytes_solve; done.
Qed.

(** What reaches the fabric when a buffer rbr_encaps has built is handed to
    rbr_fwd. *)
Lemma fwd_of_encapsulated b adj skb_enc vid fl eg ig inner :
  skb_payload skb_enc = trill_hdr_bytes fl eg ig ++ inner →
  0 ≤ fl < 65536 →
  (sizeof_trill_hdr + ETH_HLEN ≤ skb_headlen skb_enc)%nat →
  (mac_header skb_enc + ETH_HLEN = skb_data skb_enc)%nat →
  skb_wf skb_enc →
  tx_wf skb_enc ∧
  ∃ skb',
    tx_frame (fwd_finish_event b (fwd_rewrite b adj skb_enc) vid) = Some skb' ∧
    match br_fdb_get (br_fdb b) (adjsnpa (rbr_ni adj)) vid with
    | Some dst =>
        fwd_finish_event b (fwd_rewrite b adj skb_enc) vid = Ev_br_forward dst skb' ∧
        h_source (eth_hdr skb') = port_dev_addr dst
    | None =>
        fwd_finish_event b (fwd_rewrite b adj skb_enc) vid = Ev_br_trill_flood_forward skb' ∧
        h_source (eth_hdr skb') = br_dev_addr b
    end ∧
    h_dest (eth_hdr skb') = adjsnpa (rbr_ni adj) ∧
    h_proto (eth_hdr skb') = h_proto (eth_hdr skb_enc) ∧
    skb_dev skb' = br_dev b ∧
    skb_payload skb' = trill_hdr_bytes (dec_hopcount_flags fl) eg ig ++ inner.
Proof.
  intros Hpay Hfl Hlen Hmh Hwf.
  assert (Htx : tx_wf skb_enc).
  { unfold tx_wf, skb_headlen, sizeof_trill_hdr, ETH_HLEN in *. lia. }
  split; [done|].
  destruct (fwd_finish_event_frame b adj skb_enc vid Htx)
    as (skb' & Htxf & Hsrc & Hdst & Hdev & Hpay').
  exists skb'. split; [done|]. split; [done|]. split; [done|].
  split; [by apply (h_proto_fwd_event b adj skb_enc vid)|]. split; [done|].
  rewrite Hpay'. unfold trill_hdr_bytes in *. rewrite <- !app_assoc. f_equal.
  - f_equal. unfold th_flags.
    assert (Hl : be16_at (skb_linear skb_enc) 0 = be16_at (skb_payload skb_enc) 0).
    { unfold skb_payload. rewrite be16_at_app; [done|].
      rewrite length_skb_linear. unfold sizeof_trill_hdr, ETH_HLEN in *. lia. }
    rewrite Hl, Hpay, <- !app_assoc, be16_at_app by (cbn [length be16_bytes]; lia).
    by rewrite be16_at_bytes.
  - rewrite Hpay, <- !app_assoc. done.
Qed.

(** Unicast encapsulation, from rbr_encaps_prepare to the fabric: for an
    egress nickname whose node is in the table, and when no allocation
    fails, exactly one frame leaves and the bridge is left as it is.  The
    frame is addressed to the egress node's MAC address, its EtherType is
    TRILL, its TRILL header carries the egress nickname, the local nickname
    as ingress, version 0, no options, no multi-destination bit and the
    default hop count already decremented once, and behind the header
    comes the inner frame. *)
Theorem rbr_encaps_prepare_unicast w skb egressnick vid p r adj :
  br_port_get_rcu (w_br w) (skb_dev skb) = Some p →
  br_rbr (w_br w) = Some r →
  VALID_NICK (nick r) = true →
  VALID_NICK egressnick = true →
  rbr_nodes r !! egressnick = Some adj →
  skb_wf skb →
  (ETH_HLEN ≤ skb_data skb)%nat →
  no_alloc_failure w →
  ∃ e skb' w',
    rbr_encaps_prepare TRILL_DEFAULT_HOPS skb egressnick vid w = Some (tt, w') ∧
    w_br w' = w_br w ∧
    w_out w' = w_out w ++ [e] ∧
    tx_frame e = Some skb' ∧
    h_dest (eth_hdr skb') = adjsnpa (rbr_ni adj) ∧
    h_proto (eth_hdr skb') = ETH_P_TRILL ∧
    skb_payload skb' =
      trill_hdr_bytes (dec_hopcount_flags (encaps_flags TRILL_DEFAULT_HOPS false))
        egressnick (nick r) ++ encaps_inner skb ∧
    trill_get_version (dec_hopcount_flags (encaps_flags TRILL_DEFAULT_HOPS false))
      = TRILL_PROTOCOL_VERS ∧
    trill_get_multidest (dec_hopcount_flags (encaps_flags TRILL_DEFAULT_HOPS false)) = 0 ∧
    trill_get_optslen (dec_hopcount_flags (encaps_flags TRILL_DEFAULT_HOPS false)) = 0 ∧
    (0 < TRILL_DEFAULT_HOPS < 64 →
     trill_get_hopcount (dec_hopcount_flags (encaps_flags TRILL_DEFAULT_HOPS false))
       = TRILL_DEFAULT_HOPS - 1).
Proof.
  intros Hport Hr Hlocal Heg Hadj Hwf Hroom Hna.
  assert (Hfind : find_node r egressnick = Some adj) by (unfold find_node; by rewrite Heg).
  assert (Hne : (egressnick =? RBRIDGE_NICKNAME_NONE) = false).
  { unfold VALID_NICK in Heg. apply andb_true_iff in Heg as [Heg _].
    by apply negb_true_iff in Heg. }
  destruct (rbr_encaps_succeeds skb (nick r) egressnick false w Hwf Hroom Hna)
    as (skb_enc & w1 & Henc).
  destruct (rbr_encaps_inv skb (nick r) egressnick false w false skb_enc w1 Hwf Henc)
    as (_ & Hb1 & _ & Hok).
  destruct (Hok eq_refl) as (Ho1 & Hpay & Hlen & Hmh & Hwfe & _). clear Hok.
  pose proof (rbr_encaps_proto skb (nick r) egressnick false w skb_enc w1 Hwf Henc) as Hproto.
  destruct (encaps_flags_fields TRILL_DEFAULT_HOPS false) as (Hver & Hmd & Hopt & Hhop & Hrange).
  destruct (dec_hopcount_flags_fields (encaps_flags TRILL_DEFAULT_HOPS false))
    as (Hver' & Hmd' & Hopt').
  destruct (fwd_of_encapsulated (w_br w1) adj skb_enc vid _ _ _ _ Hpay Hrange Hlen Hmh Hwfe)
    as (Htx & skb' & Htxf & _ & Hdst & Hpr & _ & Hpay').
  exists (fwd_finish_event (w_br w1) (fwd_rewrite (w_br w1) adj skb_enc) vid), skb',
    (mk_world (w_br w1)
       (w_out w1 ++ [fwd_finish_event (w_br w1) (fwd_rewrite (w_br w1) adj skb_enc) vid])
       (w_alloc w1)).
  split.
  { unfold rbr_encaps_prepare. unfold bind at 1, get_br. cbv beta iota zeta.
    rewrite Hport, Hr, Heg, Hne. cbn [negb andb].
    unfold bind at 1. cbn [lift ret]. cbv zeta. rewrite Hlocal. cbn [negb].
    unfold bind at 1. rewrite Henc.
    apply (rbr_fwd_found p skb_enc egressnick vid w1 r adj); [congruence|done]. }
  split; [done|]. split; [cbn [w_out]; by rewrite Ho1|]. split; [done|].
  split; [done|]. split; [congruence|]. split; [done|].
  split; [congruence|]. split; [congruence|]. split; [congruence|].
  intros Hh. rewrite dec_hopcount_flags_hopcount; rewrite Hhop;
    unfold TRILL_FLAGS_HOPCOUNT_MASK; change 63 with (Z.ones 6);
    rewrite Z.land_ones by lia; rewrite Z.mod_small by lia; lia.
Qed.

(** A frame whose payload is a TRILL header written by rbr_encaps (hop count
    decremented or not) followed by an inner frame passes the header checks
    of rbr_recv at an RBridge other than the ingress, on the port it is
    addressed to. *)
Lemma encapsulated_header_ok rB pB skb_rx fl eg ig inner :
  skb_payload skb_rx = trill_hdr_bytes fl eg ig ++ inner →
  0 ≤ fl < 65536 →
  trill_get_version fl = TRILL_PROTOCOL_VERS →
  trill_get_optslen fl = 0 →
  is_u16 eg → is_u16 ig →
  VALID_NICK eg = true → VALID_NICK ig = true →
  ig ≠ nick rB →
  skb_wf skb_rx →
  (sizeof_trill_hdr + ETH_HLEN ≤ skb_headlen skb_rx)%nat →
  h_dest (eth_hdr skb_rx) = port_dev_addr pB →
  recv_header_ok rB pB skb_rx ∧
  frame_flags skb_rx = fl ∧ frame_egress skb_rx = eg ∧ frame_ingress skb_rx = ig.
Proof.
  intros Hpay Hfl Hver Hopt Heg Hig Hveg Hvig Hne Hwf Hlen Hdst.
  assert (Hflags : frame_flags skb_rx = fl).
  { unfold frame_flags, th_flags.
    assert (Hl : be16_at (skb_linear skb_rx) 0 = be16_at (skb_payload skb_rx) 0).
    { unfold skb_payload. rewrite be16_at_app; [done|].
      rewrite length_skb_linear. unfold sizeof_trill_hdr, ETH_HLEN in *. lia. }
    rewrite Hl, Hpay. unfold trill_hdr_bytes.
    rewrite <- !app_assoc, be16_at_app by (cbn [length be16_bytes]; lia).
    by apply be16_at_bytes. }
  assert (Hegress : frame_egress skb_rx = eg).
  { unfold frame_egress, th_egressnick. rewrite Hpay. by apply be16_at_hdr_egress. }
  assert (Hingress : frame_ingress skb_rx = ig).
  { unfold frame_ingress, th_ingressnick. rewrite Hpay. by apply be16_at_hdr_ingress. }
  split; [|done].
  unfold recv_header_ok. rewrite Hflags, Hegress, Hingress. done.
Qed.

(** Unicast, end to end: the frame rbr_encaps_prepare sends from RBridge A
    towards the egress nickname of RBridge B, once it arrives on the port of
    B it is addressed to, is decapsulated by rbr_recv at B: B hands the inner
    frame, and nothing else, to local delivery, and its fdb learns the inner
    source address under the nickname of A. *)
Theorem unicast_encaps_recv_end_to_end (wA wB : world F) skb vid vidB pA rA adjB pB rB :
  br_port_get_rcu (w_br wA) (skb_dev skb) = Some pA →
  br_rbr (w_br wA) = Some rA →
  VALID_NICK (nick rA) = true → is_u16 (nick rA) →
  VALID_NICK (nick rB) = true → is_u16 (nick rB) →
  nick rA ≠ nick rB →
  rbr_nodes rA !! nick rB = Some adjB →
  skb_wf skb →
  (ETH_HLEN ≤ skb_data skb)%nat →
  no_alloc_failure wA →
  br_rbr (w_br wB) = Some rB →
  port_dev_addr pB = adjsnpa (rbr_ni adjB) →
  ∃ e skb' wA',
    rbr_encaps_prepare TRILL_DEFAULT_HOPS skb (nick rB) vid wA = Some (tt, wA') ∧
    w_out wA' = w_out wA ++ [e] ∧
    tx_frame e = Some skb' ∧
    ∀ skb_rx,
      br_port_get_rcu (w_br wB) (skb_dev skb_rx) = Some pB →
      skb_wf skb_rx →
      (sizeof_trill_hdr + ETH_HLEN ≤ skb_headlen skb_rx)%nat →
      h_dest (eth_hdr skb_rx) = h_dest (eth_hdr skb') →
      skb_payload skb_rx = skb_payload skb' →
      ∃ wB' d skbd,
        rbr_recv skb_rx vidB wB = Some (tt, wB') ∧
        w_br wB' = set_br_fdb
                     (br_fdb_update_nick (br_fdb (w_br wB)) pB
                        (h_source (inner_frame skb)) vidB (nick rA)) (w_br wB) ∧
        w_out wB' = w_out wB ++ [d] ∧
        delivered_frame d = Some skbd ∧
        skb_frame skbd = encaps_inner skb.
Proof.
  intros Hport Hr HvA HuA HvB HuB Hne Hadj Hwf Hroom Hna HrB Hmac.
  assert (Hfind : find_node rA (nick rB) = Some adjB) by (unfold find_node; by rewrite HvB).
  assert (HneNone : (nick rB =? RBRIDGE_NICKNAME_NONE) = false).
  { unfold VALID_NICK in HvB. apply andb_true_iff in HvB as [HvB _].
    by apply negb_true_iff in HvB. }
  destruct (rbr_encaps_succeeds skb (nick rA) (nick rB) false wA Hwf Hroom Hna)
    as (skb_enc & w1 & Henc).
  destruct (rbr_encaps_inv skb (nick rA) (nick rB) false wA false skb_enc w1 Hwf Henc)
    as (_ & Hb1 & _ & Hok).
  destruct (Hok eq_refl) as (Ho1 & Hpay & Hlen & Hmh & Hwfe & _). clear Hok.
  destruct (encaps_flags_fields TRILL_DEFAULT_HOPS false) as (Hver & Hmd & Hopt & _ & Hrange).
  destruct (dec_hopcount_flags_fields (encaps_flags TRILL_DEFAULT_HOPS false))
    as (Hver' & Hmd' & Hopt').
  destruct (fwd_of_encapsulated (w_br w1) adjB skb_enc vid _ _ _ _ Hpay Hrange Hlen Hmh Hwfe)
    as (Htx & skb' & Htxf & _ & Hdst & _ & _ & Hpay').
  exists (fwd_finish_event (w_br w1) (fwd_rewrite (w_br w1) adjB skb_enc) vid), skb',
    (mk_world (w_br w1)
       (w_out w1 ++ [fwd_finish_event (w_br w1) (fwd_rewrite (w_br w1) adjB skb_enc) vid])
       (w_alloc w1)).
  split.
  { unfold rbr_encaps_prepare. unfold bind at 1, get_br. cbv beta iota zeta.
    rewrite Hport, Hr, HvB, HneNone. cbn [negb andb].
    unfold bind at 1. cbn [lift ret]. cbv zeta. rewrite HvA. cbn [negb].
    unfold bind at 1. rewrite Henc.
    apply (rbr_fwd_found pA skb_enc (nick rB) vid w1 rA adjB); [congruence|done]. }
  split; [cbn [w_out]; by rewrite Ho1|]. split; [done|].
  intros skb_rx HportB Hwfrx Hlenrx Hdstrx Hpayrx.
  rewrite Hpay' in Hpayrx.
  destruct (encapsulated_header_ok rB pB skb_rx _ _ _ _ Hpayrx) as (Hok & Hfl & Heg & Hig);
    try done.
  { apply dec_hopcount_flags_range. }
  { congruence. }
  { congruence. }
  { congruence. }
  destruct (rbr_recv_unicast_local wB skb_rx vidB pB rB HportB HrB Hok)
    as (wB' & Hrun & Hlearn & d & skbd & Hout & Hdel & Hframe & _).
  { rewrite Hfl. congruence. }
  { done. }
  assert (Hinner : drop sizeof_trill_hdr (skb_payload skb_rx) = encaps_inner skb).
  { rewrite Hpayrx.
    rewrite <- (length_trill_hdr_bytes
                  (dec_hopcount_flags (encaps_flags TRILL_DEFAULT_HOPS false))
                  (nick rB) (nick rA)).
    by rewrite drop_app_length. }
  exists wB', d, skbd. split; [done|]. split.
  { rewrite Hlearn, Hinner, Hig. do 2 f_equal.
    apply h_source_encaps_inner.
    unfold inner_frame, inner_linear, skb_wf, ETH_HLEN, ETH_ALEN in *.
    rewrite length_app, length_drop. lia. }
  split; [done|]. split; [done|]. by rewrite Hframe.
Qed.

(** rbr_encaps_prepare refuses a frame, counting it in tx_dropped and
    freeing it without sending or delivering anything, when the egress
    nickname is neither NONE nor valid, when the local nickname is not valid
    (as on a bridge where TRILL has just been enabled), and, for a frame
    to flood, when the local nickname has no node in the table; a frame from
    a device that is no port of the bridge is freed and not counted. *)
Theorem rbr_encaps_prepare_refuses w skb egressnick vid :
  (br_port_get_rcu (w_br w) (skb_dev skb) = None →
   rbr_encaps_prepare TRILL_DEFAULT_HOPS skb egressnick vid w =
     Some (tt, mk_world (w_br w)
                 (w_out w ++ [Ev_printk "rbr_encaps_prepare: port error";
                              Ev_kfree_skb skb]) (w_alloc w))) ∧
  (∀ p, br_port_get_rcu (w_br w) (skb_dev skb) = Some p →
     (egressnick ≠ RBRIDGE_NICKNAME_NONE → VALID_NICK egressnick = false →
      rbr_encaps_prepare TRILL_DEFAULT_HOPS skb egressnick vid w =
        tx_refused "rbr_encaps_prepare: invalid destinaton nickname" skb w) ∧
     (∀ r, br_rbr (w_br w) = Some r →
        (egressnick = RBRIDGE_NICKNAME_NONE ∨ VALID_NICK egressnick = true) →
        (VALID_NICK (nick r) = false →
         rbr_encaps_prepare TRILL_DEFAULT_HOPS skb egressnick vid w =
           tx_refused "rbr_encaps_prepare: invalid local nickname" skb w) ∧
        (VALID_NICK (nick r) = true → egressnick = RBRIDGE_NICKNAME_NONE →
         rbr_nodes r !! nick r = None →
         rbr_encaps_prepare TRILL_DEFAULT_HOPS skb egressnick vid w =
           tx_refused "rbr_encaps_prepare: waiting for nickname" skb w))).
Proof.
  assert (Hdrop : ∀ msg p,
    (printk msg >> encaps_drop (Some p) skb) w = tx_refused msg skb w).
  { intros msg p. cbv [bind printk encaps_drop upd_br kfree_skb emit tx_refused
                       w_br w_out w_alloc]. by rewrite <- app_assoc. }
  split.
  - intros Hport. unfold rbr_encaps_prepare, bind at 1, get_br. cbv beta iota zeta.
    rewrite Hport.
    cbv [bind printk encaps_drop ret kfree_skb emit w_br w_out w_alloc].
    by rewrite <- app_assoc.
  - intros p Hport. split.
    + intros Hne Hinv. unfold rbr_encaps_prepare, bind at 1, get_br. cbv beta iota zeta.
      rewrite Hport, Hinv. apply Z.eqb_neq in Hne. rewrite Hne. cbn [negb andb].
      apply Hdrop.
    + intros r Hr Heg.
      assert (Hfirst : negb (egressnick =? RBRIDGE_NICKNAME_NONE)
                       && negb (VALID_NICK egressnick) = false).
      { destruct Heg as [Heg|Heg]; rewrite Heg; [done|]. by rewrite andb_false_r. }
      split.
      * intros Hlocal. unfold rbr_encaps_prepare, bind at 1, get_br. cbv beta iota zeta.
        rewrite Hport, Hfirst, Hr. unfold bind at 1. cbn [lift ret]. cbv zeta.
        rewrite Hlocal. cbn [negb]. apply Hdrop.
      * intros Hlocal -> Hself.
        unfold rbr_encaps_prepare, bind at 1, get_br. cbv beta iota zeta.
        rewrite Hport, Hfirst, Hr. unfold bind at 1. cbn [lift ret]. cbv zeta.
        rewrite Hlocal. cbn [negb]. rewrite Z.eqb_refl.
        unfold bind at 1. rewrite rbr_find_node_Some. unfold find_node.
        rewrite Hlocal, Hself. apply Hdrop.
Qed.

(** ** The receive path *)



Lemma recv_adj_loop_on_tree r src adjs i w :
  ∃ idx, recv_adj_loop (Some r) src adjs i w = Some (idx, w) ∧
         (i ≤ idx)%nat ∧
         ((length adjs + i ≤ idx)%nat ↔ on_tree r src adjs = false).
Proof.
  revert i. induction adjs as [|a adjs IH]; intros i; cbn [recv_adj_loop on_tree existsb].
  { exists i. split; [done|]. split; [lia|]. cbn. split; [done|lia]. }
  unfold bind. rewrite rbr_find_node_Some.
  destruct (find_node r a) as [adj|].
  - destruct (mac_equal _ _).
    + exists i. split; [done|]. split; [lia|]. cbn [length orb]. split; [lia|done].
    + destruct (IH (S i)) as (idx & -> & Hle & Hiff). exists idx. split; [done|].
      split; [lia|]. cbn [length orb]. rewrite <- Hiff. lia.
  - destruct (IH (S i)) as (idx & -> & Hle & Hiff). exists idx. split; [done|].
    split; [lia|]. cbn [length orb]. rewrite <- Hiff. lia.
Qed.

Lemma recv_dtroot_loop_spec egressnick roots i :
  (i ≤ recv_dtroot_loop egressnick roots i)%nat ∧
  ((length roots + i ≤ recv_dtroot_loop egressnick roots i)%nat ↔
   existsb (λ root, root =? egressnick) roots = false).
Proof.
  revert i. induction roots as [|root roots IH]; intros i;
    cbn [recv_dtroot_loop existsb length].
  { split; [lia|]. split; [done|lia]. }
  destruct (root =? egressnick); cbn [orb].
  - split; [lia|]. split; [lia|done].
  - destruct (IH (S i)) as [Hle Hiff]. split; [lia|]. rewrite <- Hiff. lia.
Qed.

(** The reverse-path test of rbr_recv, as one condition. *)
Lemma rpf_test r ingressnick egressnick source_node :
  find_node r ingressnick = Some source_node →
  bool_decide (dtrootcount (rbr_ni source_node)
               ≤ recv_dtroot_loop egressnick (dtrootnicks (rbr_ni source_node)) 0)%nat
  && (negb (dtrootcount (rbr_ni source_node) =? 0)%nat
      || negb (egressnick =? treeroot r))
  = negb (rpf_ok r ingressnick egressnick).
Proof.
  intros Hs. unfold rpf_ok, dtrootcount. rewrite Hs.
  destruct (recv_dtroot_loop_spec egressnick (dtrootnicks (rbr_ni source_node)) 0)
    as [_ Hiff].
  destruct (dtrootnicks (rbr_ni source_node)) as [|root roots] eqn:Hroots.
  - cbn. by destruct (egressnick =? treeroot r).
  - cbn [length Nat.eqb negb orb]. rewrite andb_true_r.
    destruct (existsb _ (root :: roots)) eqn:Hex; cbn [negb].
    + apply bool_decide_eq_false. intros Hle.
      assert (Hf : true = false) by (apply Hiff; cbn [length] in *; lia).
      congruence.
    + apply bool_decide_eq_true. destruct Hiff as [_ Hiff]. specialize (Hiff eq_refl).
      cbn [length] in *. lia.
Qed.

(** rbr_recv on a multi-destination frame whose header passes the checks,
    up to the hop-count test. *)
Lemma rbr_recv_multidest_eq w skb vid port r :
  br_port_get_rcu (w_br w) (skb_dev skb) = Some port →
  br_rbr (w_br w) = Some r →
  recv_header_ok r port skb →
  trill_get_multidest (frame_flags skb) ≠ 0 →
  rbr_recv skb vid w =
    match find_node r (frame_egress skb) with
    | None =>
        (printk "rbr_recv: mulicast  with unknown destination" >>
         recv_drop (Some port) (mark_encapsulated skb)) w
    | Some dest =>
        if negb (on_tree r (h_source (eth_hdr skb)) (adjnicks (rbr_ni dest))) then
          (printk "rbr_recv: multicast unknow mac source" >>
           recv_drop (Some port) (mark_encapsulated skb)) w
        else
          match find_node r (frame_ingress skb) with
          | None =>
              (printk "rbr_recv: reverse path forwarding check failed" >>
               recv_drop (Some port) (mark_encapsulated skb)) w
          | Some _ =>
              if negb (rpf_ok r (frame_ingress skb) (frame_egress skb)) then
                recv_drop (Some port) (mark_encapsulated skb) w
              else if trill_get_hopcount (frame_flags skb) =? 0 then
                (printk "rbr_recv: multicast hop count limit reached" >>
                 recv_drop (Some port) (mark_encapsulated skb)) w
              else
                (let* c := skb_clone (mark_encapsulated skb) in
                 match c with
                 | None =>
                     upd_br (λ b, set_tx_dropped (incr (tx_dropped b)) b) >>
                     printk "rbr_recv: multicast skb_clone failed" >>
                     recv_drop (Some port) (mark_encapsulated skb)
                 | Some (skb1, skb2) =>
                     let* rc := rbr_multidest_fwd (Some port) skb2 (frame_egress skb)
                                  (frame_ingress skb) (Some (h_source (eth_hdr skb)))
                                  vid false in
                     if negb (rc =? 0) then recv_drop (Some port) skb1
                     else rbr_decaps (Some port) skb1 sizeof_trill_hdr vid
                 end) w
          end
    end.
Proof.
  intros Hport Hr Hok Hmd.
  pose proof (header_ok_nicks _ _ _ Hok) as [Hni Hne].
  pose proof Hok as (Hmac & Hlen & Hvi & Hve & Hver & Hopt & Hloop).
  rewrite (rbr_recv_header_ok w skb vid port r Hport Hr Hok).
  unfold recv_checked. rewrite Hni, Hne, Hvi, Hve, Hver, Hopt. cbn [negb orb].
  rewrite Z.eqb_refl. cbn [negb]. unfold bind at 1. cbn [lift ret].
  rewrite (proj2 (Z.eqb_neq _ _) Hloop).
  change (0 =? 0) with true. cbn [negb].
  rewrite (proj2 (Z.eqb_neq _ _) Hmd).
  unfold bind at 1. rewrite rbr_find_node_Some.
  destruct (find_node r (frame_egress skb)) as [dest|]; [|done].
  unfold bind at 1.
  destruct (recv_adj_loop_on_tree r (h_source (eth_hdr skb)) (adjnicks (rbr_ni dest)) 0 w)
    as (idx & -> & _ & Hiff).
  unfold adjcount. destruct (decide _) as [Hge|Hlt].
  { rewrite (proj1 Hiff) by lia. done. }
  destruct (on_tree _ _ _) eqn:Hon; [|exfalso; apply Hlt; destruct Hiff as [_ Hiff];
                                       specialize (Hiff eq_refl); lia].
  cbn [negb]. unfold bind at 1. rewrite rbr_find_node_Some.
  destruct (find_node r (frame_ingress skb)) as [source_node|] eqn:Hs; [|done].
  rewrite (rpf_test r (frame_ingress skb) (frame_egress skb) source_node Hs).
  destruct (negb (rpf_ok _ _ _)); [done|]. by destruct (_ =? 0).
Qed.

(** rbr_recv drops a multi-destination frame whose header passes the checks
    when the tree root it names has no node, when its outer source is not
    the MAC address of an adjacency of that tree, and when the reverse-path
    test fails: the ingress RBridge has no node, or it advertises roots and
    this root is not among them, or it advertises none and this root is not
    the RBridge's own tree root. *)
Theorem rbr_recv_multidest_not_admitted w skb vid port r :
  br_port_get_rcu (w_br w) (skb_dev skb) = Some port →
  br_rbr (w_br w) = Some r →
  recv_header_ok r port skb →
  trill_get_multidest (frame_flags skb) ≠ 0 →
  match find_node r (frame_egress skb) with
  | None => True
  | Some dest => on_tree r (h_source (eth_hdr skb)) (adjnicks (rbr_ni dest)) = false
  end ∨ rpf_ok r (frame_ingress skb) (frame_egress skb) = false →
  ∃ w', rbr_recv skb vid w = Some (tt, w') ∧ recv_dropped skb w w'.
Proof.
  intros Hport Hr Hok Hmd Hbad.
  rewrite (rbr_recv_multidest_eq w skb vid port r Hport Hr Hok Hmd).
  pose proof (mark_encapsulated_payload skb) as Hpay.
  destruct (find_node r (frame_egress skb)) as [dest|];
    [|apply printk_recv_drop_dropped; [apply only_logged_refl|done]].
  destruct (on_tree _ _ _) eqn:Hon; cbn [negb];
    [|apply printk_recv_drop_dropped; [apply only_logged_refl|done]].
  destruct Hbad as [?|Hrpf]; [done|].
  destruct (find_node r (frame_ingress skb));
    [|apply printk_recv_drop_dropped; [apply only_logged_refl|done]].
  rewrite Hrpf. cbn [negb]. apply recv_drop_dropped; [apply only_logged_refl|done].
Qed.

Lemma decaps_inner port skb1 skb vid w :
  skb_linear skb1 = skb_linear skb →
  skb_payload skb1 = skb_payload skb →
  skb_wf skb1 →
  (sizeof_trill_hdr + ETH_HLEN ≤ skb_headlen skb)%nat →
  ∃ d skbd,
    rbr_decaps (Some port) skb1 sizeof_trill_hdr vid w =
      Some (tt, mk_world
                  (set_br_fdb
                     (br_fdb_update_nick (br_fdb (w_br w)) port
                        (h_source (drop sizeof_trill_hdr (skb_payload skb))) vid
                        (frame_ingress skb)) (w_br w))
                  (w_out w ++ [d]) (w_alloc w)) ∧
    delivered_frame d = Some skbd ∧
    skb_frame skbd = drop sizeof_trill_hdr (skb_payload skb) ∧
    skb_dev skbd = br_dev (w_br w).
Proof.
  intros Hlin Hpay Hwf Hlen.
  assert (Hlen1 : (sizeof_trill_hdr + ETH_HLEN ≤ skb_headlen skb1)%nat).
  { by rewrite <- length_skb_linear, Hlin, length_skb_linear. }
  rewrite rbr_decaps_ok by done.
  eexists _, (decap_rewrite (br_dev (w_br w)) skb1).
  split; [|split; [|split]].
  - do 3 f_equal. unfold decap_learn. rewrite Hlin. do 2 f_equal.
    + unfold skb_payload, h_source, bytes_mac.
      rewrite <- length_skb_linear in Hlen. unfold sizeof_trill_hdr, ETH_HLEN, ETH_ALEN in *.
      rewrite !byte_at_drop, !byte_at_app by lia. done.
    + unfold frame_ingress, th_ingressnick, skb_payload. rewrite be16_at_app; [done|].
      rewrite length_skb_linear. unfold sizeof_trill_hdr, ETH_HLEN in *. lia.
  - unfold decap_finish_event. by destruct (br_fdb_get _ _ _).
  - rewrite skb_frame_decap_rewrite, Hpay; [done|done|].
    unfold sizeof_trill_hdr, ETH_HLEN in *. lia.
  - unfold decap_rewrite. cbv zeta.
    match goal with |- context [if ?c then _ else _] => by destruct c end.
Qed.

(** A multi-destination frame that passes the header checks and the two
    admission tests, with a hop count that is not zero, is replicated and
    then delivered locally: when no allocation fails, rbr_recv sends one copy
    to each adjacency of the tree that survives the pruning, frees the clone
    it replicated from, and last hands the inner frame to local delivery,
    the fdb having learnt the inner source under the ingress nickname. *)
Theorem rbr_recv_multidest_replicates_and_delivers w skb vid port r dest :
  br_port_get_rcu (w_br w) (skb_dev skb) = Some port →
  br_rbr (w_br w) = Some r →
  recv_header_ok r port skb →
  trill_get_multidest (frame_flags skb) ≠ 0 →
  trill_get_hopcount (frame_flags skb) ≠ 0 →
  find_node r (frame_egress skb) = Some dest →
  on_tree r (h_source (eth_hdr skb)) (adjnicks (rbr_ni dest)) = true →
  rpf_ok r (frame_ingress skb) (frame_egress skb) = true →
  no_alloc_failure w →
  ∃ w' d skbd,
    rbr_recv skb vid w = Some (tt, w') ∧
    w_br w' = set_br_fdb
                (br_fdb_update_nick (br_fdb (w_br w)) port
                   (h_source (drop sizeof_trill_hdr (skb_payload skb))) vid
                   (frame_ingress skb)) (w_br w) ∧
    w_out w' =
      w_out w ++
      replica_events (w_br w) r (set_cloned true (mark_encapsulated skb)) vid false
        (survivors r (frame_ingress skb) (Some (h_source (eth_hdr skb)))
           (adjnicks (rbr_ni dest))) ++ [d] ∧
    length (omap tx_frame
              (replica_events (w_br w) r (set_cloned true (mark_encapsulated skb)) vid false
                 (survivors r (frame_ingress skb) (Some (h_source (eth_hdr skb)))
                    (adjnicks (rbr_ni dest)))))
      = length (survivors r (frame_ingress skb) (Some (h_source (eth_hdr skb)))
                  (adjnicks (rbr_ni dest))) ∧
    delivered_frame d = Some skbd ∧
    skb_frame skbd = drop sizeof_trill_hdr (skb_payload skb).
Proof.
  intros Hport Hr Hok Hmd Hhop Hdest Hon Hrpf Hna.
  pose proof Hok as (Hmac & Hlen & _).
  pose proof (header_ok_wf _ _ _ Hok) as Hwf.
  rewrite (rbr_recv_multidest_eq w skb vid port r Hport Hr Hok Hmd).
  rewrite Hdest, Hon. cbn [negb].
  assert (Hsrc : is_Some (find_node r (frame_ingress skb))).
  { unfold rpf_ok in Hrpf. destruct (find_node r (frame_ingress skb)); [by eexists|done]. }
  destruct Hsrc as [source_node ->]. rewrite Hrpf. cbn [negb].
  rewrite (proj2 (Z.eqb_neq _ _) Hhop).
  set (skbm := mark_encapsulated skb).
  set (s := survivors r (frame_ingress skb) (Some (h_source (eth_hdr skb)))
              (adjnicks (rbr_ni dest))).
  assert (Hclone : ∃ t, skb_clone skbm w =
            Some (Some (set_cloned true skbm, set_cloned true skbm),
                  mk_world (w_br w) (w_out w) t) ∧
            no_alloc_failure (mk_world (w_br w) (w_out w) t)).
  { unfold skb_clone, bind, alloc, no_alloc_failure in *.
    destruct w as [b o [|[] t]]; cbn in *.
    - by exists [].
    - exists t. split; [done|]. by inversion Hna.
    - by inversion Hna. }
  destruct Hclone as (t & Hclone & Hna1).
  unfold bind at 1. rewrite Hclone. unfold bind at 1.
  rewrite (rbr_multidest_fwd_exact port (set_cloned true skbm) (frame_egress skb)
             (frame_ingress skb) (Some (h_source (eth_hdr skb))) vid false _ r dest)
    by done.
  change (negb (0 =? 0)) with false. cbv iota. fold s.
  cbn [w_br w_out w_alloc].
  match goal with |- context [rbr_decaps _ _ _ _ ?w2] =>
    destruct (decaps_inner port (set_cloned true skbm) skb vid w2)
      as (d & skbd & Hdec & Hdel & Hframe & _) end.
  { unfold skbm. apply mark_encapsulated_linear. }
  { unfold skbm. apply mark_encapsulated_payload. }
  { unfold skbm, skb_wf, mark_encapsulated in *. by destruct (encapsulation skb). }
  { done. }
  rewrite Hdec. eexists _, d, skbd. split; [reflexivity|].
  cbn [w_br w_out]. split; [done|]. split; [by rewrite <- app_assoc|].
  split; [apply replica_events_count|]. done.
Qed.

(** When the clone for the Replicator cannot be allocated, an admitted
    multi-destination frame is counted in tx_dropped and in rx_dropped and
    freed: nothing is forwarded and nothing is delivered locally. *)
Theorem rbr_recv_multidest_clone_failure w skb vid port r dest t :
  br_port_get_rcu (w_br w) (skb_dev skb) = Some port →
  br_rbr (w_br w) = Some r →
  recv_header_ok r port skb →
  trill_get_multidest (frame_flags skb) ≠ 0 →
  trill_get_hopcount (frame_flags skb) ≠ 0 →
  find_node r (frame_egress skb) = Some dest →
  on_tree r (h_source (eth_hdr skb)) (adjnicks (rbr_ni dest)) = true →
  rpf_ok r (frame_ingress skb) (frame_egress skb) = true →
  w_alloc w = false :: t →
  rbr_recv skb vid w =
    Some (tt, mk_world
                (set_rx_dropped (incr (rx_dropped (w_br w)))
                   (set_tx_dropped (incr (tx_dropped (w_br w))) (w_br w)))
                (w_out w ++ [Ev_printk "rbr_recv: multicast skb_clone failed";
                             Ev_kfree_skb (mark_encapsulated skb)])
                t).
Proof.
  intros Hport Hr Hok Hmd Hhop Hdest Hon Hrpf Htape.
  rewrite (rbr_recv_multidest_eq w skb vid port r Hport Hr Hok Hmd).
  rewrite Hdest, Hon. cbn [negb].
  assert (Hsrc : is_Some (find_node r (frame_ingress skb))).
  { unfold rpf_ok in Hrpf. destruct (find_node r (frame_ingress skb)); [by eexists|done]. }
  destruct Hsrc as [source_node ->]. rewrite Hrpf. cbn [negb].
  rewrite (proj2 (Z.eqb_neq _ _) Hhop).
  cbv [bind skb_clone alloc]. rewrite Htape.
  cbv [ret upd_br printk emit recv_drop bind kfree_skb w_br w_out w_alloc
       set_tx_dropped set_rx_dropped br_dev br_dev_addr tx_dropped rx_dropped stp_enabled
       trill_enabled br_rbr br_ports br_fdb].
  by rewrite <- app_assoc.
Qed.

(** A unicast frame in transit towards an egress nickname that has no node
    in the table: rbr_recv has the fdb refresh the outer source, and rbr_fwd
    then gives up; the frame is counted in tx_dropped, not in rx_dropped, and
    freed. *)
Theorem rbr_recv_transit_unknown_egress w skb vid port r :
  br_port_get_rcu (w_br w) (skb_dev skb) = Some port →
  br_rbr (w_br w) = Some r →
  recv_header_ok r port skb →
  trill_get_multidest (frame_flags skb) = 0 →
  trill_get_hopcount (frame_flags skb) ≠ 0 →
  frame_egress skb ≠ frame_ingress skb →
  frame_egress skb ≠ nick r →
  rbr_nodes r !! frame_egress skb = None →
  rbr_recv skb vid w =
    Some (tt, mk_world
                (set_tx_dropped (incr (tx_dropped (w_br w)))
                   (set_br_fdb (br_fdb_update (br_fdb (w_br w)) port
                                  (h_source (eth_hdr skb)) vid) (w_br w)))
                (w_out w ++ [Ev_printk "rbr_fwd: unable to find adjacent RBridge";
                             Ev_kfree_skb (mark_encapsulated skb)])
                (w_alloc w)).
Proof.
  intros Hport Hr Hok Hmd Hhop Hei Hel Hnone.
  pose proof (header_ok_nicks _ _ _ Hok) as [Hni Hne].
  pose proof Hok as (Hmac & Hlen & Hvi & Hve & Hver & Hopt & Hloop).
  rewrite (rbr_recv_header_ok w skb vid port r Hport Hr Hok).
  unfold recv_checked. rewrite Hni, Hne, Hvi, Hve, Hver, Hopt, Hmd. cbn [negb orb].
  rewrite Z.eqb_refl. cbn [negb]. unfold bind at 1. cbn [lift ret].
  rewrite (proj2 (Z.eqb_neq _ _) Hloop).
  change (0 =? 0) with true. cbn [negb].
  rewrite (proj2 (Z.eqb_neq _ _) Hei), (proj2 (Z.eqb_neq _ _) Hel),
    (proj2 (Z.eqb_neq _ _) Hhop).
  cbn [negb]. unfold bind at 1, upd_br.
  rewrite (rbr_fwd_missing port (mark_encapsulated skb) (frame_egress skb) vid _ r).
  - reflexivity.
  - done.
  - unfold find_node. rewrite Hve. done.
Qed.

(** Unicast transit: a frame that passes the header checks, is bound for
    another RBridge whose node is in the table and has a hop count that is
    not zero leaves as exactly one frame, addressed to that RBridge's MAC
    address, its hop count one less and everything behind the flags word
    unchanged; the fdb has refreshed the outer source, and nothing else of
    the bridge changes. *)
Theorem rbr_recv_transit_forwards w skb vid port r adj :
  br_port_get_rcu (w_br w) (skb_dev skb) = Some port →
  br_rbr (w_br w) = Some r →
  recv_header_ok r port skb →
  (mac_header skb + ETH_HLEN ≤ skb_data skb)%nat →
  trill_get_multidest (frame_flags skb) = 0 →
  trill_get_hopcount (frame_flags skb) ≠ 0 →
  frame_egress skb ≠ frame_ingress skb →
  frame_egress skb ≠ nick r →
  rbr_nodes r !! frame_egress skb = Some adj →
  ∃ e skb',
    rbr_recv skb vid w =
      Some (tt, mk_world
                  (set_br_fdb (br_fdb_update (br_fdb (w_br w)) port
                                 (h_source (eth_hdr skb)) vid) (w_br w))
                  (w_out w ++ [e]) (w_alloc w)) ∧
    tx_frame e = Some skb' ∧
    h_dest (eth_hdr skb') = adjsnpa (rbr_ni adj) ∧
    skb_dev skb' = br_dev (w_br w) ∧
    skb_payload skb' =
      be16_bytes (dec_hopcount_flags (frame_flags skb)) ++ drop 2 (skb_payload skb) ∧
    trill_get_hopcount (dec_hopcount_flags (frame_flags skb))
      = trill_get_hopcount (frame_flags skb) - 1.
Proof.
  intros Hport Hr Hok Hmh Hmd Hhop Hei Hel Hadj.
  pose proof (header_ok_nicks _ _ _ Hok) as [Hni Hne].
  pose proof Hok as (Hmac & Hlen & Hvi & Hve & Hver & Hopt & Hloop).
  rewrite (rbr_recv_header_ok w skb vid port r Hport Hr Hok).
  unfold recv_checked. rewrite Hni, Hne, Hvi, Hve, Hver, Hopt, Hmd. cbn [negb orb].
  rewrite Z.eqb_refl. cbn [negb]. unfold bind at 1. cbn [lift ret].
  rewrite (proj2 (Z.eqb_neq _ _) Hloop).
  change (0 =? 0) with true. cbn [negb].
  rewrite (proj2 (Z.eqb_neq _ _) Hei), (proj2 (Z.eqb_neq _ _) Hel),
    (proj2 (Z.eqb_neq _ _) Hhop).
  cbn [negb]. unfold bind at 1, upd_br.
  set (b1 := set_br_fdb _ (w_br w)).
  assert (Hfind : find_node r (frame_egress skb) = Some adj)
    by (unfold find_node; by rewrite Hve).
  rewrite (rbr_fwd_found port (mark_encapsulated skb) (frame_egress skb) vid _ r adj)
    by done.
  cbn [w_br w_out w_alloc].
  assert (Htx : tx_wf (mark_encapsulated skb)).
  { unfold tx_wf, mark_encapsulated, skb_headlen, sizeof_trill_hdr, ETH_HLEN in *.
    destruct (encapsulation skb); cbn; lia. }
  destruct (fwd_finish_event_frame b1 adj (mark_encapsulated skb) vid Htx)
    as (skb' & Htxf & _ & Hdst & Hdev & Hpay).
  eexists _, skb'. split; [reflexivity|]. split; [done|]. split; [done|].
  split; [done|]. split.
  - rewrite Hpay, mark_encapsulated_linear, mark_encapsulated_payload. done.
  - by apply dec_hopcount_flags_hopcount.
Qed.

(** ** The data path and the control state *)

Lemma same_control_refl b : same_control b b.
Proof. by unfold same_control. Qed.

Lemma same_control_trans b1 b2 b3 :
  same_control b1 b2 → same_control b2 b3 → same_control b1 b3.
Proof. unfold same_control. intros (?&?&?&?&?&?) (?&?&?&?&?&?). repeat split; congruence. Qed.

Lemma same_control_eq b1 b2 : b2 = b1 → same_control b1 b2.
Proof. intros ->. apply same_control_refl. Qed.

Lemma same_control_tx b1 b2 v :
  same_control b1 b2 → same_control b1 (set_tx_dropped v b2).
Proof. by unfold same_control. Qed.

Lemma same_control_rx b1 b2 v :
  same_control b1 b2 → same_control b1 (set_rx_dropped v b2).
Proof. by unfold same_control. Qed.

Lemma same_control_fdb b1 b2 f :
  same_control b1 b2 → same_control b1 (set_br_fdb f b2).
Proof. by unfold same_control. Qed.

Lemma same_control_rbr b1 b2 r :
  same_control b1 b2 → br_rbr b1 = Some r → br_rbr b2 = Some r.
Proof. intros (_ & _ & _ & _ & Hr & _) ?. congruence. Qed.

Lemma rbr_fwd_control p skb a vid w r :
  br_rbr (w_br w) = Some r →
  ∃ w', rbr_fwd p skb a vid w = Some (tt, w') ∧ same_control (w_br w) (w_br w') ∧
        br_fdb (w_br w') = br_fdb (w_br w).
Proof.
  intros Hr. destruct (find_node r a) as [adj|] eqn:Ha.
  - rewrite (rbr_fwd_found p skb a vid w r adj Hr Ha).
    eexists. split; [reflexivity|]. split; [apply same_control_refl|done].
  - rewrite (rbr_fwd_missing p skb a vid w r Hr Ha).
    eexists. split; [reflexivity|]. split; [apply same_control_tx, same_control_refl|done].
Qed.

Lemma forward_copies_control p skb vid l w r :
  br_rbr (w_br w) = Some r →
  ∃ ok w', forward_copies p skb vid l w = Some (ok, w') ∧
           same_control (w_br w) (w_br w') ∧ br_fdb (w_br w') = br_fdb (w_br w).
Proof.
  revert w. induction l as [|a l IH]; intros w Hr.
  { eexists _, _. split; [reflexivity|]. split; [apply same_control_refl|done]. }
  cbn [forward_copies]. unfold bind at 1.
  destruct (skb_copy_cases skb w) as [(t & _ & ->)|(t & -> & _)].
  - eexists _, _. split; [reflexivity|]. cbn.
    split; [apply same_control_tx, same_control_refl|done].
  - unfold bind at 1.
    match goal with |- context [rbr_fwd p ?c a vid ?w1] =>
      destruct (rbr_fwd_control p c a vid w1 r Hr) as (w2 & -> & Hc2 & Hf2) end.
    destruct (IH w2) as (ok & w3 & -> & Hc3 & Hf3); [by apply (same_control_rbr _ _ _ Hc2)|].
    eexists _, _. split; [reflexivity|].
    split; [by apply (same_control_trans _ (w_br w2))|]. by rewrite Hf3, Hf2.
Qed.

Lemma rbr_multidest_fwd_control p skb egressnick ingressnick saddr vid free w r :
  br_rbr (w_br w) = Some r →
  ∃ rc w', rbr_multidest_fwd (Some p) skb egressnick ingressnick saddr vid free w
             = Some (rc, w') ∧
           same_control (w_br w) (w_br w') ∧ br_fdb (w_br w') = br_fdb (w_br w).
Proof.
  intros Hr. destruct (find_node r egressnick) as [dest|] eqn:Hdest.
  - rewrite (rbr_multidest_fwd_unfold _ _ _ _ _ _ _ _ r dest) by done. cbv zeta.
    unfold bind at 1.
    destruct (forward_copies_control p skb vid
                (copy_targets free (survivors r ingressnick saddr (adjnicks (rbr_ni dest))))
                w r Hr) as (ok & w1 & -> & Hc1 & Hf1).
    pose proof (same_control_rbr _ _ _ Hc1 Hr) as Hr1.
    destruct ok.
    + destruct (saved_target _ _) as [a|].
      * unfold bind at 1.
        destruct (rbr_fwd_control p skb a vid w1 r Hr1) as (w2 & -> & Hc2 & Hf2).
        eexists _, _. split; [reflexivity|].
        split; [by apply (same_control_trans _ (w_br w1))|]. by rewrite Hf2, Hf1.
      * eexists _, _. split; [reflexivity|]. done.
    + eexists _, _. split; [reflexivity|]. cbn. split; [by apply same_control_tx|done].
  - unfold rbr_multidest_fwd. cbv beta iota zeta.
    unfold bind at 1, get_br. cbv beta iota zeta. rewrite Hr.
    unfold bind at 1. rewrite rbr_find_node_Some, Hdest.
    eexists _, _. split; [reflexivity|]. cbn.
    split; [apply same_control_tx, same_control_refl|done].
Qed.

Lemma skb_clone_cases skb w :
  (∃ t, skb_clone skb w = Some (None, mk_world (w_br w) (w_out w) t)) ∨
  (∃ t, skb_clone skb w =
          Some (Some (set_cloned true skb, set_cloned true skb),
                mk_world (w_br w) (w_out w) t)).
Proof.
  unfold skb_clone, bind, alloc. destruct w as [b o [|[] t]]; cbn.
  - right. by exists [].
  - right. by exists t.
  - left. by exists t.
Qed.

Lemma recv_drop_control port skb w b :
  same_control b (w_br w) →
  ∃ w', recv_drop (Some port) skb w = Some (tt, w') ∧ same_control b (w_br w').
Proof. intros Hc. eexists. split; [reflexivity|]. cbn. by apply same_control_rx. Qed.

Lemma printk_recv_drop_control port skb msg w b :
  same_control b (w_br w) →
  ∃ w', (printk msg >> recv_drop (Some port) skb) w = Some (tt, w') ∧
        same_control b (w_br w').
Proof. intros Hc. eexists. split; [reflexivity|]. cbn. by apply same_control_rx. Qed.

Lemma recv_checked_control w skbm port r flags trhsize src trh vid :
  br_rbr (w_br w) = Some r →
  (sizeof_trill_hdr ≤ trhsize)%nat →
  (sizeof_trill_hdr + ETH_HLEN ≤ skb_headlen skbm)%nat →
  ∃ w', recv_checked port (Some r) skbm flags trhsize src trh vid w = Some (tt, w') ∧
        same_control (w_br w) (w_br w').
Proof.
  intros Hr Hsz Hlen. unfold recv_checked.
  pose proof (same_control_refl (w_br w)) as Hc0.
  destruct (_ || _); [by apply printk_recv_drop_control|].
  destruct (negb _); [by apply printk_recv_drop_control|].
  unfold bind at 1. cbn [lift ret].
  destruct (_ =? nick r); [by apply printk_recv_drop_control|].
  destruct (negb _); [by apply printk_recv_drop_control|].
  destruct (trill_get_multidest flags =? 0).
  { destruct (_ =? _); [by apply printk_recv_drop_control|].
    destruct (_ =? nick r).
    - rewrite rbr_decaps_ok by done. eexists. split; [reflexivity|].
      cbn. unfold decap_learn. by apply same_control_fdb.
    - destruct (negb _); [|by apply printk_recv_drop_control].
      unfold bind at 1, upd_br.
      match goal with |- context [rbr_fwd port ?c ?a vid ?w1] =>
        destruct (rbr_fwd_control port c a vid w1 r) as (w2 & -> & Hc2 & _); [done|] end.
      eexists. split; [reflexivity|].
      apply (same_control_trans _ (set_br_fdb (br_fdb_update (br_fdb (w_br w)) port src vid)
                                     (w_br w))); [by apply same_control_fdb|done]. }
  unfold bind at 1. rewrite rbr_find_node_Some.
  destruct (find_node r _) as [dest|]; [|by apply printk_recv_drop_control].
  unfold bind at 1.
  destruct (recv_adj_loop_total r src (adjnicks (rbr_ni dest)) 0 w) as [idx ->].
  destruct (decide _); [by apply printk_recv_drop_control|].
  unfold bind at 1. rewrite rbr_find_node_Some.
  destruct (find_node r _) as [source_node|]; [|by apply printk_recv_drop_control].
  destruct (_ && _); [by apply recv_drop_control|].
  destruct (_ =? 0); [by apply printk_recv_drop_control|].
  unfold bind at 1, skb_clone. unfold bind at 1, alloc.
  destruct (w_alloc w) as [|[] t] eqn:Ht; cbn [ret].
  3: { eexists. split; [reflexivity|]. cbn.
       by apply same_control_rx, same_control_tx. }
  all: unfold bind at 1.
  all: match goal with |- context [rbr_multidest_fwd _ ?s ?eg ?ig ?sa _ _ ?w1] =>
         destruct (rbr_multidest_fwd_control port s eg ig sa vid false w1 r)
           as (rc & w2 & -> & Hc2 & _); [done|] end.
  all: destruct (negb (rc =? 0)).
  all: try (by apply recv_drop_control).
  all: rewrite rbr_decaps_ok by done.
  all: eexists; (split; [reflexivity|]).
  all: cbn; unfold decap_learn; by apply same_control_fdb.
Qed.

(** rbr_recv returns for every frame from a port of a bridge that has its
    RBridge state, without a NULL dereference or a BUG, and writes nothing
    of the bridge but its counters and its fdb: device, addresses, ports,
    spanning-tree and TRILL state, local nickname, tree root and neighbour
    table are after the call what they were before. *)
Theorem rbr_recv_keeps_control_state w skb vid port r :
  br_port_get_rcu (w_br w) (skb_dev skb) = Some port →
  br_rbr (w_br w) = Some r →
  skb_wf skb →
  ∃ w', rbr_recv skb vid w = Some (tt, w') ∧ same_control (w_br w) (w_br w').
Proof.
  intros Hport Hr Hwf.
  destruct (rbr_recv_front w skb vid port Hport Hwf)
    as [(w' & Hrun & Hb & _)
       | (skb1 & w1 & Hmac & Hb & Ho & Hpay & Hdata & Hmh1 & Hlen & Heq)].
  { exists w'. split; [done|]. rewrite Hb. apply same_control_rx, same_control_refl. }
  rewrite Heq, Hr.
  destruct (recv_checked_control w1 (mark_encapsulated skb1) port r
              (frame_flags skb) (frame_trhsize skb) (h_source (eth_hdr skb))
              (skb_linear skb1) vid) as (w' & Hrun & Hc).
  - by rewrite Hb.
  - unfold frame_trhsize. lia.
  - rewrite <- length_skb_linear, mark_encapsulated_linear, length_skb_linear.
    unfold frame_trhsize in Hlen. lia.
  - exists w'. split; [done|]. by rewrite <- Hb.
Qed.

Lemma rbr_encaps_control skb A B m w :
  skb_wf skb →
  (ETH_HLEN ≤ skb_data skb)%nat →
  ∃ failed skb_enc w', rbr_encaps TRILL_DEFAULT_HOPS skb A B m w
                         = Some ((failed, skb_enc), w') ∧
                       w_br w' = w_br w.
Proof.
  intros Hwf Hroom.
  destruct (rbr_encaps_total skb A B m w Hwf Hroom) as ([failed skb_enc] & w' & Hrun).
  exists failed, skb_enc, w'. split; [done|].
  by destruct (rbr_encaps_inv skb A B m w failed skb_enc w' Hwf Hrun) as (_ & ? & _).
Qed.

(** rbr_encaps_prepare returns for every frame that has room for an
    Ethernet header in front of its data, on a bridge that has its RBridge
    state, without a NULL dereference or a BUG, and writes nothing of the
    bridge but its counters: device, addresses, ports, spanning-tree and
    TRILL state, local nickname, tree root and neighbour table are after the
    call what they were before, and so is the fdb. *)
Theorem rbr_encaps_prepare_keeps_control_state w skb egressnick vid r :
  br_rbr (w_br w) = Some r →
  skb_wf skb →
  (ETH_HLEN ≤ skb_data skb)%nat →
  ∃ w', rbr_encaps_prepare TRILL_DEFAULT_HOPS skb egressnick vid w = Some (tt, w') ∧
        same_control (w_br w) (w_br w') ∧
        br_fdb (w_br w') = br_fdb (w_br w).
Proof.
  intros Hr Hwf Hroom.
  assert (Hdrop : ∀ (op : option net_bridge_port) s (w1 : world F),
    same_control (w_br w) (w_br w1) → br_fdb (w_br w1) = br_fdb (w_br w) →
    ∃ w', encaps_drop op s w1 = Some (tt, w') ∧
          same_control (w_br w) (w_br w') ∧ br_fdb (w_br w') = br_fdb (w_br w)).
  { intros [p|] s w1 Hc Hf; eexists; (split; [reflexivity|]); cbn; split; try done;
      by apply same_control_tx. }
  assert (Hpdrop : ∀ msg (op : option net_bridge_port) s,
    ∃ w', (printk msg >> encaps_drop op s) w = Some (tt, w') ∧
          same_control (w_br w) (w_br w') ∧ br_fdb (w_br w') = br_fdb (w_br w)).
  { intros msg op s. unfold bind, printk, emit.
    apply Hdrop; [apply same_control_refl|done]. }
  unfold rbr_encaps_prepare. unfold bind at 1, get_br. cbv beta iota zeta.
  destruct (br_port_get_rcu (w_br w) (skb_dev skb)) as [p|]; [|apply Hpdrop].
  destruct (_ && _); [apply Hpdrop|].
  rewrite Hr. unfold bind at 1. cbn [lift ret]. cbv zeta.
  destruct (negb (VALID_NICK (nick r))); [apply Hpdrop|].
  destruct (egressnick =? RBRIDGE_NICKNAME_NONE).
  - unfold bind at 1. rewrite rbr_find_node_Some.
    destruct (find_node r (nick r)) as [self|]; [|apply Hpdrop].
    destruct (negb (VALID_NICK _)); [apply Hpdrop|].
    unfold bind at 1.
    destruct (skb_clone_cases skb w) as [(t & ->)|(t & ->)].
    { unfold bind, upd_br, printk, emit. apply Hdrop; cbn; [|done].
      apply same_control_tx, same_control_refl. }
    unfold bind at 1, emit. unfold bind at 1.
    match goal with |- context [rbr_encaps _ ?s ?a ?b ?m ?w1] =>
      destruct (rbr_encaps_control s a b m w1) as (failed & s' & w2 & -> & Hb2);
        [done|done|] end.
    cbn [w_br] in Hb2.
    destruct failed; [apply Hdrop; rewrite Hb2; [apply same_control_refl|done]|].
    unfold bind at 1.
    match goal with |- context [rbr_multidest_fwd _ ?s ?eg ?ig ?sa _ ?fr ?w1] =>
      destruct (rbr_multidest_fwd_control p s eg ig sa vid fr w1 r)
        as (rc & w3 & -> & Hc3 & Hf3); [congruence|] end.
    eexists. split; [reflexivity|]. rewrite Hb2 in Hc3, Hf3. done.
  - unfold bind at 1.
    destruct (rbr_encaps_control skb (nick r) egressnick false w Hwf Hroom)
      as (failed & s' & w2 & -> & Hb2).
    destruct failed; [apply Hdrop; rewrite Hb2; [apply same_control_refl|done]|].
    destruct (rbr_fwd_control p s' egressnick vid w2 r) as (w3 & -> & Hc3 & Hf3);
      [congruence|].
    eexists. split; [reflexivity|]. rewrite Hb2 in Hc3, Hf3. done.
Qed.

(** ** The Decapsulator *)

(** rbr_decaps without a port frees the buffer, and with a header size below
    that of a TRILL header it counts the frame in rx_dropped and frees it.
    Otherwise it teaches the fdb the inner source address under the ingress
    nickname, and then asks the fdb so taught for the inner destination: the
    buffer goes to the port found, or else to the end stations.  The
    buffer delivered is the one received, its data behind the inner
    Ethernet header, its MAC header mark on it, its protocol the inner
    EtherType, its device the bridge, and no longer marked as encapsulated. *)
Theorem rbr_decaps_outcome skb trhsize vid w :
  rbr_decaps None skb trhsize vid w =
    Some (tt, mk_world (w_br w) (w_out w ++ [Ev_kfree_skb skb]) (w_alloc w)) ∧
  ∀ port,
    ((trhsize < sizeof_trill_hdr)%nat →
     rbr_decaps (Some port) skb trhsize vid w =
       Some (tt, mk_world (set_rx_dropped (incr (rx_dropped (w_br w))) (w_br w))
                   (w_out w ++ [Ev_kfree_skb skb]) (w_alloc w))) ∧
    ((sizeof_trill_hdr ≤ trhsize)%nat →
     (sizeof_trill_hdr + ETH_HLEN ≤ skb_headlen skb)%nat →
     ∃ d skbd,
       rbr_decaps (Some port) skb trhsize vid w =
         Some (tt, mk_world
                     (set_br_fdb
                        (br_fdb_update_nick (br_fdb (w_br w)) port
                           (h_source (drop sizeof_trill_hdr (skb_linear skb))) vid
                           (th_ingressnick (skb_linear skb))) (w_br w))
                     (w_out w ++ [d]) (w_alloc w)) ∧
       match br_fdb_get
               (br_fdb_update_nick (br_fdb (w_br w)) port
                  (h_source (drop sizeof_trill_hdr (skb_linear skb))) vid
                  (th_ingressnick (skb_linear skb)))
               (h_dest (drop sizeof_trill_hdr (skb_linear skb))) vid with
       | Some dst => d = Ev_br_deliver dst skbd
       | None => d = Ev_br_endstation_deliver skbd
       end ∧
       skb_buf skbd = skb_buf skb ∧
       skb_frags skbd = skb_frags skb ∧
       mac_header skbd = (skb_data skb + sizeof_trill_hdr)%nat ∧
       skb_data skbd = (skb_data skb + sizeof_trill_hdr + ETH_HLEN)%nat ∧
       protocol skbd = h_proto (drop sizeof_trill_hdr (skb_linear skb)) ∧
       skb_dev skbd = br_dev (w_br w) ∧
       encapsulation skbd = false).
Proof.
  split; [reflexivity|]. intros port. split.
  - intros Hlt. unfold rbr_decaps. destruct (decide _) as [?|_]; [lia|]. reflexivity.
  - intros Hsz Hlen. rewrite rbr_decaps_ok by done.
    exists (decap_finish_event (decap_learn (w_br w) port skb vid)
              (decap_rewrite (br_dev (w_br w)) skb) vid),
      (decap_rewrite (br_dev (w_br w)) skb).
    assert (Hhdr : eth_hdr (decap_rewrite (br_dev (w_br w)) skb)
                   = drop sizeof_trill_hdr (skb_linear skb)).
    { unfold eth_hdr, decap_rewrite, skb_linear. cbv zeta.
      match goal with |- context [if ?c then _ else _] => destruct c end;
        cbn; rewrite drop_drop; f_equal; lia. }
    split; [reflexivity|]. split.
    { unfold decap_finish_event. rewrite Hhdr. unfold decap_learn. cbn [br_fdb set_br_fdb].
      by destruct (br_fdb_get _ _ _). }
    unfold decap_rewrite. cbv zeta.
    match goal with |- context [if ?c then _ else _] => destruct c eqn:Henc end;
      cbn in *; repeat split; try done; try lia;
      unfold h_proto, eth_hdr, skb_linear; cbn; by rewrite drop_drop.
Qed.

(** ** Flooding from the Encapsulator *)

Lemma no_alloc_failure_drop (b b' : net_bridge F) o o' tape k :
  no_alloc_failure (mk_world b o tape) →
  no_alloc_failure (mk_world b' o' (drop k tape)).
Proof. unfold no_alloc_failure. cbn. apply Forall_drop. Qed.

Lemma skb_cow_head_tape n skb w res w' :
  skb_cow_head n skb w = Some (res, w') → ∃ k, w_alloc w' = drop k (w_alloc w).
Proof.
  unfold skb_cow_head. destruct (_ || _).
  - unfold bind, alloc. destruct (w_alloc w) as [|[] t] eqn:Ht; cbn; intros [= <- <-]; cbn.
    + exists 0%nat. by rewrite Ht.
    + by exists 1%nat.
    + by exists 1%nat.
  - intros [= <- <-]. by exists 0%nat.
Qed.

Lemma encaps_after_vlan_tape A B m skb w res w' :
  encaps_after_vlan TRILL_DEFAULT_HOPS A B m skb w = Some (res, w') →
  ∃ k, w_alloc w' = drop k (w_alloc w).
Proof.
  intros Hrun. unfold encaps_after_vlan in Hrun.
  apply bind_inv in Hrun as ([ok s4] & w4 & Hcow & Hrun).
  apply skb_cow_head_tape in Hcow as [k Hk]. exists k. rewrite <- Hk.
  destruct ok; cbn [negb] in Hrun; [|cbn in Hrun; by inversion Hrun].
  apply bind_inv in Hrun as (s5 & w5 & Hp5 & Hrun). apply lift_inv in Hp5 as [_ ->].
  cbv zeta in Hrun.
  apply bind_inv in Hrun as (s7 & w7 & Hp7 & Hrun). apply lift_inv in Hp7 as [_ ->].
  apply bind_inv in Hrun as (s10 & w10 & Hp10 & Hrun). apply lift_inv in Hp10 as [_ ->].
  cbn in Hrun. by inversion Hrun.
Qed.

Lemma rbr_encaps_tape skb A B m w res w' :
  rbr_encaps TRILL_DEFAULT_HOPS skb A B m w = Some (res, w') →
  ∃ k, w_alloc w' = drop k (w_alloc w).
Proof.
  intros Hrun. rewrite rbr_encaps_unfold in Hrun.
  apply bind_inv in Hrun as (s1 & w1 & Hp & Hrun). apply lift_inv in Hp as [_ ->].
  cbv zeta in Hrun.
  destruct (br_vlan_get_tag _) as [tci|]; [|by apply encaps_after_vlan_tape in Hrun].
  apply bind_inv in Hrun as ([ok s3] & w3 & Hvlan & Hrun).
  assert (Hk3 : ∃ k, w_alloc w3 = drop k (w_alloc w)).
  { unfold vlan_insert_tag in Hvlan.
    apply bind_inv in Hvlan as ([ok0 s0] & w0 & Hcow & Hvlan).
    apply skb_cow_head_tape in Hcow as [k Hk]. exists k. rewrite <- Hk.
    destruct ok0; cbn [negb] in Hvlan; [|cbn in Hvlan; by inversion Hvlan].
    apply bind_inv in Hvlan as (s0' & w0' & Hp & Hvlan). apply lift_inv in Hp as [_ ->].
    cbn in Hvlan. by inversion Hvlan. }
  destruct Hk3 as [k3 Hk3].
  destruct ok; cbn [negb] in Hrun.
  - apply encaps_after_vlan_tape in Hrun as [k Hk]. exists (k3 + k)%nat.
    by rewrite Hk, Hk3, drop_drop.
  - cbn in Hrun. inversion Hrun; subst. by exists k3.
Qed.

Lemma skb_copied_facts skb :
  skb_wf skb →
  skb_payload (skb_copied skb) = skb_payload skb ∧
  (skb_headlen skb ≤ skb_headlen (skb_copied skb))%nat ∧
  mac_header (skb_copied skb) = mac_header skb ∧
  skb_data (skb_copied skb) = skb_data skb ∧
  skb_wf (skb_copied skb).
Proof.
  intros Hwf. unfold skb_copied, skb_payload, skb_linear, skb_headlen, skb_wf in *.
  cbn [skb_buf skb_data skb_frags mac_header set_cloned set_frags set_buf].
  rewrite length_app, app_nil_r, drop_app_le by done. repeat split; try done; lia.
Qed.

(** Every frame among what the Replicator sends of an encapsulated buffer
    carries the TRILL header rbr_encaps wrote, its hop count decremented,
    in front of the inner frame. *)
Lemma replica_events_payload b r skb_enc vid free s fl eg ig inner :
  skb_payload skb_enc = trill_hdr_bytes fl eg ig ++ inner →
  0 ≤ fl < 65536 →
  (sizeof_trill_hdr + ETH_HLEN ≤ skb_headlen skb_enc)%nat →
  (mac_header skb_enc + ETH_HLEN = skb_data skb_enc)%nat →
  skb_wf skb_enc →
  Forall (λ e, ∀ skb', tx_frame e = Some skb' →
                 skb_payload skb' = trill_hdr_bytes (dec_hopcount_flags fl) eg ig ++ inner)
    (replica_events b r skb_enc vid free s).
Proof.
  intros Hpay Hfl Hlen Hmh Hwf.
  destruct (skb_copied_facts skb_enc Hwf) as (Hcp & Hcl & Hcm & Hcd & Hcw).
  assert (Hhop : ∀ c a e,
    c = skb_enc ∨ c = skb_copied skb_enc →
    hop_event b r c vid a = Some e →
    ∀ skb', tx_frame e = Some skb' →
      skb_payload skb' = trill_hdr_bytes (dec_hopcount_flags fl) eg ig ++ inner).
  { intros c a e Hc He skb' Htx. unfold hop_event in He.
    destruct (find_node r a) as [adj|]; [|done]. cbn in He. inversion He; subst e. clear He.
    destruct (fwd_of_encapsulated b adj c vid fl eg ig inner) as (_ & s' & Hs' & _ & _ & _ & _ & Hp).
    - destruct Hc as [->| ->]; [done|]. by rewrite Hcp.
    - done.
    - destruct Hc as [->| ->]; [done|]. lia.
    - destruct Hc as [->| ->]; [done|]. by rewrite Hcm, Hcd.
    - destruct Hc as [->| ->]; done.
    - rewrite Hs' in Htx. by inversion Htx; subst. }
  unfold replica_events. apply Forall_app. split.
  - apply Forall_forall. intros e He.
    apply list_elem_of_omap in He as (a & _ & Ha).
    apply (Hhop (skb_copied skb_enc) a e); [by right|done].
  - destruct (saved_target free s) as [a|].
    + destruct (hop_event b r skb_enc vid a) as [e|] eqn:He; cbn [option_list];
        [|apply List.Forall_nil].
      apply List.Forall_cons; [|apply List.Forall_nil].
      apply (Hhop skb_enc a e); [by left|done].
    + apply List.Forall_cons; [|apply List.Forall_nil]. intros skb' Htx. done.
Qed.

(** ** The Replicator when a copy cannot be allocated *)

Lemma forward_copies_fails p skb vid l w r k t :
  br_rbr (w_br w) = Some r →
  Forall (λ a, is_Some (find_node r a)) l →
  (k < length l)%nat →
  w_alloc w = replicate k true ++ false :: t →
  forward_copies p skb vid l w =
    Some (false, mk_world (set_tx_dropped (incr (tx_dropped (w_br w))) (w_br w))
                   (w_out w ++ omap (hop_event (w_br w) r (skb_copied skb) vid) (take k l)
                      ++ [Ev_printk "rbr_multidest_fwd:skb_copy failed"])
                   t).
Proof.
  revert l w. induction k as [|k IH]; intros l w Hr Hl Hk Htape;
    (destruct l as [|a l]; [cbn in Hk; lia|]).
  - cbn [forward_copies replicate app take omap list_omap] in *.
    unfold bind at 1, skb_copy. unfold bind at 1, alloc. rewrite Htape.
    cbv [ret bind upd_br printk emit w_br w_out w_alloc]. reflexivity.
  - apply List.Forall_cons_iff in Hl as [[adj Ha] Hl].
    cbn [forward_copies replicate app] in *.
    unfold bind at 1, skb_copy. unfold bind at 1, alloc. rewrite Htape. cbn [ret].
    unfold bind at 1. fold (skb_copied skb).
    rewrite (rbr_fwd_found p (skb_copied skb) a vid _ r adj) by done.
    match goal with |- context [forward_copies p skb vid l ?w1] =>
      rewrite (IH l w1); [|done|done|cbn in Hk; lia|done] end.
    cbn [w_br w_out w_alloc take omap list_omap]. unfold hop_event at 2. rewrite Ha.
    cbn [fmap option_fmap option_map]. rewrite <- !app_assoc. reflexivity.
Qed.

(** When the allocation of a copy fails in rbr_multidest_fwd, the copies
    made before have been sent and stay sent; the failure is counted in
    tx_dropped twice, where it happens and again on the way out; the
    original buffer is freed, not forwarded, also when an adjacency had been
    saved for it, and the result is -1. *)
Theorem rbr_multidest_fwd_copy_failure p skb egressnick ingressnick saddr vid free w r dest
    k t :
  br_rbr (w_br w) = Some r →
  find_node r egressnick = Some dest →
  (k < length (copy_targets free
                 (survivors r ingressnick saddr (adjnicks (rbr_ni dest)))))%nat →
  w_alloc w = replicate k true ++ false :: t →
  rbr_multidest_fwd (Some p) skb egressnick ingressnick saddr vid free w =
    Some (-1,
          mk_world
            (set_tx_dropped (incr (incr (tx_dropped (w_br w)))) (w_br w))
            (w_out w
               ++ omap (hop_event (w_br w) r (skb_copied skb) vid)
                    (take k (copy_targets free
                               (survivors r ingressnick saddr (adjnicks (rbr_ni dest)))))
               ++ [Ev_printk "rbr_multidest_fwd:skb_copy failed"; Ev_kfree_skb skb])
            t).
Proof.
  intros Hr Hdest Hk Htape.
  pose proof (survivors_found r ingressnick saddr (adjnicks (rbr_ni dest))) as Hfound.
  set (s := survivors r ingressnick saddr (adjnicks (rbr_ni dest))) in *.
  assert (Hct : Forall (λ a, is_Some (find_node r a)) (copy_targets free s)).
  { unfold copy_targets. destruct free; [|done]. destruct s; [done|].
    by apply List.Forall_cons_iff in Hfound as [_ ?]. }
  rewrite (rbr_multidest_fwd_unfold _ _ _ _ _ _ _ _ r dest) by done. cbv zeta. fold s.
  unfold bind at 1.
  rewrite (forward_copies_fails p skb vid (copy_targets free s) w r k t) by done.
  cbv [multidest_fwd_fail bind upd_br kfree_skb emit ret w_br w_out w_alloc
       set_tx_dropped br_dev br_dev_addr tx_dropped rx_dropped stp_enabled trill_enabled
       br_rbr br_ports br_fdb].
  rewrite <- !app_assoc. reflexivity.
Qed.

(** ** A failed VLAN reinsertion *)

(** When the buffer carries an accelerated VLAN tag and the headroom for its
    reinsertion cannot be allocated, vlan_insert_tag has freed the buffer by
    the time rbr_encaps reports the failure, and rbr_encaps_prepare frees
    the same buffer once more on its way out; the frame is counted in
    tx_dropped and nothing is sent. *)
Theorem rbr_encaps_prepare_vlan_failure w skb egressnick vid p r tci t :
  br_port_get_rcu (w_br w) (skb_dev skb) = Some p →
  br_rbr (w_br w) = Some r →
  VALID_NICK (nick r) = true →
  VALID_NICK egressnick = true →
  (ETH_HLEN ≤ skb_data skb)%nat →
  br_vlan_get_tag skb = Some tci →
  cloned skb = true ∨ (skb_data skb < ETH_HLEN + VLAN_HLEN)%nat →
  w_alloc w = false :: t →
  ∃ freed,
    rbr_encaps_prepare TRILL_DEFAULT_HOPS skb egressnick vid w =
      Some (tt, mk_world (set_tx_dropped (incr (tx_dropped (w_br w))) (w_br w))
                  (w_out w ++ [Ev_kfree_skb freed;
                               Ev_printk "rbr_encaps: vlan_put_tag failed";
                               Ev_kfree_skb freed])
                  t) ∧
    skb_buf freed = skb_buf skb ∧ skb_frags freed = skb_frags skb.
Proof.
  intros Hport Hr Hlocal Heg Hroom Htag Hneed Htape.
  assert (Hne : (egressnick =? RBRIDGE_NICKNAME_NONE) = false).
  { unfold VALID_NICK in Heg. apply andb_true_iff in Heg as [Heg _].
    by apply negb_true_iff in Heg. }
  set (s1 := set_data (skb_data skb - ETH_HLEN)%nat skb).
  set (s2 := if negb (encapsulation s1)
             then set_encapsulation true (skb_reset_inner_headers s1) else s1).
  assert (Htag2 : br_vlan_get_tag s2 = Some tci).
  { rewrite <- Htag. apply br_vlan_get_tag_tci. unfold s2, s1. by destruct (negb _). }
  assert (Hcow : skb_cow_head VLAN_HLEN s2 w
                 = Some ((false, s2), mk_world (w_br w) (w_out w) t)).
  { unfold skb_cow_head, skb_headroom.
    assert (Hd : skb_data s2 = (skb_data skb - ETH_HLEN)%nat)
      by (unfold s2, s1; by destruct (negb _)).
    assert (Hc : cloned s2 = cloned skb) by (unfold s2, s1; by destruct (negb _)).
    rewrite Hd, Hc.
    replace (negb (VLAN_HLEN - (skb_data skb - ETH_HLEN) =? 0)%nat || cloned skb) with true.
    - unfold bind, alloc. by rewrite Htape.
    - symmetry. apply orb_true_iff. destruct Hneed as [->|Hlt]; [by right|left].
      apply negb_true_iff, Nat.eqb_neq. unfold VLAN_HLEN, ETH_HLEN in *. lia. }
  exists s2. split; [|unfold s2, s1; by destruct (negb _)].
  unfold rbr_encaps_prepare. unfold bind at 1, get_br. cbv beta iota zeta.
  rewrite Hport, Hr, Heg, Hne. cbn [negb andb].
  unfold bind at 1. cbn [lift ret]. cbv zeta. rewrite Hlocal. cbn [negb].
  unfold bind at 1. rewrite rbr_encaps_unfold.
  unfold bind at 1, skb_push. rewrite decide_True by done. cbn [lift ret]. cbv zeta.
  fold s1. fold s2. rewrite Htag2.
  unfold bind at 1, vlan_insert_tag. unfold bind at 1. rewrite Hcow. cbn [negb].
  cbv [bind kfree_skb printk emit ret encaps_drop upd_br w_br w_out w_alloc negb].
  rewrite <- !app_assoc. reflexivity.
Qed.

(** ** The Replicator, for every allocator *)

Lemma allocation_cases n (tape : list bool) :
  Forall (λ ok, ok = true) (take n tape) ∨
  ∃ k t, (k < n)%nat ∧ tape = replicate k true ++ false :: t.
Proof.
  revert tape. induction n as [|n IH]; intros tape; [left; by rewrite take_0|].
  destruct tape as [|[] tape]; [by left| |].
  - destruct (IH tape) as [Hok|(k & t & Hk & ->)].
    + left. cbn [take]. by apply List.Forall_cons.
    + right. exists (S k), t. split; [lia|done].
  - right. exists 0%nat, tape. split; [lia|done].
Qed.

Lemma forward_copies_allocated p skb vid l w r :
  br_rbr (w_br w) = Some r →
  allocations_succeed (length l) w →
  Forall (λ a, is_Some (find_node r a)) l →
  forward_copies p skb vid l w =
    Some (true, mk_world (w_br w)
                  (w_out w ++ omap (hop_event (w_br w) r (skb_copied skb) vid) l)
                  (drop (length l) (w_alloc w))).
Proof.
  revert w. induction l as [|a l IH]; intros w Hr Hna Hl.
  { cbn. rewrite app_nil_r, drop_0. by destruct w. }
  apply List.Forall_cons_iff in Hl as [[adj Ha] Hl].
  destruct w as [b o tape]. unfold allocations_succeed in *.
  cbn [w_br w_out w_alloc length] in *.
  assert (Hcopy : skb_copy skb (mk_world b o tape) =
                  Some (Some (skb_copied skb), mk_world b o (drop 1 tape)) ∧
                  Forall (λ ok, ok = true) (take (length l) (drop 1 tape))).
  { unfold skb_copy, bind, alloc, skb_copied. cbn [w_alloc w_br w_out].
    destruct tape as [|[] t]; cbn [take drop] in *.
    - split; [done|]. by rewrite take_nil.
    - apply List.Forall_cons_iff in Hna as [_ Hna]. by rewrite drop_0.
    - by apply List.Forall_cons_iff in Hna as [? _]. }
  destruct Hcopy as [Hcopy Hna'].
  cbn [forward_copies]. unfold bind at 1. rewrite Hcopy. unfold bind at 1.
  rewrite (rbr_fwd_found p (skb_copied skb) a vid _ r adj) by done.
  rewrite IH; [|done|done|done].
  cbn [w_br w_out w_alloc omap list_omap]. unfold hop_event at 2. rewrite Ha.
  cbn [fmap option_fmap option_map]. rewrite <- app_assoc. cbn [app].
  rewrite drop_drop. do 3 f_equal.
Qed.

Lemma copy_targets_found free r ingressnick saddr adjs :
  Forall (λ a, is_Some (find_node r a))
    (copy_targets free (survivors r ingressnick saddr adjs)).
Proof.
  pose proof (survivors_found r ingressnick saddr adjs) as Hfound.
  unfold copy_targets. destruct free; [|done].
  destruct (survivors _ _ _ _); [done|].
  by apply List.Forall_cons_iff in Hfound as [_ ?].
Qed.

Lemma rbr_multidest_fwd_allocated p skb egressnick ingressnick saddr vid free w r dest :
  br_rbr (w_br w) = Some r →
  find_node r egressnick = Some dest →
  allocations_succeed
    (length (copy_targets free (survivors r ingressnick saddr (adjnicks (rbr_ni dest))))) w →
  rbr_multidest_fwd (Some p) skb egressnick ingressnick saddr vid free w =
    Some (0, mk_world (w_br w)
               (w_out w ++ replica_events (w_br w) r skb vid free
                             (survivors r ingressnick saddr (adjnicks (rbr_ni dest))))
               (drop (length (copy_targets free
                                (survivors r ingressnick saddr (adjnicks (rbr_ni dest)))))
                  (w_alloc w))).
Proof.
  intros Hr Hdest Hna.
  pose proof (survivors_found r ingressnick saddr (adjnicks (rbr_ni dest))) as Hfound.
  pose proof (copy_targets_found free r ingressnick saddr (adjnicks (rbr_ni dest))) as Hct.
  set (s := survivors r ingressnick saddr (adjnicks (rbr_ni dest))) in *.
  rewrite (rbr_multidest_fwd_unfold _ _ _ _ _ _ _ _ r dest) by done. cbv zeta. fold s.
  unfold bind at 1. rewrite (forward_copies_allocated _ _ _ _ _ r) by done.
  unfold replica_events, saved_target. destruct free.
  - destruct s as [|a s']; cbn [head].
    + cbv [bind kfree_skb emit ret w_br w_out w_alloc]. by rewrite <- app_assoc.
    + apply List.Forall_cons_iff in Hfound as [[adj Ha] _].
      assert (He : hop_event (w_br w) r skb vid a =
                   Some (fwd_finish_event (w_br w) (fwd_rewrite (w_br w) adj skb) vid))
        by (unfold hop_event; by rewrite Ha).
      rewrite He. unfold bind at 1.
      rewrite (rbr_fwd_found p skb a vid _ r adj) by done.
      cbn [w_br w_out w_alloc ret option_list]. by rewrite <- app_assoc.
  - cbv [bind kfree_skb emit ret w_br w_out w_alloc]. by rewrite <- app_assoc.
Qed.

Lemma rbr_multidest_fwd_copy_fails p skb egressnick ingressnick saddr vid free w r dest k t :
  br_rbr (w_br w) = Some r →
  find_node r egressnick = Some dest →
  (k < length (copy_targets free
                 (survivors r ingressnick saddr (adjnicks (rbr_ni dest)))))%nat →
  w_alloc w = replicate k true ++ false :: t →
  rbr_multidest_fwd (Some p) skb egressnick ingressnick saddr vid free w =
    Some (-1,
          mk_world
            (set_tx_dropped (incr (incr (tx_dropped (w_br w)))) (w_br w))
            (w_out w
               ++ omap (hop_event (w_br w) r (skb_copied skb) vid)
                    (take k (copy_targets free
                               (survivors r ingressnick saddr (adjnicks (rbr_ni dest)))))
               ++ [Ev_printk "rbr_multidest_fwd:skb_copy failed"; Ev_kfree_skb skb])
            t).
Proof.
  intros Hr Hdest Hk Htape.
  pose proof (copy_targets_found free r ingressnick saddr (adjnicks (rbr_ni dest))) as Hct.
  set (s := survivors r ingressnick saddr (adjnicks (rbr_ni dest))) in *.
  rewrite (rbr_multidest_fwd_unfold _ _ _ _ _ _ _ _ r dest) by done. cbv zeta. fold s.
  unfold bind at 1.
  rewrite (forward_copies_fails p skb vid (copy_targets free s) w r k t) by done.
  cbv [multidest_fwd_fail bind upd_br kfree_skb emit ret w_br w_out w_alloc
       set_tx_dropped br_dev br_dev_addr tx_dropped rx_dropped stp_enabled trill_enabled
       br_rbr br_ports br_fdb].
  rewrite <- !app_assoc. reflexivity.
Qed.

Lemma rbr_multidest_fwd_no_egress p skb egressnick ingressnick saddr vid free w r :
  br_rbr (w_br w) = Some r →
  find_node r egressnick = None →
  rbr_multidest_fwd (Some p) skb egressnick ingressnick saddr vid free w =
    Some (-1, mk_world (set_tx_dropped (incr (tx_dropped (w_br w))) (w_br w))
                (w_out w ++ [Ev_printk "rbr_multidest_fwd: unable to find egress";
                             Ev_kfree_skb skb])
                (w_alloc w)).
Proof.
  intros Hr Hdest. unfold rbr_multidest_fwd. cbv beta iota zeta.
  unfold bind at 1, get_br. cbv beta iota zeta.
  rewrite Hr. unfold bind at 1. rewrite rbr_find_node_Some, Hdest.
  cbv [multidest_fwd_fail bind printk upd_br kfree_skb emit ret w_br w_out w_alloc].
  by rewrite <- !app_assoc.
Qed.

(** Claim C5, as amended. rbr_multidest_fwd, for every invocation and
    every allocator.  Without a port, without RBridge state or without a
    node for the egress nickname it frees the buffer and returns -1.
    Otherwise, with [free] set the first surviving adjacency is remembered
    and copies are made for the later survivors only, and with [free] clear
    (as rbr_recv calls it) every survivor is sent a copy and none is
    remembered.  When every copy is allocated, the copies have been sent in
    the order of the adjacency list, and the original buffer is then
    forwarded to the remembered adjacency, or freed when none was remembered;
    the result is 0 and the bridge is unchanged.  When the allocation of a
    copy fails, the copies made before have been sent, tx_dropped is
    incremented twice, the original buffer is freed, not forwarded, also when
    an adjacency was remembered, and the result is -1.  One of the two
    always is the case, and when every copy is allocated one frame goes to
    the fabric for each survivor. *)
Theorem rbr_multidest_fwd_replicates skb egressnick ingressnick saddr vid free w :
  rbr_multidest_fwd None skb egressnick ingressnick saddr vid free w =
    Some (-1, mk_world (w_br w)
                (w_out w ++ [Ev_printk "rbr_multidest_fwd:port error"; Ev_kfree_skb skb])
                (w_alloc w)) ∧
  ∀ p,
    (br_rbr (w_br w) = None →
     rbr_multidest_fwd (Some p) skb egressnick ingressnick saddr vid free w =
       Some (-1, mk_world (set_tx_dropped (incr (tx_dropped (w_br w))) (w_br w))
                   (w_out w ++ [Ev_kfree_skb skb]) (w_alloc w))) ∧
    (∀ r, br_rbr (w_br w) = Some r →
       (find_node r egressnick = None →
        rbr_multidest_fwd (Some p) skb egressnick ingressnick saddr vid free w =
          Some (-1, mk_world (set_tx_dropped (incr (tx_dropped (w_br w))) (w_br w))
                      (w_out w ++ [Ev_printk "rbr_multidest_fwd: unable to find egress";
                                   Ev_kfree_skb skb])
                      (w_alloc w))) ∧
       (∀ dest s targets,
          find_node r egressnick = Some dest →
          s = survivors r ingressnick saddr (adjnicks (rbr_ni dest)) →
          targets = (if free then tail s else s) →
          (allocations_succeed (length targets) w →
           rbr_multidest_fwd (Some p) skb egressnick ingressnick saddr vid free w =
             Some (0, mk_world (w_br w)
                        (w_out w
                           ++ omap (hop_event (w_br w) r (skb_copied skb) vid) targets
                           ++ match (if free then head s else None) with
                              | Some a => option_list (hop_event (w_br w) r skb vid a)
                              | None => [Ev_kfree_skb skb]
                              end)
                        (drop (length targets) (w_alloc w)))) ∧
          (∀ k t, (k < length targets)%nat →
             w_alloc w = replicate k true ++ false :: t →
             rbr_multidest_fwd (Some p) skb egressnick ingressnick saddr vid free w =
               Some (-1,
                     mk_world
                       (set_tx_dropped (incr (incr (tx_dropped (w_br w)))) (w_br w))
                       (w_out w
                          ++ omap (hop_event (w_br w) r (skb_copied skb) vid)
                               (take k targets)
                          ++ [Ev_printk "rbr_multidest_fwd:skb_copy failed";
                              Ev_kfree_skb skb])
                       t)) ∧
          (allocations_succeed (length targets) w ∨
           ∃ k t, (k < length targets)%nat ∧
                  w_alloc w = replicate k true ++ false :: t) ∧
          length (omap tx_frame
                    (omap (hop_event (w_br w) r (skb_copied skb) vid) targets
                       ++ match (if free then head s else None) with
                          | Some a => option_list (hop_event (w_br w) r skb vid a)
                          | None => [Ev_kfree_skb skb]
                          end))
            = length s)).
Proof.
  split.
  { cbv [rbr_multidest_fwd multidest_fwd_fail bind printk kfree_skb emit ret
         w_br w_out w_alloc]. by rewrite <- !app_assoc. }
  intros p. split.
  { intros Hr. unfold rbr_multidest_fwd. cbv beta iota zeta.
    unfold bind at 1, get_br. cbv beta iota zeta. rewrite Hr.
    cbv [multidest_fwd_fail bind upd_br kfree_skb emit ret w_br w_out w_alloc]. done. }
  intros r Hr. split; [by apply rbr_multidest_fwd_no_egress|].
  intros dest s targets Hdest -> ->.
  pose proof (survivors_found r ingressnick saddr (adjnicks (rbr_ni dest))) as Hfound.
  pose proof (copy_targets_found free r ingressnick saddr (adjnicks (rbr_ni dest))) as Hct.
  fold (copy_targets free (survivors r ingressnick saddr (adjnicks (rbr_ni dest)))).
  fold (saved_target free (survivors r ingressnick saddr (adjnicks (rbr_ni dest)))).
  split; [|split; [|split]].
  - intros Hna.
    rewrite (rbr_multidest_fwd_allocated p skb egressnick ingressnick saddr vid free w r dest)
      by done.
    reflexivity.
  - intros k t Hk Htape.
    by apply (rbr_multidest_fwd_copy_fails p skb egressnick ingressnick saddr vid free w r dest).
  - apply allocation_cases.
  - apply (replica_events_count (w_br w) r skb vid free ingressnick saddr
             (adjnicks (rbr_ni dest))).
Qed.

(** ** Flooding, from rbr_encaps_prepare to the fabric *)

(** rbr_encaps_prepare on the flood path when no allocation fails: the
    local copy, the encapsulation under the chosen root, and the hand-over
    to rbr_multidest_fwd on the tree of that root. *)
Lemma rbr_encaps_prepare_flood_exact w skb vid p r self :
  br_port_get_rcu (w_br w) (skb_dev skb) = Some p →
  br_rbr (w_br w) = Some r →
  VALID_NICK (nick r) = true →
  rbr_nodes r !! nick r = Some self →
  VALID_NICK (flood_root r self) = true →
  skb_wf skb →
  (ETH_HLEN ≤ skb_data skb)%nat →
  no_alloc_failure w →
  ∃ skb_enc t',
    rbr_encaps_prepare TRILL_DEFAULT_HOPS skb RBRIDGE_NICKNAME_NONE vid w =
      Some (tt, mk_world
                  (match find_node r (flood_root r self) with
                   | Some _ => w_br w
                   | None => set_tx_dropped (incr (tx_dropped (w_br w))) (w_br w)
                   end)
                  (w_out w ++ Ev_br_endstation_deliver (set_cloned true skb) ::
                     match find_node r (flood_root r self) with
                     | Some dest =>
                         replica_events (w_br w) r skb_enc vid true
                           (survivors r (nick r) None (adjnicks (rbr_ni dest)))
                     | None =>
                         [Ev_printk "rbr_multidest_fwd: unable to find egress";
                          Ev_kfree_skb skb_enc]
                     end)
                  t') ∧
    skb_payload skb_enc =
      trill_hdr_bytes (encaps_flags TRILL_DEFAULT_HOPS true) (flood_root r self) (nick r)
        ++ encaps_inner skb ∧
    (sizeof_trill_hdr + ETH_HLEN ≤ skb_headlen skb_enc)%nat ∧
    (mac_header skb_enc + ETH_HLEN = skb_data skb_enc)%nat ∧
    skb_wf skb_enc.
Proof.
  intros Hport Hr Hlocal Hself Hroot Hwf Hroom Hna.
  rewrite (rbr_encaps_prepare_flood w skb vid p r self) by done.
  rewrite Hroot. cbn [negb].
  assert (Hclone : ∃ t, skb_clone skb w =
            Some (Some (set_cloned true skb, set_cloned true skb),
                  mk_world (w_br w) (w_out w) t) ∧
            no_alloc_failure (mk_world (w_br w) (w_out w) t)).
  { unfold skb_clone, bind, alloc, no_alloc_failure in *.
    destruct w as [b o [|[] t]]; cbn in *.
    - by exists [].
    - exists t. split; [done|]. by inversion Hna.
    - by inversion Hna. }
  destruct Hclone as (t & Hclone & Hna1).
  unfold bind at 1. rewrite Hclone. unfold bind at 1, emit. cbn [w_br w_out w_alloc].
  set (w1 := mk_world (w_br w) (w_out w ++ [Ev_br_endstation_deliver (set_cloned true skb)]) t).
  assert (Hna1' : no_alloc_failure w1) by done.
  destruct (rbr_encaps_succeeds (set_cloned true skb) (nick r) (flood_root r self) true w1)
    as (skb_enc & w2 & Henc); [done|done|done|].
  destruct (rbr_encaps_inv (set_cloned true skb) (nick r) (flood_root r self) true w1 false
              skb_enc w2) as (_ & Hb2 & _ & Hok); [done|done|].
  destruct (Hok eq_refl) as (Ho2 & Hpay & Hlen & Hmh & Hwfe & _). clear Hok.
  destruct (rbr_encaps_tape _ _ _ _ _ _ _ Henc) as [k Hk].
  assert (Hna2 : no_alloc_failure w2).
  { destruct w2 as [b2 o2 t2]. cbn in Hk. subst t2.
    by apply (no_alloc_failure_drop (w_br w1) _ (w_out w1)). }
  unfold bind at 1. rewrite Henc. cbv iota beta.
  assert (Hr2 : br_rbr (w_br w2) = Some r) by (rewrite Hb2; exact Hr).
  assert (Hb : w_br w2 = w_br w) by exact Hb2.
  assert (Ho : w_out w2 = w_out w ++ [Ev_br_endstation_deliver (set_cloned true skb)])
    by (rewrite Ho2; reflexivity).
  change (encaps_inner (set_cloned true skb)) with (encaps_inner skb) in Hpay.
  exists skb_enc. unfold bind at 1.
  destruct (find_node r (flood_root r self)) as [dest|] eqn:Hfind.
  - rewrite (rbr_multidest_fwd_exact p skb_enc (flood_root r self) (nick r) None vid true w2
               r dest Hr2 Hfind Hna2).
    eexists. split; [|done]. cbn [ret w_br w_out w_alloc].
    rewrite Hb, Ho, <- app_assoc. reflexivity.
  - rewrite (rbr_multidest_fwd_no_egress p skb_enc (flood_root r self) (nick r) None vid true
               w2 r Hr2 Hfind).
    eexists. split; [|done]. cbn [ret w_br w_out w_alloc].
    rewrite Hb, Ho, <- app_assoc. reflexivity.
Qed.

(** Where the frames of the Replicator are addressed: the copies to the
    adjacencies that get one, in order, and the original buffer to the
    saved adjacency. *)
Lemma replica_events_dests b r skb vid free ingressnick saddr adjs :
  tx_wf skb →
  tx_wf (skb_copied skb) →
  omap tx_dest (replica_events b r skb vid free (survivors r ingressnick saddr adjs)) =
    omap (node_snpa r)
      (copy_targets free (survivors r ingressnick saddr adjs)
         ++ option_list (saved_target free (survivors r ingressnick saddr adjs))).
Proof.
  intros Hwf Hwfc.
  assert (Hone : ∀ c a adj, tx_wf c → find_node r a = Some adj →
            ∃ e, hop_event b r c vid a = Some e ∧ tx_dest e = Some (adjsnpa (rbr_ni adj))).
  { intros c a adj Hc Ha. unfold hop_event. rewrite Ha. eexists. split; [reflexivity|].
    destruct (tx_frame_fwd_finish_event b (fwd_rewrite b adj c) vid) as (s' & Hs' & _).
    unfold tx_dest. rewrite Hs'. cbn [fmap option_fmap option_map].
    by rewrite (h_dest_fwd_event b adj c vid s' Hc Hs'). }
  assert (Hall : ∀ c (l : list Z), tx_wf c →
            omap tx_dest (omap (hop_event b r c vid) l) = omap (node_snpa r) l).
  { intros c l Hc. induction l as [|a l IH]; [done|].
    cbn [omap list_omap]. unfold node_snpa at 1.
    destruct (find_node r a) as [adj|] eqn:Ha.
    - destruct (Hone c a adj Hc Ha) as (e & -> & He).
      cbn [omap list_omap fmap option_fmap option_map]. by rewrite He, IH.
    - unfold hop_event at 1. rewrite Ha. cbn [fmap option_fmap option_map]. exact IH. }
  unfold replica_events. rewrite !omap_app, Hall by done. f_equal.
  destruct (saved_target free _) as [a|]; [|done].
  change (option_list (Some a)) with [a]. cbn [omap list_omap]. unfold node_snpa.
  destruct (find_node r a) as [adj|] eqn:Ha.
  - destruct (Hone skb a adj Hwf Ha) as (e & -> & He).
    change (option_list (Some e)) with [e]. cbn [omap list_omap fmap option_fmap option_map].
    by rewrite He.
  - unfold hop_event. by rewrite Ha.
Qed.

(** Claim C8. When rbr_encaps_prepare is called with egress nickname NONE
    and the local nickname is valid, the distribution-tree root is the first
    dtroot of the local node's entry when it has one and the tree root of the
    RBridge otherwise.  When that root is not a valid nickname the frame is
    dropped.  Otherwise the call returns and every frame sent to the fabric
    carries that root as its egress nickname and the local nickname as its
    ingress nickname; and when no allocation fails, the frame is handed to
    local delivery, encapsulated under a TRILL header that names that root
    as egress nickname, and given to rbr_multidest_fwd on the tree of that
    root: the trace ends with what the Replicator makes of the encapsulated
    buffer on the adjacencies of the root's node, or with its release, counted
    in tx_dropped, when the root has no node. *)
Theorem rbr_encaps_prepare_flood_root w skb vid p r self :
  br_port_get_rcu (w_br w) (skb_dev skb) = Some p →
  br_rbr (w_br w) = Some r →
  VALID_NICK (nick r) = true →
  rbr_nodes r !! nick r = Some self →
  flood_root r self = match dtrootnicks (rbr_ni self) with
                      | root :: _ => root
                      | [] => treeroot r
                      end ∧
  (VALID_NICK (flood_root r self) = false →
   rbr_encaps_prepare TRILL_DEFAULT_HOPS skb RBRIDGE_NICKNAME_NONE vid w =
     Some (tt, mk_world (set_tx_dropped (incr (tx_dropped (w_br w))) (w_br w))
                 (w_out w ++ [Ev_printk "rbr_encaps_prepare: dtrNick is unvalid";
                              Ev_kfree_skb skb])
                 (w_alloc w))) ∧
  (VALID_NICK (flood_root r self) = true →
   skb_wf skb → (ETH_HLEN ≤ skb_data skb)%nat →
   is_u16 (nick r) → is_u16 (flood_root r self) →
   ∃ w', rbr_encaps_prepare TRILL_DEFAULT_HOPS skb RBRIDGE_NICKNAME_NONE vid w
           = Some (tt, w') ∧
         emitted (tx_nicks (flood_root r self) (nick r)) w w' ∧
         (no_alloc_failure w →
          ∃ skb_enc,
            skb_payload skb_enc =
              trill_hdr_bytes (encaps_flags TRILL_DEFAULT_HOPS true)
                (flood_root r self) (nick r) ++ encaps_inner skb ∧
            th_egressnick (skb_payload skb_enc) = flood_root r self ∧
            w_br w' = match find_node r (flood_root r self) with
                      | Some _ => w_br w
                      | None => set_tx_dropped (incr (tx_dropped (w_br w))) (w_br w)
                      end ∧
            w_out w' =
              w_out w ++ Ev_br_endstation_deliver (set_cloned true skb) ::
                match find_node r (flood_root r self) with
                | Some dest =>
                    replica_events (w_br w) r skb_enc vid true
                      (survivors r (nick r) None (adjnicks (rbr_ni dest)))
                | None =>
                    [Ev_printk "rbr_multidest_fwd: unable to find egress";
                     Ev_kfree_skb skb_enc]
                end)).
Proof.
  intros Hport Hr Hlocal Hself. split; [reflexivity|].
  destruct (rbr_encaps_prepare_flood_nicks w skb vid p r self Hport Hr Hlocal Hself)
    as [Hdrop Hsend].
  split; [exact Hdrop|].
  intros Hroot Hwf Hroom Hul Hur.
  destruct (Hsend Hroot Hwf Hroom Hul Hur) as (w' & Hrun & Hem).
  exists w'. split; [exact Hrun|]. split; [exact Hem|].
  intros Hna.
  destruct (rbr_encaps_prepare_flood_exact w skb vid p r self Hport Hr Hlocal Hself Hroot
              Hwf Hroom Hna) as (skb_enc & t' & Hrun' & Hpay & _).
  rewrite Hrun in Hrun'. inversion Hrun' as [Hw']. clear Hrun'.
  exists skb_enc. split; [exact Hpay|]. split; [|done].
  unfold th_egressnick. rewrite Hpay. by apply be16_at_hdr_egress.
Qed.

(** Flooding, from rbr_encaps_prepare to the fabric: with a valid tree
    root that has a node, and when no allocation fails, the frame is first
    handed to the local end stations as it came, and then sent once to each
    adjacency of the tree that has a node and is not the RBridge itself:
    the frames are addressed, in this order, to the second and later such
    adjacencies and then to the first, each carrying the root as egress
    nickname, the local nickname as ingress nickname, the multi-destination
    bit and the default hop count decremented once, in front of the inner
    frame.  What follows the local delivery is exactly what the Replicator
    makes of the encapsulated buffer, and nothing of the bridge changes. *)
Theorem rbr_encaps_prepare_flood_sends w skb vid p r self dest :
  br_port_get_rcu (w_br w) (skb_dev skb) = Some p →
  br_rbr (w_br w) = Some r →
  VALID_NICK (nick r) = true →
  rbr_nodes r !! nick r = Some self →
  VALID_NICK (flood_root r self) = true →
  rbr_nodes r !! flood_root r self = Some dest →
  skb_wf skb →
  (ETH_HLEN ≤ skb_data skb)%nat →
  no_alloc_failure w →
  ∃ sent w',
    rbr_encaps_prepare TRILL_DEFAULT_HOPS skb RBRIDGE_NICKNAME_NONE vid w = Some (tt, w') ∧
    w_br w' = w_br w ∧
    w_out w' = w_out w ++ Ev_br_endstation_deliver (set_cloned true skb) :: sent ∧
    skb_frame (set_cloned true skb) = skb_frame skb ∧
    length (omap tx_frame sent)
      = length (survivors r (nick r) None (adjnicks (rbr_ni dest))) ∧
    omap tx_dest sent =
      omap (node_snpa r)
        (tail (survivors r (nick r) None (adjnicks (rbr_ni dest)))
           ++ option_list (head (survivors r (nick r) None (adjnicks (rbr_ni dest))))) ∧
    length (omap (node_snpa r)
              (tail (survivors r (nick r) None (adjnicks (rbr_ni dest)))
                 ++ option_list (head (survivors r (nick r) None (adjnicks (rbr_ni dest))))))
      = length (survivors r (nick r) None (adjnicks (rbr_ni dest))) ∧
    Forall (λ e, delivered_frame e = None ∧
                 ∀ skb', tx_frame e = Some skb' →
                   skb_payload skb' =
                     trill_hdr_bytes
                       (dec_hopcount_flags (encaps_flags TRILL_DEFAULT_HOPS true))
                       (flood_root r self) (nick r) ++ encaps_inner skb) sent ∧
    trill_get_multidest (dec_hopcount_flags (encaps_flags TRILL_DEFAULT_HOPS true)) = 1 ∧
    ∃ skb_enc,
      skb_payload skb_enc =
        trill_hdr_bytes (encaps_flags TRILL_DEFAULT_HOPS true) (flood_root r self) (nick r)
          ++ encaps_inner skb ∧
      sent = replica_events (w_br w) r skb_enc vid true
               (survivors r (nick r) None (adjnicks (rbr_ni dest))).
Proof.
  intros Hport Hr Hlocal Hself Hroot Hdest Hwf Hroom Hna.
  assert (Hfind : find_node r (flood_root r self) = Some dest)
    by (unfold find_node; by rewrite Hroot).
  destruct (rbr_encaps_prepare_flood_exact w skb vid p r self Hport Hr Hlocal Hself Hroot
              Hwf Hroom Hna) as (skb_enc & t' & Hrun & Hpay & Hlen & Hmh & Hwfe).
  rewrite Hfind in Hrun.
  set (s := survivors r (nick r) None (adjnicks (rbr_ni dest))) in *.
  destruct (encaps_flags_fields TRILL_DEFAULT_HOPS true) as (_ & Hmd & _ & _ & Hrange).
  destruct (dec_hopcount_flags_fields (encaps_flags TRILL_DEFAULT_HOPS true))
    as (_ & Hmd' & _).
  destruct (skb_copied_facts skb_enc Hwfe) as (_ & Hcl & Hcm & Hcd & Hcw).
  assert (Htx : tx_wf skb_enc ∧ tx_wf (skb_copied skb_enc)).
  { unfold tx_wf, skb_wf, skb_headlen, sizeof_trill_hdr, ETH_HLEN in *. lia. }
  destruct Htx as [Htx Htxc].
  pose proof (replica_events_dests (w_br w) r skb_enc vid true (nick r) None
                (adjnicks (rbr_ni dest)) Htx Htxc) as Hd.
  pose proof (replica_events_count (w_br w) r skb_enc vid true (nick r) None
                (adjnicks (rbr_ni dest))) as Hc.
  fold s in Hd, Hc.
  eexists (replica_events (w_br w) r skb_enc vid true s), _.
  split; [exact Hrun|]. cbn [w_br w_out].
  split; [done|]. split; [done|]. split; [done|].
  split; [exact Hc|]. split; [exact Hd|].
  split.
  { change (tail s ++ option_list (head s))
      with (copy_targets true s ++ option_list (saved_target true s)).
    rewrite <- Hd, <- Hc. unfold tx_dest.
    generalize (replica_events (w_br w) r skb_enc vid true s). intros l.
    induction l as [|e l IH]; [done|]. cbn [omap list_omap].
    destruct (tx_frame e); cbn [fmap option_fmap option_map length]; by rewrite ?IH. }
  split; [|split; [congruence|by exists skb_enc]].
  pose proof (replica_events_payload (w_br w) r skb_enc vid true s _ _ _ _
                Hpay Hrange Hlen Hmh Hwfe) as Hall.
  apply Forall_forall. intros e He. split.
  - unfold replica_events in He. apply elem_of_app in He as [He|He].
    + apply list_elem_of_omap in He as (a & _ & Ha). unfold hop_event in Ha.
      destruct (find_node r a) as [adj|]; [|done]. cbn in Ha. inversion Ha; subst e.
      unfold fwd_finish_event. by destruct (br_fdb_get _ _ _).
    + destruct (saved_target _ _) as [a|].
      * unfold hop_event in He. destruct (find_node r a) as [adj|]; cbn in He.
        -- apply list_elem_of_singleton in He. subst e.
           unfold fwd_finish_event. by destruct (br_fdb_get _ _ _).
        -- by apply elem_of_nil in He.
      * apply list_elem_of_singleton in He. by subst e.
  - by apply (proj1 (Forall_forall _ _) Hall).
Qed.
End Properties.

(** * The worked examples on the campus *)

Section Examples.
Import Campus.

Local Ltac run := vm_compute; reflexivity.

Lemma header_ok_example flags egress ingress :
  VALID_NICK ingress = true → VALID_NICK egress = true →
  trill_get_version flags = TRILL_PROTOCOL_VERS → trill_get_optslen flags = 0 →
  ingress ≠ 5 →
  frame_ingress (trill_frame MP MB flags egress ingress) = ingress →
  frame_egress (trill_frame MP MB flags egress ingress) = egress →
  frame_flags (trill_frame MP MB flags egress ingress) = flags →
  recv_header_ok rbrR port1 (trill_frame MP MB flags egress ingress).
Proof.
  intros Hi He Hv Ho Hn Ei Ee Ef. unfold recv_header_ok.
  rewrite Ei, Ee, Ef. repeat split; try assumption.
  vm_compute. lia.
Qed.

Lemma not_dropped_example skb (w' : world (list fdb_entry)) :
  rx_dropped (w_br w') = 0 → ¬ recv_dropped skb w0 w'.
Proof.
  intros H0 [Hbr _]. rewrite Hbr in H0. vm_compute in H0. discriminate.
Qed.

(** The frame addressed to B's MAC is freed on arrival at R. *)
Lemma rbr_recv_outer_dst_mismatch_witness :
  h_dest (eth_hdr frame_wrong_dst) ≠ port_dev_addr port1 ∧
  rbr_recv frame_wrong_dst 10 w0 =
    Some (tt, mk_world (set_rx_dropped (incr (rx_dropped (w_br w0))) (w_br w0))
                (w_out w0 ++ [Ev_kfree_skb frame_wrong_dst]) (w_alloc w0)).
Proof.
  assert (Hp : br_port_get_rcu (w_br w0) (skb_dev frame_wrong_dst) = Some port1)
    by reflexivity.
  assert (Hd : h_dest (eth_hdr frame_wrong_dst) ≠ port_dev_addr port1)
    by (vm_compute; discriminate).
  split; [exact Hd|].
  exact (rbr_recv_outer_dst_mismatch w0 frame_wrong_dst 10 port1 Hp Hd).
Defined.

(** The frame whose ingress nickname is that of R is dropped by R. *)
Lemma rbr_recv_selfloop_dropped_witness :
  frame_ingress frame_selfloop = nick rbrR ∧
  ∃ w', rbr_recv frame_selfloop 10 w0 = Some (tt, w') ∧
        recv_dropped frame_selfloop w0 w'.
Proof.
  assert (Hi : frame_ingress frame_selfloop = nick rbrR) by reflexivity.
  split; [exact Hi|].
  apply (rbr_recv_selfloop_dropped w0 frame_selfloop 10 port1 rbrR).
  - reflexivity.
  - vm_compute. lia.
  - reflexivity.
  - exact Hi.
Defined.



(** With hop count 1, the transit frame for D leaves R for D's MAC address
    with hop count 0, and the frame for R itself is decapsulated. *)
Lemma rbr_recv_hop_count_one_witness :
  (∃ w' e skb',
     rbr_recv frame_hop1_transit 10 w0 = Some (tt, w') ∧
     w_br w' = set_br_fdb
                 (br_fdb_update (br_fdb (w_br w0)) port1
                    (h_source (eth_hdr frame_hop1_transit)) 10) (w_br w0) ∧
     w_out w' = w_out w0 ++ [e] ∧
     tx_frame e = Some skb' ∧
     h_dest (eth_hdr skb') = MD ∧
     trill_get_hopcount (th_flags (skb_linear skb')) = 0) ∧
  (∃ w', rbr_recv frame_hop1_local 10 w0 = Some (tt, w') ∧
         recv_decapsulated port1 frame_hop1_local 10 w0 w').
Proof.
  assert (H1 : recv_header_ok rbrR port1 frame_hop1_transit)
    by (apply header_ok_example; try reflexivity; discriminate).
  assert (H2 : recv_header_ok rbrR port1 frame_hop1_local)
    by (apply header_ok_example; try reflexivity; discriminate).
  split.
  - apply (proj1 (rbr_recv_hop_count_one w0 frame_hop1_transit 10 port1 rbrR
                    eq_refl eq_refl H1 eq_refl eq_refl)) with (adj := node MD [] []).
    + vm_compute. discriminate.
    + vm_compute. discriminate.
    + vm_compute. lia.
    + reflexivity.
  - apply (proj2 (rbr_recv_hop_count_one w0 frame_hop1_local 10 port1 rbrR
                    eq_refl eq_refl H2 eq_refl eq_refl)).
    reflexivity.
Defined.

(** A unicast transit frame arrives with hop count 1 and is not dropped: it
    leaves for the next hop with hop count 0. *)
Lemma hop_count_one_transit_counterexample :
  trill_get_hopcount (frame_flags frame_hop1_transit) = 1 ∧
  trill_get_multidest (frame_flags frame_hop1_transit) = 0 ∧
  frame_egress frame_hop1_transit ≠ nick rbrR ∧
  ∃ w' skb',
    rbr_recv frame_hop1_transit 10 w0 = Some (tt, w') ∧
    w_out w' = [Ev_br_trill_flood_forward skb'] ∧
    h_dest (eth_hdr skb') = MD ∧
    trill_get_hopcount (th_flags (skb_linear skb')) = 0 ∧
    ¬ recv_dropped frame_hop1_transit w0 w'.
Proof.
  split; [reflexivity|]. split; [reflexivity|].
  split; [vm_compute; discriminate|].
  eexists; eexists. split; [run|]. split; [reflexivity|].
  split; [reflexivity|]. split; [reflexivity|].
  apply not_dropped_example. reflexivity.
Qed.

(** The Replicator at R on the tree rooted at A, asked to consume the
    buffer of a frame that came from C: B and D survive, D is sent a copy and
    the original buffer goes to B, last; when the copy cannot be allocated
    nothing is sent, B gets nothing either, and tx_dropped is counted twice. *)
Lemma rbr_multidest_fwd_replicates_witness :
  survivors rbrR 9 (Some MC) [2; 4] = [2; 4] ∧
  (∃ c o,
     rbr_multidest_fwd (Some port1) frame_multidest_from_C 1 9 (Some MC) 10 true w0 =
       Some (0, mk_world brR [Ev_br_trill_flood_forward c; Ev_br_trill_flood_forward o] []) ∧
     h_dest (eth_hdr c) = MD ∧ h_dest (eth_hdr o) = MB ∧
     cloned c = false ∧ skb_buf o = skb_buf (fwd_rewrite brR (node MB [] [])
                                               frame_multidest_from_C)) ∧
  rbr_multidest_fwd (Some port1) frame_multidest_from_C 1 9 (Some MC) 10 true w_noalloc =
    Some (-1, mk_world (set_tx_dropped 2 brR)
                [Ev_printk "rbr_multidest_fwd:skb_copy failed";
                 Ev_kfree_skb frame_multidest_from_C] []).
Proof.
  split; [reflexivity|]. split.
  - destruct (proj2 (proj2 (rbr_multidest_fwd_replicates frame_multidest_from_C 1 9
                              (Some MC) 10 true w0) port1) rbrR eq_refl) as [_ H].
    destruct (H (node MA [2; 4] []) [2; 4] [4] eq_refl eq_refl eq_refl) as (Hok & _).
    eexists _, _. split.
    + rewrite Hok by (vm_compute; repeat constructor). reflexivity.
    + repeat split; reflexivity.
  - destruct (proj2 (proj2 (rbr_multidest_fwd_replicates frame_multidest_from_C 1 9
                              (Some MC) 10 true w_noalloc) port1) rbrR eq_refl) as [_ H].
    destruct (H (node MA [2; 4] []) [2; 4] [4] eq_refl eq_refl eq_refl) as (_ & Hfail & _).
    rewrite (Hfail 0%nat []) by (vm_compute; (lia || reflexivity)).
    reflexivity.
Defined.

(** The Replicator as rbr_recv calls it, with its last argument false: B and
    D both survive, each is sent a copy, B first, and the original buffer is
    freed, not forwarded. *)
Lemma replicator_keeps_original_counterexample :
  survivors rbrR 9 (Some MC) [2; 4] = [2; 4] ∧
  ∃ w' c1 c2,
    rbr_multidest_fwd (Some port1) frame_multidest_from_C 1 9 (Some MC) 10 false w0
      = Some (0, w') ∧
    w_out w' = [Ev_br_trill_flood_forward c1; Ev_br_trill_flood_forward c2;
                Ev_kfree_skb frame_multidest_from_C] ∧
    h_dest (eth_hdr c1) = MB ∧ h_dest (eth_hdr c2) = MD ∧
    cloned c1 = false ∧ cloned c2 = false.
Proof.
  split; [reflexivity|].
  eexists; eexists; eexists. split; [run|]. repeat split; reflexivity.
Qed.

(** Scenario 4 of the specification: the multi-destination frame that
    arrives from B. *)
Lemma rbr_recv_multidest_pruned_witness :
  trill_get_multidest (frame_flags frame_multidest) ≠ 0 ∧
  ∃ w', rbr_recv frame_multidest 10 w0 = Some (tt, w') ∧
        emitted (pruned_tx rbrR (tree_adjacencies rbrR (frame_egress frame_multidest))
                   (frame_ingress frame_multidest)
                   (h_source (eth_hdr frame_multidest))) w0 w'.
Proof.
  assert (Hm : trill_get_multidest (frame_flags frame_multidest) ≠ 0)
    by (vm_compute; discriminate).
  split; [exact Hm|].
  apply (rbr_recv_multidest_pruned w0 frame_multidest 10 port1 rbrR).
  - reflexivity.
  - reflexivity.
  - vm_compute. lia.
  - vm_compute. lia.
  - exact Hm.
Defined.



(** Flooding the frame ES1 -> ES2 at R.  With no tree root nominated and no
    root advertised it is dropped.  When R's own entry advertises B as root
    while the tree root configured is A, the root is B: the frame is
    delivered locally, then a copy goes to D and the original buffer to A,
    the adjacencies of B other than R, both naming B as egress nickname. *)
Lemma rbr_encaps_prepare_flood_root_witness :
  rbr_encaps_prepare TRILL_DEFAULT_HOPS (station_frame 0) RBRIDGE_NICKNAME_NONE 10 w_noroot =
    Some (tt, mk_world
                (set_tx_dropped (incr (tx_dropped (w_br w_noroot))) (w_br w_noroot))
                (w_out w_noroot ++ [Ev_printk "rbr_encaps_prepare: dtrNick is unvalid";
                                    Ev_kfree_skb (station_frame 0)])
                (w_alloc w_noroot)) ∧
  flood_root rbrT (node MR [] [2]) = 2 ∧ treeroot rbrT = 1 ∧
  ∃ w' c o,
    rbr_encaps_prepare TRILL_DEFAULT_HOPS (station_frame 0) RBRIDGE_NICKNAME_NONE 10 w_dtroot
      = Some (tt, w') ∧
    emitted (tx_nicks 2 5) w_dtroot w' ∧
    w_out w' = [Ev_br_endstation_deliver flood_clone;
                Ev_br_trill_flood_forward c; Ev_br_trill_flood_forward o] ∧
    h_dest (eth_hdr c) = MD ∧ h_dest (eth_hdr o) = MA ∧
    th_egressnick (skb_payload c) = 2 ∧ th_egressnick (skb_payload o) = 2 ∧
    th_ingressnick (skb_payload c) = 5 ∧ th_ingressnick (skb_payload o) = 5.
Proof.
  split.
  { apply (proj1 (proj2 (rbr_encaps_prepare_flood_root TRILL_DEFAULT_HOPS w_noroot
                           (station_frame 0) 10 port1
                           (mk_rbr 5 RBRIDGE_NICKNAME_NONE nodesR) (node MR [] [])
                           eq_refl eq_refl eq_refl eq_refl))).
    reflexivity. }
  destruct (rbr_encaps_prepare_flood_root TRILL_DEFAULT_HOPS w_dtroot
              (station_frame 0) 10 port1 rbrT (node MR [] [2])
              eq_refl eq_refl eq_refl eq_refl) as (Hroot & _ & Hsend).
  split; [exact Hroot|]. split; [reflexivity|].
  destruct Hsend as (w' & Hrun & Hem & Hexact).
  - reflexivity.
  - vm_compute. lia.
  - vm_compute. lia.
  - vm_compute. split; [discriminate | reflexivity].
  - vm_compute. split; [discriminate | reflexivity].
  - destruct Hexact as (skb_enc & _ & _ & _ & Hout); [vm_compute; constructor|].
    exists w'.
    pose proof Hrun as Hv. vm_compute in Hv. injection Hv as Hv. subst w'.
    eexists _, _. split; [exact Hrun|]. split; [exact Hem|].
    split; [reflexivity|]. repeat split; reflexivity.
Defined.

(** Enabling TRILL on R, where it is enabled already, changes nothing. *)
Lemma br_trill_set_enabled_idempotent_witness :
  br_trill_set_enabled 1 w0 = Some (tt, w0) ∧
  add_rbr w0 = Some (Some rbrR, w0).
Proof.
  destruct (br_trill_set_enabled_idempotent w0 1) as (Hsame & Hadd & _).
  split.
  - apply Hsame. split; intros _; vm_compute; discriminate.
  - apply Hadd. reflexivity.
Defined.

(** Flooding the frame ES1 -> ES2 at R when the headroom cannot be grown: the
    local copy is delivered all the same. *)
Lemma flood_local_copy_precedes_encapsulation_witness :
  skb_clone (station_frame 0) w_alloc_fails
    = Some (Some (flood_clone, flood_clone), mk_world brR [] [false]) ∧
  ∃ w' evs,
    rbr_encaps_prepare TRILL_DEFAULT_HOPS (station_frame 0) RBRIDGE_NICKNAME_NONE 10
      w_alloc_fails = Some (tt, w') ∧
    w_br w' = set_tx_dropped (incr (tx_dropped (w_br w_alloc_fails))) (w_br w_alloc_fails) ∧
    w_out w' = w_out w_alloc_fails
                 ++ Ev_br_endstation_deliver flood_clone :: evs
                 ++ [Ev_kfree_skb flood_pushed] ∧
    Forall silent evs ∧
    skb_frame flood_clone = skb_frame (station_frame 0).
Proof.
  assert (Hc : skb_clone (station_frame 0) w_alloc_fails
               = Some (Some (flood_clone, flood_clone), mk_world brR [] [false]))
    by reflexivity.
  split; [exact Hc|].
  apply (flood_local_copy_precedes_encapsulation TRILL_DEFAULT_HOPS w_alloc_fails
           (station_frame 0) 10 port1 rbrR (node MR [] []) flood_clone flood_clone
           (mk_world brR [] [false]) flood_pushed
           (mk_world brR [Ev_br_endstation_deliver flood_clone;
                          Ev_printk "rbr_encaps: cow_head failed"] [])).
  - reflexivity.
  - reflexivity.
  - reflexivity.
  - reflexivity.
  - reflexivity.
  - vm_compute. lia.
  - exact Hc.
  - run.
Defined.

(** ** The neighbour table and the TRILL switch *)

(** Once D's node is deleted from R's table, D is no longer found; deleting
    the nickname NONE changes nothing. *)
Lemma rbr_del_node_find_node_witness :
  rbr_find_node (Some (rbr_del_node rbrR 4)) 4 w0 = Some (None, w0) ∧
  rbr_del_node rbrR RBRIDGE_NICKNAME_NONE = rbrR.
Proof.
  destruct (rbr_del_node_find_node rbrR 4 4 w0) as (Hfind & _).
  destruct (rbr_del_node_find_node rbrR RBRIDGE_NICKNAME_NONE 4 w0) as (_ & _ & _ & Hnone).
  split; [exact Hfind|]. apply Hnone. reflexivity.
Defined.

(** Once R's table has been emptied, D is no longer found. *)
Lemma rbr_del_all_find_node_witness :
  rbr_find_node (Some (rbr_del_all rbrR)) 4 w0 = Some (None, w0).
Proof.
  apply (proj1 (rbr_del_all_find_node rbrR 4 w0 ltac:(unfold is_u16; lia))).
Defined.

(** Enabling TRILL on the bridge where the spanning tree runs. *)
Lemma br_trill_set_enabled_starts_witness :
  ∃ w', br_trill_set_enabled 1 w_disabled = Some (tt, w') ∧
        stp_enabled (w_br w') = BR_NO_STP ∧
        trill_enabled (w_br w') = BR_TRILL ∧
        br_rbr (w_br w') = Some fresh_rbr ∧
        w_out w' = [Ev_br_stp_stop].
Proof.
  destruct (br_trill_set_enabled_starts w_disabled 1 ltac:(discriminate) eq_refl)
    as (w' & Hrun & _ & Hstp & _ & Hfresh & _).
  destruct (Hfresh eq_refl ltac:(discriminate)) as (Hon & Hr & Hout).
  exists w'. repeat split; assumption.
Defined.

(** Disabling TRILL on R, and enabling it again. *)
Lemma br_trill_set_enabled_stops_witness :
  ∃ w', br_trill_set_enabled 0 w0 = Some (tt, w') ∧
        br_rbr (w_br w') = None ∧
        w_out w' = [Ev_kfree_rbr (rbr_del_all rbrR)] ∧
        ∃ w'', br_trill_set_enabled 1 w' = Some (tt, w'') ∧
               br_rbr (w_br w'') = Some fresh_rbr.
Proof.
  destruct (br_trill_set_enabled_stops w0 1 ltac:(discriminate) ltac:(discriminate))
    as (w' & Hrun & _ & _ & _ & Hr & Hout & _ & Hagain).
  destruct (Hagain ltac:(discriminate)) as (w'' & Hrun' & _ & Hfresh).
  exists w'. repeat split; try assumption. exists w''. split; assumption.
Defined.

(** R satisfies the invariant, and keeps it when TRILL is disabled. *)
Lemma br_trill_set_enabled_consistent_witness :
  ∃ w', br_trill_set_enabled 0 w0 = Some (tt, w') ∧ trill_consistent (w_br w').
Proof.
  apply (br_trill_set_enabled_consistent w0 0). intros _. discriminate.
Defined.

(** The reserved nickname is refused as a tree root of R, and B's is
    accepted. *)
Lemma set_treeroot_outcome_witness :
  set_treeroot 0xFFFF w0 =
    Some (ENOENT, mk_world (w_br w0)
                    (w_out w0 ++ [Ev_printk "rbr_set_treeroot: given tree root not valid"])
                    (w_alloc w0)) ∧
  ∃ w', set_treeroot 2 w0 = Some (0, w') ∧
        br_rbr (w_br w') = Some (mk_rbr 5 2 nodesR).
Proof.
  split.
  - apply (proj1 (set_treeroot_outcome w0 0xFFFF)). reflexivity.
  - destruct (proj2 (set_treeroot_outcome w0 2) eq_refl rbrR eq_refl)
      as (w' & Hrun & Hr & _).
    exists w'. split; assumption.
Defined.

(** ** Forwarder and Replicator *)

(** R forwards the transit frame to D. *)
Lemma rbr_fwd_rewrites_outer_header_witness :
  ∃ e skb',
    rbr_fwd port1 frame_transit 4 10 w0
      = Some (tt, mk_world (w_br w0) (w_out w0 ++ [e]) (w_alloc w0)) ∧
    tx_frame e = Some skb' ∧
    h_dest (eth_hdr skb') = MD ∧
    h_source (eth_hdr skb') = MR ∧
    skb_payload skb' =
      be16_bytes (dec_hopcount_flags (th_flags (skb_linear frame_transit)))
        ++ drop 2 (skb_payload frame_transit) ∧
    trill_get_hopcount (dec_hopcount_flags (th_flags (skb_linear frame_transit))) = 4.
Proof.
  destruct (rbr_fwd_rewrites_outer_header port1 frame_transit 4 10 w0 rbrR (node MD [] [])
              eq_refl eq_refl eq_refl ltac:(vm_compute; lia))
    as (e & skb' & Hrun & Htx & Hsrc & Hdst & _ & Hpay & _ & _ & _ & Hhop).
  exists e, skb'. split; [exact Hrun|]. split; [exact Htx|]. split; [exact Hdst|].
  split; [exact (proj2 Hsrc)|]. split; [exact Hpay|].
  apply Hhop. vm_compute. discriminate.
Defined.

(** The Replicator at R on the tree rooted at A, for a frame C sent. *)
Lemma rbr_multidest_fwd_sends_witness :
  rbr_multidest_fwd (Some port1) frame_multidest_from_C 1 9 (Some MC) 10 true w0 =
    Some (0, mk_world (w_br w0)
               (w_out w0 ++ replica_events (w_br w0) rbrR frame_multidest_from_C 10 true
                              (survivors rbrR 9 (Some MC) [2; 4]))
               (drop (length (copy_targets true (survivors rbrR 9 (Some MC) [2; 4])))
                  (w_alloc w0))) ∧
  length (omap tx_frame
            (replica_events (w_br w0) rbrR frame_multidest_from_C 10 true
               (survivors rbrR 9 (Some MC) [2; 4])))
    = length (survivors rbrR 9 (Some MC) [2; 4]).
Proof.
  exact (rbr_multidest_fwd_sends port1 frame_multidest_from_C 1 9 (Some MC) 10 true w0
           rbrR (node MA [2; 4] []) eq_refl eq_refl ltac:(vm_compute; constructor)).
Defined.

(** Only D survives for a frame B sent: no copy is made, although the
    allocator would refuse one. *)
Lemma rbr_multidest_fwd_no_copy_witness :
  rbr_multidest_fwd (Some port1) frame_multidest 1 9 (Some MB) 10 true w_noalloc =
    Some (0, mk_world (w_br w_noalloc)
               (w_out w_noalloc
                  ++ match survivors rbrR 9 (Some MB) [2; 4] with
                     | a :: _ => option_list (hop_event (w_br w_noalloc) rbrR
                                                frame_multidest 10 a)
                     | [] => [Ev_kfree_skb frame_multidest]
                     end)
               (w_alloc w_noalloc)).
Proof.
  exact (rbr_multidest_fwd_no_copy port1 frame_multidest 1 9 (Some MB) 10 w_noalloc
           rbrR (node MA [2; 4] []) eq_refl eq_refl ltac:(vm_compute; lia)).
Defined.

(** The second copy cannot be allocated: B has its copy, D has none. *)
Lemma rbr_multidest_fwd_copy_failure_witness :
  rbr_multidest_fwd (Some port1) frame_multidest_from_C 1 9 (Some MC) 10 false
    w_alloc_fails =
    Some (-1,
          mk_world
            (set_tx_dropped (incr (incr (tx_dropped (w_br w_alloc_fails))))
               (w_br w_alloc_fails))
            (w_out w_alloc_fails
               ++ omap (hop_event (w_br w_alloc_fails) rbrR
                          (skb_copied frame_multidest_from_C) 10)
                    (take 1 (copy_targets false (survivors rbrR 9 (Some MC) [2; 4])))
               ++ [Ev_printk "rbr_multidest_fwd:skb_copy failed";
                   Ev_kfree_skb frame_multidest_from_C])
            []).
Proof.
  exact (rbr_multidest_fwd_copy_failure port1 frame_multidest_from_C 1 9 (Some MC) 10 false
           w_alloc_fails rbrR (node MA [2; 4] []) 1 [] eq_refl eq_refl
           ltac:(vm_compute; lia) eq_refl).
Defined.

(** ** Encapsulator *)

(** R encapsulates the frame ES1 -> ES2 for D. *)
Lemma rbr_encaps_prepare_unicast_witness :
  ∃ e skb' w',
    rbr_encaps_prepare TRILL_DEFAULT_HOPS (station_frame 0) 4 10 w0 = Some (tt, w') ∧
    w_out w' = w_out w0 ++ [e] ∧
    tx_frame e = Some skb' ∧
    h_dest (eth_hdr skb') = MD ∧
    h_proto (eth_hdr skb') = ETH_P_TRILL ∧
    skb_payload skb' =
      trill_hdr_bytes (dec_hopcount_flags (encaps_flags TRILL_DEFAULT_HOPS false)) 4 5
        ++ encaps_inner (station_frame 0) ∧
    trill_get_hopcount (dec_hopcount_flags (encaps_flags TRILL_DEFAULT_HOPS false)) = 20.
Proof.
  destruct (rbr_encaps_prepare_unicast TRILL_DEFAULT_HOPS w0 (station_frame 0) 4 10 port1
              rbrR (node MD [] []) eq_refl eq_refl eq_refl eq_refl eq_refl
              ltac:(vm_compute; lia) ltac:(vm_compute; lia) ltac:(vm_compute; constructor))
    as (e & skb' & w' & Hrun & _ & Hout & Htx & Hdst & Hproto & Hpay & _ & _ & _ & Hhop).
  exists e, skb', w'. repeat (split; [assumption|]).
  apply Hhop. vm_compute. split; reflexivity.
Defined.

(** What R sent for D is decapsulated at D. *)
Lemma unicast_encaps_recv_end_to_end_witness :
  ∃ wD' d skbd,
    rbr_recv frame_from_R 10 wD = Some (tt, wD') ∧
    w_br wD' = set_br_fdb
                 (br_fdb_update_nick (br_fdb (w_br wD)) portD
                    (h_source (inner_frame (station_frame 0))) 10 5) (w_br wD) ∧
    w_out wD' = w_out wD ++ [d] ∧
    delivered_frame d = Some skbd ∧
    skb_frame skbd = encaps_inner (station_frame 0).
Proof.
  destruct (unicast_encaps_recv_end_to_end TRILL_DEFAULT_HOPS w0 wD (station_frame 0) 10 10
              port1 rbrR (node MD [] []) portD rbrD
              eq_refl eq_refl eq_refl ltac:(unfold is_u16; cbn; lia)
              eq_refl ltac:(unfold is_u16; cbn; lia) ltac:(discriminate) eq_refl
              ltac:(vm_compute; lia) ltac:(vm_compute; lia)
              ltac:(vm_compute; constructor) eq_refl eq_refl)
    as (e & skb' & wA' & Hrun & Hout & Htx & Hrecv).
  assert (Hs : first_sent (rbr_encaps_prepare TRILL_DEFAULT_HOPS (station_frame 0) 4 10 w0)
               = skb').
  { change (nick rbrD) with 4 in Hrun. unfold first_sent. rewrite Hrun, Hout.
    change (w_out w0) with (@nil event). cbn [app omap list_omap]. rewrite Htx. reflexivity. }
  apply (Hrecv frame_from_R).
  - reflexivity.
  - vm_compute. lia.
  - vm_compute. lia.
  - unfold frame_from_R. rewrite Hs. reflexivity.
  - unfold frame_from_R. rewrite Hs. reflexivity.
Defined.

(** R refuses a frame for the reserved nickname, and the bridge where TRILL
    has just been enabled refuses every frame. *)
Lemma rbr_encaps_prepare_refuses_witness :
  rbr_encaps_prepare TRILL_DEFAULT_HOPS (station_frame 0) 0xFFFF 10 w0 =
    tx_refused "rbr_encaps_prepare: invalid destinaton nickname" (station_frame 0) w0 ∧
  rbr_encaps_prepare TRILL_DEFAULT_HOPS (station_frame 0) 4 10 w_fresh =
    tx_refused "rbr_encaps_prepare: invalid local nickname" (station_frame 0) w_fresh.
Proof.
  split.
  - apply (proj1 (proj2 (rbr_encaps_prepare_refuses TRILL_DEFAULT_HOPS w0 (station_frame 0)
                           0xFFFF 10) port1 eq_refl)).
    + discriminate.
    + reflexivity.
  - apply (proj1 (proj2 (proj2 (rbr_encaps_prepare_refuses TRILL_DEFAULT_HOPS w_fresh
                                  (station_frame 0) 4 10) port1 eq_refl)
                    fresh_rbr eq_refl (or_intror eq_refl))).
    reflexivity.
Defined.

(** R floods the frame ES1 -> ES2 on the tree rooted at A: after the local
    delivery one frame goes to D and one to B. *)
Lemma rbr_encaps_prepare_flood_sends_witness :
  ∃ sent w',
    rbr_encaps_prepare TRILL_DEFAULT_HOPS (station_frame 0) RBRIDGE_NICKNAME_NONE 10 w0
      = Some (tt, w') ∧
    w_out w' = w_out w0 ++ Ev_br_endstation_deliver (set_cloned true (station_frame 0)) :: sent ∧
    length (omap tx_frame sent) = length (survivors rbrR 5 None [2; 4]) ∧
    omap tx_dest sent = [MD; MB].
Proof.
  destruct (rbr_encaps_prepare_flood_sends TRILL_DEFAULT_HOPS w0 (station_frame 0) 10 port1
              rbrR (node MR [] []) (node MA [2; 4] [])
              eq_refl eq_refl eq_refl eq_refl eq_refl eq_refl
              ltac:(vm_compute; lia) ltac:(vm_compute; lia) ltac:(vm_compute; constructor))
    as (sent & w' & Hrun & _ & Hout & _ & Hlen & Hdest & _).
  exists sent, w'. split; [exact Hrun|]. split; [exact Hout|]. split; [exact Hlen|].
  rewrite Hdest. reflexivity.
Defined.

(** The tagged frame when the headroom for the tag cannot be allocated. *)
Lemma rbr_encaps_prepare_vlan_failure_witness :
  ∃ freed,
    rbr_encaps_prepare TRILL_DEFAULT_HOPS (station_frame 0x100A) 4 10 w_noalloc =
      Some (tt, mk_world
                  (set_tx_dropped (incr (tx_dropped (w_br w_noalloc))) (w_br w_noalloc))
                  (w_out w_noalloc ++ [Ev_kfree_skb freed;
                                       Ev_printk "rbr_encaps: vlan_put_tag failed";
                                       Ev_kfree_skb freed])
                  []) ∧
    skb_buf freed = skb_buf (station_frame 0x100A) ∧
    skb_frags freed = skb_frags (station_frame 0x100A).
Proof.
  apply (rbr_encaps_prepare_vlan_failure TRILL_DEFAULT_HOPS w_noalloc (station_frame 0x100A)
           4 10 port1 rbrR 10 []); try reflexivity.
  - vm_compute. lia.
  - right. vm_compute. lia.
Defined.

(** R keeps its control state when it encapsulates. *)
Lemma rbr_encaps_prepare_keeps_control_state_witness :
  ∃ w', rbr_encaps_prepare TRILL_DEFAULT_HOPS (station_frame 0) 4 10 w0 = Some (tt, w') ∧
        same_control (w_br w0) (w_br w') ∧
        br_fdb (w_br w') = br_fdb (w_br w0).
Proof.
  apply (rbr_encaps_prepare_keeps_control_state TRILL_DEFAULT_HOPS w0 (station_frame 0) 4 10
           rbrR eq_refl); vm_compute; lia.
Defined.

(** ** Receive path *)

Lemma header_ok_from src flags egress ingress :
  VALID_NICK ingress = true → VALID_NICK egress = true →
  trill_get_version flags = TRILL_PROTOCOL_VERS → trill_get_optslen flags = 0 →
  ingress ≠ 5 →
  frame_ingress (trill_frame MP src flags egress ingress) = ingress →
  frame_egress (trill_frame MP src flags egress ingress) = egress →
  frame_flags (trill_frame MP src flags egress ingress) = flags →
  recv_header_ok rbrR port1 (trill_frame MP src flags egress ingress).
Proof.
  intros Hi He Hv Ho Hn Ei Ee Ef. unfold recv_header_ok.
  rewrite Ei, Ee, Ef. repeat split; try assumption.
  vm_compute. lia.
Qed.


(** C is no adjacency of the tree rooted at A: its frame is not admitted. *)
Lemma rbr_recv_multidest_not_admitted_witness :
  ∃ w', rbr_recv frame_multidest_from_C 10 w0 = Some (tt, w') ∧
        recv_dropped frame_multidest_from_C w0 w'.
Proof.
  apply (rbr_recv_multidest_not_admitted w0 frame_multidest_from_C 10 port1 rbrR
           eq_refl eq_refl).
  - apply header_ok_from; try reflexivity. discriminate.
  - vm_compute. discriminate.
  - left. reflexivity.
Defined.

(** Scenario 4 of the specification, in full: one copy to D, then the local
    delivery of the inner frame. *)
Lemma rbr_recv_multidest_replicates_and_delivers_witness :
  ∃ w' d skbd,
    rbr_recv frame_multidest 10 w0 = Some (tt, w') ∧
    w_out w' =
      w_out w0 ++
      replica_events (w_br w0) rbrR (set_cloned true (mark_encapsulated frame_multidest))
        10 false (survivors rbrR 9 (Some MB) [2; 4]) ++ [d] ∧
    length (omap tx_frame
              (replica_events (w_br w0) rbrR
                 (set_cloned true (mark_encapsulated frame_multidest)) 10 false
                 (survivors rbrR 9 (Some MB) [2; 4]))) = 1%nat ∧
    delivered_frame d = Some skbd ∧
    skb_frame skbd = inner.
Proof.
  destruct (rbr_recv_multidest_replicates_and_delivers w0 frame_multidest 10 port1 rbrR
              (node MA [2; 4] []) eq_refl eq_refl
              ltac:(apply header_ok_from; try reflexivity; discriminate)
              ltac:(vm_compute; discriminate) ltac:(vm_compute; discriminate)
              eq_refl eq_refl eq_refl ltac:(vm_compute; constructor))
    as (w' & d & skbd & Hrun & _ & Hout & Hlen & Hdel & Hframe).
  exists w', d, skbd. split; [exact Hrun|]. split; [exact Hout|].
  split; [exact Hlen|]. split; [exact Hdel|]. exact Hframe.
Defined.

(** The same frame when the clone cannot be allocated. *)
Lemma rbr_recv_multidest_clone_failure_witness :
  rbr_recv frame_multidest 10 w_noalloc =
    Some (tt, mk_world
                (set_rx_dropped (incr (rx_dropped (w_br w_noalloc)))
                   (set_tx_dropped (incr (tx_dropped (w_br w_noalloc))) (w_br w_noalloc)))
                (w_out w_noalloc ++ [Ev_printk "rbr_recv: multicast skb_clone failed";
                                     Ev_kfree_skb (mark_encapsulated frame_multidest)])
                []).
Proof.
  apply (rbr_recv_multidest_clone_failure w_noalloc frame_multidest 10 port1 rbrR
           (node MA [2; 4] []) [] eq_refl eq_refl
           ltac:(apply header_ok_from; try reflexivity; discriminate)
           ltac:(vm_compute; discriminate) ltac:(vm_compute; discriminate)
           eq_refl eq_refl eq_refl eq_refl).
Defined.

(** The transit frame for a nickname R has no node for. *)
Lemma rbr_recv_transit_unknown_egress_witness :
  rbr_recv frame_unknown_egress 10 w0 =
    Some (tt, mk_world
                (set_tx_dropped (incr (tx_dropped (w_br w0)))
                   (set_br_fdb (br_fdb_update (br_fdb (w_br w0)) port1
                                  (h_source (eth_hdr frame_unknown_egress)) 10) (w_br w0)))
                (w_out w0 ++ [Ev_printk "rbr_fwd: unable to find adjacent RBridge";
                              Ev_kfree_skb (mark_encapsulated frame_unknown_egress)])
                (w_alloc w0)).
Proof.
  apply (rbr_recv_transit_unknown_egress w0 frame_unknown_egress 10 port1 rbrR
           eq_refl eq_refl ltac:(apply header_ok_from; try reflexivity; discriminate)
           eq_refl); try reflexivity; vm_compute; discriminate.
Defined.

(** The transit frame for D, hop count 5, leaves R with hop count 4. *)
Lemma rbr_recv_transit_forwards_witness :
  ∃ e skb',
    rbr_recv frame_transit 10 w0 =
      Some (tt, mk_world
                  (set_br_fdb (br_fdb_update (br_fdb (w_br w0)) port1
                                 (h_source (eth_hdr frame_transit)) 10) (w_br w0))
                  (w_out w0 ++ [e]) (w_alloc w0)) ∧
    tx_frame e = Some skb' ∧
    h_dest (eth_hdr skb') = MD ∧
    skb_payload skb' =
      be16_bytes (dec_hopcount_flags (frame_flags frame_transit))
        ++ drop 2 (skb_payload frame_transit) ∧
    trill_get_hopcount (dec_hopcount_flags (frame_flags frame_transit)) = 4.
Proof.
  destruct (rbr_recv_transit_forwards w0 frame_transit 10 port1 rbrR (node MD [] [])
              eq_refl eq_refl ltac:(apply header_ok_from; try reflexivity; discriminate)
              ltac:(vm_compute; lia) eq_refl ltac:(vm_compute; discriminate)
              ltac:(vm_compute; discriminate) ltac:(vm_compute; discriminate) eq_refl)
    as (e & skb' & Hrun & Htx & Hdst & _ & Hpay & Hhop).
  exists e, skb'. split; [exact Hrun|]. split; [exact Htx|]. split; [exact Hdst|].
  split; [exact Hpay|]. exact Hhop.
Defined.

(** R keeps its control state when it receives. *)
Lemma rbr_recv_keeps_control_state_witness :
  ∃ w', rbr_recv frame_multidest 10 w0 = Some (tt, w') ∧
        same_control (w_br w0) (w_br w').
Proof.
  apply (rbr_recv_keeps_control_state w0 frame_multidest 10 port1 rbrR eq_refl eq_refl).
  vm_compute. lia.
Defined.

(** The Decapsulator on the frame for R: refused with a header size of 2,
    delivered with that of a TRILL header. *)
Lemma rbr_decaps_outcome_witness :
  rbr_decaps (Some port1) frame_hop1_local 2 10 w0 =
    Some (tt, mk_world (set_rx_dropped (incr (rx_dropped (w_br w0))) (w_br w0))
                (w_out w0 ++ [Ev_kfree_skb frame_hop1_local]) (w_alloc w0)) ∧
  ∃ d skbd,
    rbr_decaps (Some port1) frame_hop1_local sizeof_trill_hdr 10 w0 =
      Some (tt, mk_world
                  (set_br_fdb
                     (br_fdb_update_nick (br_fdb (w_br w0)) port1
                        (h_source (drop sizeof_trill_hdr (skb_linear frame_hop1_local))) 10
                        (th_ingressnick (skb_linear frame_hop1_local))) (w_br w0))
                  (w_out w0 ++ [d]) (w_alloc w0)) ∧
    skb_dev skbd = br_dev (w_br w0) ∧
    encapsulation skbd = false.
Proof.
  split.
  - apply (proj1 (proj2 (rbr_decaps_outcome frame_hop1_local 2 10 w0) port1)).
    vm_compute. lia.
  - destruct (proj2 (proj2 (rbr_decaps_outcome frame_hop1_local sizeof_trill_hdr 10 w0)
                       port1) ltac:(vm_compute; lia) ltac:(vm_compute; lia))
      as (d & skbd & Hrun & _ & _ & _ & _ & _ & _ & Hdev & Henc).
    exists d, skbd. split; [exact Hrun|]. split; [exact Hdev|exact Henc].
Defined.

End Examples.
